(** * The conversation session manager of posm-chat

    A shallow embedding of the session logic of [posm-chat/src/App.tsx],
    [hooks/useSaveConversation.ts], [components/MessageList] and
    [components/AiMessage], and the properties of it that the design
    document states.

    Conventions of the embedding.
    - A JavaScript string is a [string]; its characters are read as
      Latin-1 code points.
    - [Date.now()] is a natural number of milliseconds [N].  A value
      stored in a [timestamp] field is either a [Date] object or the ISO
      text that [JSON.stringify] writes for it; both carry the instant.
    - [undefined] in an optional field is [None].
    - A React handler reads the state of the render it was created in
      (its closure) and queues updates that are applied in call order; an
      updater function [prev => ...] receives the state left by the update
      before it.  Handlers therefore take the closure state and the running
      state as two arguments where the source tells them apart.
    - [useLocalStorage] comes from the package [usehooks-ts].  Its setter
      writes the JSON text of the new value to [localStorage] and the state
      it returns is that text parsed, at once and on every later mount; an
      updater function receives the value read from the storage.  The list
      of saved conversations that the component reads is therefore never
      the list handed to the setter but its image under [JSON.stringify]
      and [JSON.parse]: every [Date] in it is an ISO text.
    - A message or conversation object is a value here.  In the source
      [handleLike] and [handleDislike] assign to the very object held by
      the message list; the new value reaches [chatHistory] through
      [handleUpdateMessages], which is what is modelled.
    - An [async] handler is cut at its [await]: the part before it, and a
      continuation that gets what was captured, the outcome of the call
      and the state current when the call settles. *)

From Stdlib Require Import String Ascii List Bool Arith NArith ZArith Lia.
From Stdlib Require Import DecimalString DecimalN Permutation Sorted.
Import ListNotations.

Local Open Scope string_scope.
Local Open Scope list_scope.

(** ** JavaScript primitives used by the session manager *)

Module JS.

(** White space removed by [String.prototype.trim], within Latin-1:
    TAB, LF, VT, FF, CR, SPACE and NBSP.  The white space that lies beyond
    Latin-1 cannot occur in a [string] and is outside the model. *)
Definition isWhiteSpace (c : ascii) : bool :=
  let n := N_of_ascii c in
  ((9 <=? n) && (n <=? 13) || (n =? 32) || (n =? 160))%N.

Fixpoint trimStart (s : string) : string :=
  match s with
  | EmptyString => EmptyString
  | String c s' => if isWhiteSpace c then trimStart s' else s
  end.

Fixpoint trimEnd (s : string) : string :=
  match s with
  | EmptyString => EmptyString
  | String c s' =>
      match trimEnd s' with
      | EmptyString => if isWhiteSpace c then EmptyString else String c EmptyString
      | t => String c t
      end
  end.

Definition trim (s : string) : string := trimEnd (trimStart s).

(** [toLowerCase] on Latin-1: A-Z, and the accented capitals U+00C0 to
    U+00DE except the multiplication sign U+00D7, move up by 32.  Within
    Latin-1 the result is found character by character; beyond it
    [String.prototype.toLowerCase] looks at the context, which is outside
    the model. *)
Definition lowerChar (c : ascii) : ascii :=
  let n := N_of_ascii c in
  if ((65 <=? n) && (n <=? 90) || (192 <=? n) && (n <=? 222) && negb (n =? 215))%N
  then ascii_of_N (n + 32) else c.

Fixpoint toLowerCase (s : string) : string :=
  match s with
  | EmptyString => EmptyString
  | String c s' => String (lowerChar c) (toLowerCase s')
  end.

(** [s.startsWith(t)] *)
Fixpoint startsWith (s t : string) {struct t} : bool :=
  match t, s with
  | EmptyString, _ => true
  | String b t', String a s' => Ascii.eqb a b && startsWith s' t'
  | String _ _, EmptyString => false
  end.

(** [s.includes(t)] *)
Fixpoint includes (s t : string) : bool :=
  startsWith s t ||
  match s with
  | EmptyString => false
  | String _ s' => includes s' t
  end.

(** Truthiness of a string, and of a [string | null]. *)
Definition truthy (s : string) : bool :=
  match s with EmptyString => false | String _ _ => true end.

Definition truthy_opt (o : option string) : bool :=
  match o with Some s => truthy s | None => false end.

(** [a || b] on strings. *)
Definition or_else (a b : string) : string := if truthy a then a else b.

(** [Number.prototype.toString] on a non-negative integer: the decimal
    numeral, as in [Date.now().toString()] and in a template literal. *)
Definition toString (n : N) : string := NilZero.string_of_uint (N.to_uint n).

(** [Array.prototype.map] with the index passed to the callback. *)
Fixpoint mapi_from {A B} (i : nat) (f : A -> nat -> B) (l : list A) : list B :=
  match l with
  | [] => []
  | x :: l' => f x i :: mapi_from (S i) f l'
  end.

Definition mapi {A B} (f : A -> nat -> B) (l : list A) : list B := mapi_from 0 f l.

(** The outcome of an awaited call: it resolves with a value or rejects. *)
Inductive settled (A : Type) : Type :=
  | Resolved (a : A)
  | Rejected.
Arguments Resolved {A} a.
Arguments Rejected {A}.

(** The completion of a block of statements: normal, with the state it
    leaves, or abrupt, by a [throw] that nothing has caught yet. *)
Inductive completion (S : Type) : Type :=
  | Normal (s : S)
  | Thrown (s : S).
Arguments Normal {S} s.
Arguments Thrown {S} s.

(** [try { body } catch { handler } finally { finalizer }], where the
    handler and the finalizer themselves complete normally. *)
Definition try_catch_finally {S} (body : completion S)
    (handler finalizer : S -> S) : completion S :=
  match body with
  | Normal s => Normal (finalizer s)
  | Thrown s => Normal (finalizer (handler s))
  end.

End JS.

Import JS.

(** ** Data model ([types/chat.d.ts]) *)

(** A [timestamp]: declared [Date], a [Date] object when made by
    [new Date()], the ISO text of the same instant once it has been through
    [JSON.stringify] and [JSON.parse]. *)
Inductive jsdate : Type :=
  | DateObj (ms : N)
  | DateIso (ms : N).

(** [new Date(t).getTime()] *)
Definition getTime (t : jsdate) : N :=
  match t with DateObj ms => ms | DateIso ms => ms end.

Inductive Role : Type := user | assistant.

Definition Role_eqb (a b : Role) : bool :=
  match a, b with
  | user, user | assistant, assistant => true
  | _, _ => false
  end.

Record Message : Type := mkMessage {
  id : string;
  question : string;
  answer : string;
  imageUrls : string;
  timestamp : jsdate;
  role : Role;
  match_score : string;
  confidence : string;
  likes : option Z;
  dislikes : option Z;
  liked : option bool;
  disliked : option bool
}.

Record SavedConversation : Type := mkConversation {
  lastSaved : jsdate;
  conv_id : string;
  title : string;
  messages : list Message;
  conv_timestamp : jsdate;
  isCurrent : option bool
}.

(** [{ ...convo, isCurrent: b }] *)
Definition with_isCurrent (b : bool) (c : SavedConversation) : SavedConversation :=
  mkConversation (lastSaved c) (conv_id c) (title c) (messages c)
                 (conv_timestamp c) (Some b).

(** ** JSON texts ([JSON.stringify] and [JSON.parse]) *)

(** The text [JSON.stringify] writes is identified with the JSON value
    it denotes, which is what [JSON.parse] reads back from it.  [JDate ms]
    is the JSON string holding the ISO text of the instant [ms]: what a
    [Date] object, and the ISO text itself, are written as. *)
#[local] Unset Elimination Schemes.
Inductive json : Type :=
  | JNull
  | JBool (b : bool)
  | JNum (z : Z)
  | JStr (s : string)
  | JDate (ms : N)
  | JArr (elements : list json)
  | JObj (fields : list (string * json)).
#[local] Set Elimination Schemes.

Definition roleText (r : Role) : string :=
  match r with user => "user" | assistant => "assistant" end.

(** A property whose value is [undefined] is not written. *)
Definition optionalField {A} (key : string) (enc : A -> json) (o : option A)
    : list (string * json) :=
  match o with Some v => [(key, enc v)] | None => [] end.

Definition json_of_message (m : Message) : json :=
  JObj ([("question", JStr (question m));
         ("answer", JStr (answer m));
         ("imageUrls", JStr (imageUrls m));
         ("timestamp", JDate (getTime (timestamp m)));
         ("id", JStr (id m));
         ("role", JStr (roleText (role m)));
         ("match_score", JStr (match_score m));
         ("confidence", JStr (confidence m))]
        ++ optionalField "likes" JNum (likes m)
        ++ optionalField "dislikes" JNum (dislikes m)
        ++ optionalField "liked" JBool (liked m)
        ++ optionalField "disliked" JBool (disliked m)).

Fixpoint property (key : string) (fields : list (string * json)) : option json :=
  match fields with
  | [] => None
  | (k, v) :: rest => if String.eqb k key then Some v else property key rest
  end.

(** Reading a property of a parsed object at the type the interface
    declares.  A property that is absent, or of another type than the
    declared one, reads as the empty or undefined value; the app writes
    no such object. *)
Definition readString (o : option json) : string :=
  match o with Some (JStr s) => s | _ => "" end.

Definition readDate (o : option json) : jsdate :=
  match o with Some (JDate ms) => DateIso ms | _ => DateIso 0 end.

Definition readRole (o : option json) : Role :=
  match o with
  | Some (JStr s) => if String.eqb s "assistant" then assistant else user
  | _ => user
  end.

Definition readNumber (o : option json) : option Z :=
  match o with Some (JNum z) => Some z | _ => None end.

Definition readBoolean (o : option json) : option bool :=
  match o with Some (JBool b) => Some b | _ => None end.

Definition message_of_json (j : json) : Message :=
  let fields := match j with JObj fields => fields | _ => [] end in
  mkMessage (readString (property "id" fields))
            (readString (property "question" fields))
            (readString (property "answer" fields))
            (readString (property "imageUrls" fields))
            (readDate (property "timestamp" fields))
            (readRole (property "role" fields))
            (readString (property "match_score" fields))
            (readString (property "confidence" fields))
            (readNumber (property "likes" fields))
            (readNumber (property "dislikes" fields))
            (readBoolean (property "liked" fields))
            (readBoolean (property "disliked" fields)).

(** [JSON.stringify(chatHistory)] and [JSON.parse(savedHistory)].  Only
    the texts the application writes, which are arrays, are read as the code
    reads them: for any other text the application would keep the parsed
    value and fail at the next render, where this gives the empty list. *)
Definition stringifyMessages (l : list Message) : json :=
  JArr (map json_of_message l).

Definition parseMessages (text : json) : list Message :=
  match text with JArr elements => map message_of_json elements | _ => [] end.

Definition json_of_conversation (c : SavedConversation) : json :=
  JObj ([("id", JStr (conv_id c));
         ("title", JStr (title c));
         ("messages", stringifyMessages (messages c));
         ("timestamp", JDate (getTime (conv_timestamp c)));
         ("lastSaved", JDate (getTime (lastSaved c)))]
        ++ optionalField "isCurrent" JBool (isCurrent c)).

Definition conversation_of_json (j : json) : SavedConversation :=
  let fields := match j with JObj fields => fields | _ => [] end in
  mkConversation (readDate (property "lastSaved" fields))
                 (readString (property "id" fields))
                 (readString (property "title" fields))
                 (match property "messages" fields with
                  | Some text => parseMessages text
                  | None => []
                  end)
                 (readDate (property "timestamp" fields))
                 (readBoolean (property "isCurrent" fields)).

(** [JSON.parse(JSON.stringify(saved))] on a list of conversations: what
    [useLocalStorage] hands back for the list written under
    [aperolConversations], at once and on every later mount. *)
Definition reloadedStore (saved : list SavedConversation) : list SavedConversation :=
  map (fun c => conversation_of_json (json_of_conversation c)) saved.

(** ** The state of the [App] component *)

Record AppState : Type := mkApp {
  questionInput : string;
  chatHistory : list Message;
  isLoading : bool;
  snackbarOpen : bool;
  snackbarMessage : string;
  showSidebar : bool;
  currentTitle : string;
  searchText : string;
  currentConversationId : option string;
  aperolConversations : list SavedConversation;
  initializedRef : bool
}.

(** The state [useLocalStorage] returns under the key [aperolConversations]
    is never the list that was handed to its setter: the setter writes the
    JSON text of the list to [localStorage], and the state is that text
    parsed.  [aperolConversations] is the list whose text the storage holds,
    [savedConversations] what the component reads. *)
Definition savedConversations (s : AppState) : list SavedConversation :=
  reloadedStore (aperolConversations s).

Definition setQuestion (v : string) (s : AppState) : AppState :=
  mkApp v (chatHistory s) (isLoading s) (snackbarOpen s) (snackbarMessage s)
        (showSidebar s) (currentTitle s) (searchText s)
        (currentConversationId s) (aperolConversations s) (initializedRef s).

Definition setChatHistory (f : list Message -> list Message) (s : AppState) : AppState :=
  mkApp (questionInput s) (f (chatHistory s)) (isLoading s) (snackbarOpen s)
        (snackbarMessage s) (showSidebar s) (currentTitle s) (searchText s)
        (currentConversationId s) (aperolConversations s) (initializedRef s).

Definition setIsLoading (v : bool) (s : AppState) : AppState :=
  mkApp (questionInput s) (chatHistory s) v (snackbarOpen s) (snackbarMessage s)
        (showSidebar s) (currentTitle s) (searchText s)
        (currentConversationId s) (aperolConversations s) (initializedRef s).

Definition setSnackbarOpen (v : bool) (s : AppState) : AppState :=
  mkApp (questionInput s) (chatHistory s) (isLoading s) v (snackbarMessage s)
        (showSidebar s) (currentTitle s) (searchText s)
        (currentConversationId s) (aperolConversations s) (initializedRef s).

Definition setSnackbarMessage (v : string) (s : AppState) : AppState :=
  mkApp (questionInput s) (chatHistory s) (isLoading s) (snackbarOpen s) v
        (showSidebar s) (currentTitle s) (searchText s)
        (currentConversationId s) (aperolConversations s) (initializedRef s).

Definition setShowSidebar (v : bool) (s : AppState) : AppState :=
  mkApp (questionInput s) (chatHistory s) (isLoading s) (snackbarOpen s)
        (snackbarMessage s) v (currentTitle s) (searchText s)
        (currentConversationId s) (aperolConversations s) (initializedRef s).

Definition setCurrentTitle (v : string) (s : AppState) : AppState :=
  mkApp (questionInput s) (chatHistory s) (isLoading s) (snackbarOpen s)
        (snackbarMessage s) (showSidebar s) v (searchText s)
        (currentConversationId s) (aperolConversations s) (initializedRef s).

Definition setSearchText (v : string) (s : AppState) : AppState :=
  mkApp (questionInput s) (chatHistory s) (isLoading s) (snackbarOpen s)
        (snackbarMessage s) (showSidebar s) (currentTitle s) v
        (currentConversationId s) (aperolConversations s) (initializedRef s).

Definition setCurrentConversationId (v : option string) (s : AppState) : AppState :=
  mkApp (questionInput s) (chatHistory s) (isLoading s) (snackbarOpen s)
        (snackbarMessage s) (showSidebar s) (currentTitle s) (searchText s)
        v (aperolConversations s) (initializedRef s).

(** The setter of [useLocalStorage]: an updater gets the list read from
    the storage, and its result is written there. *)
Definition setSavedConversations
    (f : list SavedConversation -> list SavedConversation) (s : AppState) : AppState :=
  mkApp (questionInput s) (chatHistory s) (isLoading s) (snackbarOpen s)
        (snackbarMessage s) (showSidebar s) (currentTitle s) (searchText s)
        (currentConversationId s) (f (savedConversations s)) (initializedRef s).

Definition setInitializedRef (v : bool) (s : AppState) : AppState :=
  mkApp (questionInput s) (chatHistory s) (isLoading s) (snackbarOpen s)
        (snackbarMessage s) (showSidebar s) (currentTitle s) (searchText s)
        (currentConversationId s) (aperolConversations s) v.

(** The state of a fresh mount, for the list whose text the storage holds
    under [aperolConversations] and the search text [useLocalStorage] found. *)
Definition initialState (store : list SavedConversation) (search : string) : AppState :=
  mkApp "" [] false false "" false "Untitled Chat" search None store false.

(** What a handler reads from the browser when it runs: [Date.now()]
    (also the instant of the [new Date()] made in the same statement),
    the global [length] (that is [window.length], the number of frames of
    the window), [window.innerWidth], and the locale's
    [Date.prototype.toLocaleTimeString]. *)
Record Env : Type := mkEnv {
  now : N;
  window_length : nat;
  innerWidth : nat;
  toLocaleTimeString : N -> string
}.

(** ** Search ([App.tsx], the effect on [searchText] and [savedConversations]) *)

Definition titleMatches (searchText : string) (conversation : SavedConversation) : bool :=
  includes (toLowerCase (title conversation)) (toLowerCase searchText).

Definition filterConversations (searchText : string)
    (saved : list SavedConversation) : list SavedConversation :=
  if String.eqb (trim searchText) "" then saved
  else filter (titleMatches searchText) saved.

(** ** Title generation ([generateAutoTitle] and the effect on [chatHistory]) *)

(** What [getTitle] resolves with: an object read through [.title]. *)
Record TitleResponse : Type := mkTitleResponse { resp_title : string }.

Definition defaultTitle (env : Env) (timestamp : N) : string :=
  "Chat on " ++ toLocaleTimeString env timestamp.

(** [remote] is the outcome of [getTitle(firstMessage.question)]; it is
    consulted only on the path that makes the call. *)
Definition generateAutoTitle (env : Env) (msgs : list Message) (timestamp : N)
    (remote : settled TitleResponse) : string :=
  match msgs with
  | [] => "Untitled Chat"
  | firstMessage :: _ =>
      if truthy (question firstMessage) then
        match remote with
        | Resolved response => resp_title response
        | Rejected => defaultTitle env timestamp
        end
      else defaultTitle env timestamp
  end.

(** What the closure of [generateTitle] holds while the request is out:
    the message list and the date.  There is no other field. *)
Record TitleRequest : Type := mkTitleRequest {
  req_messages : list Message;
  req_timestamp : N
}.

Definition issueTitleRequest (env : Env) (st : AppState) : TitleRequest :=
  mkTitleRequest (chatHistory st) (now env).

(** The continuation after [await generateAutoTitle(...)]:
    [setCurrentTitle(title)]. *)
Definition resolveTitleRequest (env : Env) (req : TitleRequest)
    (remote : settled TitleResponse) (s : AppState) : AppState :=
  setCurrentTitle (generateAutoTitle env (req_messages req) (req_timestamp req) remote) s.

(** ** Sending a message ([handleSendMessage]) *)

(** One element of the array [sendQuestion] resolves with.  The score
    and the confidence are handed on as they come, texts or numbers; they
    are texts here. *)
Record AnswerItem : Type := mkItem {
  text_content : option string;
  image_sas_url : option string;
  item_match_score : string;
  item_confidence : string
}.

Inductive AnswerResponse : Type :=
  | RespArray (items : list AnswerItem)
  | RespOther.

(** [x || ''] on a possibly undefined string. *)
Definition or_empty (o : option string) : string :=
  match o with Some s => s | None => "" end.

Definition newUserMessage (newQuestion : string) (t : N) : Message :=
  mkMessage (toString t) newQuestion "" "" (DateObj t) user "" ""
            None None None None.

(** [{ ...userMessage, id: `${userMessage.id}-ai-${index}`, ... }] *)
Definition aiMessageOfItem (userMessage : Message) (t : N)
    (item : AnswerItem) (index : nat) : Message :=
  mkMessage (id userMessage ++ "-ai-" ++ toString (N.of_nat index))
            ""
            (or_empty (text_content item))
            (or_empty (image_sas_url item))
            (DateObj t) assistant
            (item_match_score item) (item_confidence item)
            (likes userMessage) (dislikes userMessage)
            (liked userMessage) (disliked userMessage).

Definition apologyText : string := "I'm sorry, I don't have an answer for that.".

Definition fallbackMessage (userMessage : Message) (t : N) : Message :=
  mkMessage (id userMessage ++ "-ai") "" apologyText "" (DateObj t) assistant
            "" "" (likes userMessage) (dislikes userMessage)
            (liked userMessage) (disliked userMessage).

Definition aiMessagesOf (env : Env) (userMessage : Message)
    (response : AnswerResponse) : list Message :=
  match response with
  | RespArray items => mapi (aiMessageOfItem userMessage (now env)) items
  | RespOther => [fallbackMessage userMessage (now env)]
  end.

(** The part before [await sendQuestion(newQuestion)].  The second
    component is the [userMessage] the continuation keeps, [None] when the
    guard returned at once. *)
Definition handleSendMessage_begin (env : Env) (st : AppState)
    : AppState * option Message :=
  if negb (truthy (trim (questionInput st))) || isLoading st then (st, None)
  else
    let newQuestion := trim (questionInput st) in
    let userMessage := newUserMessage newQuestion (now env) in
    (setQuestion ""
       (setChatHistory (fun prev => prev ++ [userMessage])
          (setIsLoading true st)),
     Some userMessage).

Definition send_try (env : Env) (userMessage : Message)
    (outcome : settled AnswerResponse) (s : AppState) : completion AppState :=
  match outcome with
  | Rejected => Thrown s
  | Resolved response =>
      Normal (setChatHistory
                (fun prev => prev ++ aiMessagesOf env userMessage response) s)
  end.

Definition failedToSend : string := "Failed to send message. Please try again.".

Definition send_catch (s : AppState) : AppState :=
  setSnackbarOpen true (setSnackbarMessage failedToSend s).

Definition send_finally (s : AppState) : AppState := setIsLoading false s.

(** The continuation: the [try], its [catch] and its [finally]. *)
Definition handleSendMessage_resume (env : Env) (userMessage : Message)
    (outcome : settled AnswerResponse) (s : AppState) : completion AppState :=
  try_catch_finally (send_try env userMessage outcome s) send_catch send_finally.

(** A send with nothing else happening while the call is out. *)
Definition handleSendMessage (env env' : Env)
    (outcome : settled AnswerResponse) (st : AppState) : completion AppState :=
  match handleSendMessage_begin env st with
  | (s, Some userMessage) => handleSendMessage_resume env' userMessage outcome s
  | (s, None) => Normal s
  end.

Definition handleCloseSnackbar (st : AppState) : AppState :=
  setSnackbarOpen false st.

(** ** The Record Store operations of [App.tsx] *)

Definition option_string_eqb (a b : option string) : bool :=
  match a, b with
  | Some x, Some y => String.eqb x y
  | None, None => true
  | _, _ => false
  end.

(** [savedConversations.find(c => c.id === currentConversationId)] *)
Definition find_conversation (cid : option string)
    (saved : list SavedConversation) : option SavedConversation :=
  match cid with
  | Some i => find (fun c => String.eqb (conv_id c) i) saved
  | None => None
  end.

(** [prev.map(convo => ({ ...convo, isCurrent: convo.id === target }))] *)
Definition markCurrent (target : string)
    (saved : list SavedConversation) : list SavedConversation :=
  map (fun convo => with_isCurrent (String.eqb (conv_id convo) target) convo) saved.

(** [prev.map(convo => ({ ...convo, isCurrent: false }))] *)
Definition clearCurrent (saved : list SavedConversation) : list SavedConversation :=
  map (with_isCurrent false) saved.

(** The effect "restore the last conversation at startup", run after a
    render in which [currentConversationId] or [savedConversations] changed. *)
Definition restoreLastEffect (st : AppState) : AppState :=
  if initializedRef st then st
  else if truthy_opt (currentConversationId st)
          && (0 <? length (savedConversations st))%nat
  then
    match find_conversation (currentConversationId st) (savedConversations st) with
    | Some conversation =>
        setInitializedRef true
          (setSavedConversations (markCurrent (conv_id conversation))
             (setChatHistory (fun _ => messages conversation) st))
    | None => st
    end
  else st.

(** The constant [title] of the render. *)
Definition storedTitle (st : AppState) : string :=
  if truthy_opt (currentConversationId st) then
    match find_conversation (currentConversationId st) (savedConversations st) with
    | Some convo => or_else (title convo) "Untitled"
    | None => "Untitled"
    end
  else "Untitled".

(** [currentConversationId || Date.now().toString()] *)
Definition commitId (env : Env) (cid : option string) : string :=
  match cid with
  | Some i => or_else i (toString (now env))
  | None => toString (now env)
  end.

(** The callback of [useSaveConversation].  [cl] is the render it closes
    over, [theTitle] its [currentTitle] prop, [s] the running state. *)
Definition useSaveConversation (env : Env) (cl : AppState) (theTitle : string)
    (s : AppState) : AppState :=
  if (length (chatHistory cl) =? 0)%nat then s
  else
    let newOrUpdatedConversation :=
      mkConversation (DateObj (now env))
                     (commitId env (currentConversationId cl))
                     theTitle (chatHistory cl) (DateObj (now env)) None in
    let s1 :=
      if negb (truthy_opt (currentConversationId cl)) then
        setSavedConversations
          (fun _ => newOrUpdatedConversation :: savedConversations cl) s
      else
        setSavedConversations
          (fun _ => map (fun convo =>
                           if String.eqb (conv_id convo)
                                         (conv_id newOrUpdatedConversation)
                           then newOrUpdatedConversation else convo)
                        (savedConversations cl)) s in
    setCurrentConversationId (Some (conv_id newOrUpdatedConversation)) s1.

Definition saveCurrentConversation (env : Env) (cl s : AppState) : AppState :=
  useSaveConversation env cl (storedTitle cl) s.

Definition saveNewCurrentConversation (env : Env) (cl s : AppState) : AppState :=
  useSaveConversation env cl (currentTitle cl) s.

Definition handleLoadConversation (env : Env) (cl : AppState)
    (conversation : SavedConversation) (s : AppState) : AppState :=
  let s1 := setCurrentConversationId (Some (conv_id conversation)) s in
  if negb (option_string_eqb (Some (conv_id conversation)) (currentConversationId cl))
  then
    let s2 := setChatHistory (fun _ => messages conversation) s1 in
    let s3 := setCurrentConversationId (Some (conv_id conversation)) s2 in
    let s4 := setSavedConversations (markCurrent (conv_id conversation)) s3 in
    if (innerWidth env <? 900)%nat then setShowSidebar false s4 else s4
  else s1.

(** The message count on record for the active id:
    [savedConversations.find(...)?.messages.length || 0]. *)
Definition currentLen (st : AppState) : nat :=
  match find_conversation (currentConversationId st) (savedConversations st) with
  | Some convo => length (messages convo)
  | None => 0
  end.

(** The test that decides whether [handleClickConversation] saves. *)
Definition savesBeforeSwitch (env : Env) (st : AppState)
    (conversation : SavedConversation) : bool :=
  (0 <? length (chatHistory st))%nat
  && (window_length env <? length (chatHistory st))%nat
  && negb (option_string_eqb (currentConversationId st) (Some (conv_id conversation)))
  && (currentLen st <? length (chatHistory st))%nat.

Definition handleClickConversation (env : Env) (st : AppState)
    (conversation : SavedConversation) : AppState :=
  let s1 :=
    if (0 <? length (chatHistory st))%nat
       && (window_length env <? length (chatHistory st))%nat
       && negb (option_string_eqb (currentConversationId st)
                                  (Some (conv_id conversation)))
    then
      if (currentLen st <? length (chatHistory st))%nat then
        match currentConversationId st with
        | Some _ => saveCurrentConversation env st st
        | None => saveNewCurrentConversation env st st
        end
      else st
    else st in
  let s2 := setInitializedRef false s1 in
  handleLoadConversation env st conversation s2.

Definition handleDeleteConversation (i : string) (st : AppState) : AppState :=
  let s1 :=
    setSavedConversations
      (filter (fun convo => negb (String.eqb (conv_id convo) i))) st in
  if option_string_eqb (Some i) (currentConversationId st)
  then setCurrentConversationId None (setChatHistory (fun _ => []) s1)
  else s1.

(** [prev.sort((a, b) => new Date(b.timestamp).getTime() -
    new Date(a.timestamp).getTime())]: newest first; [Array.prototype.sort]
    is stable, so it is the stable insertion sort for that order. *)
Fixpoint insertByTimestamp (c : SavedConversation)
    (l : list SavedConversation) : list SavedConversation :=
  match l with
  | [] => [c]
  | d :: l' =>
      if (getTime (conv_timestamp c) <? getTime (conv_timestamp d))%N
      then d :: insertByTimestamp c l'
      else c :: d :: l'
  end.

Fixpoint sortConversationsByTimestamp
    (l : list SavedConversation) : list SavedConversation :=
  match l with
  | [] => []
  | c :: l' => insertByTimestamp c (sortConversationsByTimestamp l')
  end.

(** What [handleNewChat] keeps across [await generateAutoTitle(...)]. *)
Record NewChatPending : Type := mkPending {
  pending_messages : list Message;
  pending_newId : string;
  pending_now : N
}.

(** The last statements of [handleNewChat]. *)
Definition clearSession (s : AppState) : AppState :=
  setCurrentConversationId None (setChatHistory (fun _ => []) s).

(** [handleNewChat] up to its [await], or to its end on the paths that
    have none. *)
Definition handleNewChat_begin (env : Env) (st : AppState)
    : AppState * option NewChatPending :=
  let s1 := setSavedConversations clearCurrent (setCurrentConversationId None st) in
  if (0 <? length (chatHistory st))%nat then
    match currentConversationId st with
    | Some cid =>
        if truthy cid then
          let s2 :=
            setSavedConversations
              (map (fun convo =>
                      if String.eqb (conv_id convo) cid
                      then mkConversation (DateObj (now env)) (conv_id convo)
                             (title convo) (chatHistory st)
                             (DateObj (now env)) (isCurrent convo)
                      else convo)) s1 in
          (clearSession s2, None)
        else (s1, Some (mkPending (chatHistory st) (toString (now env)) (now env)))
    | None => (s1, Some (mkPending (chatHistory st) (toString (now env)) (now env)))
    end
  else (clearSession (setSavedConversations clearCurrent s1), None).

(** The continuation of [handleNewChat] once the title is there. *)
Definition handleNewChat_resume (env : Env) (p : NewChatPending)
    (remote : settled TitleResponse) (s : AppState) : AppState :=
  let theTitle := generateAutoTitle env (pending_messages p) (pending_now p) remote in
  let created :=
    mkConversation (DateObj (pending_now p)) (pending_newId p) theTitle
                   (pending_messages p) (DateObj (pending_now p)) (Some false) in
  let s1 :=
    setSavedConversations
      (fun prev =>
         created :: filter (fun convo => negb (String.eqb (conv_id convo)
                                                          (pending_newId p))) prev) s in
  let s2 := setSavedConversations sortConversationsByTimestamp s1 in
  clearSession s2.

(** A new chat with nothing else happening while the title is out. *)
Definition handleNewChat (env : Env) (remote : settled TitleResponse)
    (st : AppState) : AppState :=
  match handleNewChat_begin env st with
  | (s, Some p) => handleNewChat_resume env p remote s
  | (s, None) => s
  end.

(** ** Like and dislike ([components/AiMessage]) *)

(** A possibly undefined flag read as a condition, and [n || 0]. *)
Definition flag (o : option bool) : bool :=
  match o with Some b => b | None => false end.

Definition counter (o : option Z) : Z :=
  match o with Some z => z | None => 0%Z end.

Definition set_likes (v : option Z) (m : Message) : Message :=
  mkMessage (id m) (question m) (answer m) (imageUrls m) (timestamp m) (role m)
            (match_score m) (confidence m) v (dislikes m) (liked m) (disliked m).

Definition set_dislikes (v : option Z) (m : Message) : Message :=
  mkMessage (id m) (question m) (answer m) (imageUrls m) (timestamp m) (role m)
            (match_score m) (confidence m) (likes m) v (liked m) (disliked m).

Definition set_liked (v : option bool) (m : Message) : Message :=
  mkMessage (id m) (question m) (answer m) (imageUrls m) (timestamp m) (role m)
            (match_score m) (confidence m) (likes m) (dislikes m) v (disliked m).

Definition set_disliked (v : option bool) (m : Message) : Message :=
  mkMessage (id m) (question m) (answer m) (imageUrls m) (timestamp m) (role m)
            (match_score m) (confidence m) (likes m) (dislikes m) (liked m) v.

(** The assignments [handleLike] makes to [targetMsg]. *)
Definition likeMessage (targetMsg : Message) : Message :=
  let m1 :=
    if flag (liked targetMsg) then
      set_likes (Some (counter (likes targetMsg) - 1)%Z) targetMsg
    else
      let m0 := set_likes (Some (counter (likes targetMsg) + 1)%Z) targetMsg in
      if flag (disliked m0) then
        set_disliked (Some false)
          (set_dislikes (Some (counter (dislikes m0) - 1)%Z) m0)
      else m0 in
  set_liked (Some (negb (flag (liked m1)))) m1.

(** The assignments [handleDislike] makes to [targetMsg]. *)
Definition dislikeMessage (targetMsg : Message) : Message :=
  let m1 :=
    if flag (disliked targetMsg) then
      set_dislikes (Some (counter (dislikes targetMsg) - 1)%Z) targetMsg
    else
      let m0 := set_dislikes (Some (counter (dislikes targetMsg) + 1)%Z) targetMsg in
      if flag (liked m0) then
        set_liked (Some false)
          (set_likes (Some (counter (likes m0) - 1)%Z) m0)
      else m0 in
  set_disliked (Some (negb (flag (disliked m1)))) m1.

(** The copy [[...messages]] once the object at [index] has the value [v]. *)
Fixpoint replaceAt {A} (index : nat) (v : A) (l : list A) : list A :=
  match l, index with
  | [], _ => []
  | _ :: l', O => v :: l'
  | x :: l', S i => x :: replaceAt i v l'
  end.

(** [handleLike(index)] and [handleDislike(index)] on the replies of one
    group: the list handed to [onUpdateMessages], or [None] when
    [updatedMessages[index]] is undefined and reading its flag throws. *)
Definition handleLike (msgs : list Message) (index : nat) : option (list Message) :=
  match nth_error msgs index with
  | Some targetMsg => Some (replaceAt index (likeMessage targetMsg) msgs)
  | None => None
  end.

Definition handleDislike (msgs : list Message) (index : nat) : option (list Message) :=
  match nth_error msgs index with
  | Some targetMsg => Some (replaceAt index (dislikeMessage targetMsg) msgs)
  | None => None
  end.

(** [handleUpdateMessages] of [MessageList], then [setChatHistory]. *)
Definition handleUpdateMessages (updatedAiMessages : list Message)
    (st : AppState) : AppState :=
  setChatHistory
    (fun _ =>
       map (fun oldMsg =>
              match find (fun msg => String.eqb (id msg) (id oldMsg)) updatedAiMessages with
              | Some updatedMsg => updatedMsg
              | None => oldMsg
              end) (chatHistory st)) st.

(** ** Grouping of replies under their user message ([components/MessageList]) *)

Record Group : Type := mkGroup {
  userMsg : Message;
  aiReplies : list Message
}.

(** The variables of the [forEach] loop: [messageGroups],
    [currentUserMsg] and [aiReplies]. *)
Definition groupState : Type := (list Group * option Message * list Message)%type.

Definition groupStep (acc : groupState) (msg : Message) : groupState :=
  let '(groups, currentUserMsg, replies) := acc in
  match role msg with
  | user =>
      (match currentUserMsg with
       | Some u => groups ++ [mkGroup u replies]
       | None => groups
       end, Some msg, [])
  | assistant =>
      match currentUserMsg with
      | Some _ => (groups, currentUserMsg, replies ++ [msg])
      | None => acc
      end
  end.

Definition closeGroups (acc : groupState) : list Group :=
  let '(groups, currentUserMsg, replies) := acc in
  match currentUserMsg with
  | Some u => groups ++ [mkGroup u replies]
  | None => groups
  end.

Definition messageGroups (history : list Message) : list Group :=
  closeGroups (fold_left groupStep history ([], None, [])).

(** The replies of a user message found through ids alone: the assistant
    messages whose id starts with the user message's id and [-ai]. *)
Definition repliesById (u : Message) (history : list Message) : list Message :=
  filter (fun m => Role_eqb (role m) assistant
                   && startsWith (id m) (id u ++ "-ai")%string) history.

(** ** Durable storage ([saveStateBeforeUnload], the restore effect,
       and the store kept by [useLocalStorage]) *)

(** The two keys of the snapshot; [None] is what [getItem] returns for a
    key never written. *)
Record LocalStorage : Type := mkStorage {
  item_currentChatHistory : option json;
  item_currentConversationId : option string
}.

(** The two [setItem] calls of [saveStateBeforeUnload]. *)
Definition writeSnapshot (st : AppState) : LocalStorage :=
  mkStorage (Some (stringifyMessages (chatHistory st)))
            (Some (match currentConversationId st with
                   | Some i => or_else i "null"
                   | None => "null"
                   end)).

(** [saveStateBeforeUnload]: the snapshot, then [handleNewChat()] for an
    unsaved chat, which runs up to its [await]. *)
Definition saveStateBeforeUnload (env : Env) (st : AppState)
    : LocalStorage * (AppState * option NewChatPending) :=
  (writeSnapshot st,
   if (0 <? length (chatHistory st))%nat && negb (truthy_opt (currentConversationId st))
   then handleNewChat_begin env st
   else (st, None)).

(** The effect "restore history state on startup". *)
Definition restoreSnapshotEffect (ls : LocalStorage) (st : AppState) : AppState :=
  let s1 :=
    match item_currentChatHistory ls with
    | Some savedHistory => setChatHistory (fun _ => parseMessages savedHistory) st
    | None => st
    end in
  match item_currentConversationId ls with
  | Some savedConversationId =>
      if truthy savedConversationId && negb (String.eqb savedConversationId "null")
      then setCurrentConversationId (Some savedConversationId) s1
      else s1
  | None => s1
  end.

(** ** Runs of the application *)

(** The component state and the two keys of the snapshot. *)
Record World : Type := mkWorld {
  appState : AppState;
  storage : LocalStorage
}.

Definition initialWorld : World :=
  mkWorld (initialState [] "") (mkStorage None None).

(** What can happen: a user action (up to the first [await] of its
    handler), the settling of a call that is out, an effect, the page
    going away and coming back. *)
Inductive Event : Type :=
  | EvType (text : string)
  | EvSearch (text : string)
  | EvSend
  | EvAnswer (userMessage : Message) (outcome : settled AnswerResponse)
  | EvTitle (req : TitleRequest) (remote : settled TitleResponse)
  | EvClick (conversation : SavedConversation)
  | EvRestoreLast
  | EvDelete (i : string)
  | EvNewChat
  | EvNewChatTitle (p : NewChatPending) (remote : settled TitleResponse)
  | EvLike (replies : list Message) (index : nat)
  | EvDislike (replies : list Message) (index : nat)
  | EvCloseSnackbar
  | EvUnload
  | EvReload.

Definition completed {S} (c : completion S) : S :=
  match c with Normal s => s | Thrown s => s end.

Definition stepApp (env : Env) (ev : Event) (w : World) : AppState :=
  let st := appState w in
  match ev with
  | EvType text => setQuestion text st
  | EvSearch text => setSearchText text st
  | EvSend => fst (handleSendMessage_begin env st)
  | EvAnswer userMessage outcome =>
      completed (handleSendMessage_resume env userMessage outcome st)
  | EvTitle req remote => resolveTitleRequest env req remote st
  | EvClick conversation => handleClickConversation env st conversation
  | EvRestoreLast => restoreLastEffect st
  | EvDelete i => handleDeleteConversation i st
  | EvNewChat => fst (handleNewChat_begin env st)
  | EvNewChatTitle p remote => handleNewChat_resume env p remote st
  | EvLike replies index =>
      match handleLike replies index with
      | Some updated => handleUpdateMessages updated st
      | None => st
      end
  | EvDislike replies index =>
      match handleDislike replies index with
      | Some updated => handleUpdateMessages updated st
      | None => st
      end
  | EvCloseSnackbar => handleCloseSnackbar st
  | EvUnload => fst (snd (saveStateBeforeUnload env st))
  | EvReload =>
      restoreSnapshotEffect (storage w)
        (initialState (reloadedStore (savedConversations st)) (searchText st))
  end.

Definition step (env : Env) (ev : Event) (w : World) : World :=
  mkWorld (stepApp env ev w)
          (match ev with
           | EvUnload => fst (saveStateBeforeUnload env (appState w))
           | _ => storage w
           end).

(** The number of stored conversations flagged as current. *)
Definition currentCount (saved : list SavedConversation) : nat :=
  length (filter (fun c => flag (isCurrent c)) saved).

Definition ids (saved : list SavedConversation) : list string :=
  map conv_id saved.

(** ** Messages and histories the application can hold *)

(** A message as [handleSendMessage] makes it, after any number of likes
    and dislikes. *)
Inductive votable : Message -> Prop :=
  | votable_new m :
      likes m = None -> dislikes m = None -> liked m = None -> disliked m = None ->
      votable m
  | votable_like m : votable m -> votable (likeMessage m)
  | votable_dislike m : votable m -> votable (dislikeMessage m).

Definition isUser (m : Message) : bool := Role_eqb (role m) user.

(** A history made of whole turns: a user message whose id is a clock
    reading used by no other turn, then its replies, each an assistant
    message whose id starts with the user's id and [-ai].  [readings]
    lists the clock readings of the turns, latest first. *)
Inductive turnsHistory : list N -> list Message -> Prop :=
  | turns_nil : turnsHistory [] []
  | turns_snoc readings history t u replies :
      turnsHistory readings history ->
      ~ In t readings ->
      role u = user ->
      id u = toString t ->
      Forall (fun r => role r = assistant /\
                       startsWith (id r) (id u ++ "-ai")%string = true) replies ->
      turnsHistory (t :: readings) (history ++ u :: replies).

(** [s] contains [t]: [t] with something before and something after. *)
Definition substring (t s : string) : Prop :=
  exists before after : string, s = (before ++ t ++ after)%string.

(** Two conversations that differ at most in [isCurrent]. *)
Definition sameRecord (c d : SavedConversation) : Prop :=
  conv_id c = conv_id d /\ title c = title d /\ messages c = messages d /\
  conv_timestamp c = conv_timestamp d /\ lastSaved c = lastSaved d.

(** The flags and counters of a votable message agree: a counter is 1
    when its flag is set and 0 otherwise, and the flags are never both set. *)
Definition tallied (m : Message) : Prop :=
  counter (likes m) = (if flag (liked m) then 1 else 0)%Z /\
  counter (dislikes m) = (if flag (disliked m) then 1 else 0)%Z /\
  flag (liked m) && flag (disliked m) = false.

(** A message with every [Date] written as its ISO text. *)
Definition isoMessage (m : Message) : Message :=
  mkMessage (id m) (question m) (answer m) (imageUrls m)
            (DateIso (getTime (timestamp m))) (role m)
            (match_score m) (confidence m)
            (likes m) (dislikes m) (liked m) (disliked m).

(** ** Sample data for the worked examples *)

Definition sampleEnv (t : N) : Env := mkEnv t 0 1280 (fun _ => "10:00:00").

Definition sampleUser : Message := newUserMessage "What is an Aperol Spritz?" 1000.

Definition sampleItem : AnswerItem :=
  mkItem (Some "A wine-based cocktail.") None "" "0.9".

Definition sampleProduct : AnswerItem :=
  mkItem (Some "product_summary: display stand") (Some "https://img") "0.8" "".

Definition sampleReplies : list Message :=
  aiMessagesOf (sampleEnv 1200) sampleUser (RespArray [sampleItem; sampleProduct]).

(** Two conversations as the store holds them, their dates as ISO texts. *)
Definition conversationA : SavedConversation :=
  mkConversation (DateIso 1300) "1300" "Spritz" [isoMessage sampleUser]
                 (DateIso 1300) (Some true).

Definition conversationB : SavedConversation :=
  mkConversation (DateIso 900) "900" "Negroni"
                 [isoMessage (newUserMessage "What is a Negroni?" 800)]
                 (DateIso 900) (Some false).

(** Conversation A is on screen as it was loaded from the store: one
    message. *)
Definition viewingA : AppState :=
  mkApp "" (messages conversationA) false false "" false "Untitled Chat" ""
        (Some "1300") [conversationA; conversationB] true.

(** Conversation A is on screen and has grown to three messages. *)
Definition grownA : AppState :=
  setChatHistory (fun prev => prev ++ sampleReplies) viewingA.

(** An unsaved chat of one message, about to ask something. *)
Definition unsavedChat : AppState :=
  mkApp "And a Negroni?" [sampleUser] false false "" false "Untitled Chat" ""
        None [conversationB] false.

Definition sampleReply : Message := aiMessageOfItem sampleUser 1200 sampleItem 0.

(** A title request issued while conversation A is on screen, the state
    after the user has then switched to conversation B, and the title the
    request later resolves with. *)
Definition requestForA : TitleRequest := issueTitleRequest (sampleEnv 1400) viewingA.

Definition switchedToB : AppState :=
  handleClickConversation (sampleEnv 1500) viewingA conversationB.

Definition titleForA : settled TitleResponse :=
  Resolved (mkTitleResponse "Aperol Spritz basics").

(** An active id that the snapshot can tell from its sentinel: [null],
    or a text that is neither empty nor the word [null].  Every id the
    application makes is a decimal numeral. *)
Definition storableId (o : option string) : Prop :=
  match o with
  | Some i => i <> "" /\ i <> "null"
  | None => True
  end.

(** What the design asks of the store: no id twice, and at most one
    conversation flagged as current. *)
Definition goodStore (saved : list SavedConversation) : Prop :=
  NoDup (ids saved) /\ currentCount saved <= 1.

(** A click that puts a new entry in the store: the test of
    [handleClickConversation] holds and no conversation is active, so that
    [useSaveConversation] takes the id from the clock. *)
Definition insertsOnSwitch (env : Env) (st : AppState)
    (target : SavedConversation) : bool :=
  savesBeforeSwitch env st target && negb (truthy_opt (currentConversationId st)).

(** An event at which the clock causes no clash: when a click puts a new
    entry in the store, the clock reading it takes as id is the id of no
    stored entry. *)
Definition freshOnInsert (env : Env) (ev : Event) (w : World) : Prop :=
  match ev with
  | EvClick target =>
      insertsOnSwitch env (appState w) target = true ->
      ~ In (toString (now env)) (ids (savedConversations (appState w)))
  | _ => True
  end.

(** The states of the runs in which every event is such. *)
Inductive freshRun : World -> Prop :=
  | freshRun_init : freshRun initialWorld
  | freshRun_step w env ev :
      freshRun w -> freshOnInsert env ev w -> freshRun (step env ev w).

Definition runFrom (w : World) (events : list (Env * Event)) : World :=
  fold_left (fun w' e => step (fst e) (snd e) w') events w.

(** The first chat as the store holds it once it has been saved. *)
Definition spritzSaved : SavedConversation :=
  mkConversation (DateIso 1300) "1300" "Aperol Spritz"
                 (map isoMessage (sampleUser :: sampleReplies)) (DateIso 1300)
                 (Some false).

(** A question is typed and sent, the answer arrives, the user starts a
    new chat and the title arrives: the first chat is in the store. *)
Definition firstChatRun : list (Env * Event) :=
  [ (sampleEnv 1000, EvType "What is an Aperol Spritz?");
    (sampleEnv 1000, EvSend);
    (sampleEnv 1200,
     EvAnswer sampleUser (Resolved (RespArray [sampleItem; sampleProduct])));
    (sampleEnv 1300, EvNewChat);
    (sampleEnv 1350,
     EvNewChatTitle (mkPending (sampleUser :: sampleReplies) "1300" 1300)
                    (Resolved (mkTitleResponse "Aperol Spritz"))) ].

(** A second question is asked in the new chat and answered. *)
Definition secondChatRun : list (Env * Event) :=
  [ (sampleEnv 2000, EvType "And a Negroni?");
    (sampleEnv 2000, EvSend);
    (sampleEnv 2200,
     EvAnswer (newUserMessage "And a Negroni?" 2000)
              (Resolved (RespArray [sampleItem]))) ].

(** The system clock is set back while the second chat is open, and the
    user clicks the first chat at a moment the clock reads 1300 again. *)
Definition clockSetBackRun : list (Env * Event) :=
  firstChatRun ++ secondChatRun ++
  [ (sampleEnv 1300, EvClick spritzSaved);
    (sampleEnv 1300, EvRestoreLast) ].

Definition clockSetBack : World := runFrom initialWorld clockSetBackRun.

(** The same with a clock that goes on: the click comes at 2500. *)
Definition clockGoesOnRun : list (Env * Event) :=
  firstChatRun ++ secondChatRun ++
  [ (sampleEnv 2500, EvClick spritzSaved);
    (sampleEnv 2500, EvRestoreLast) ].

(** Every event of a run causes no clash when its turn comes. *)
Fixpoint runFresh (w : World) (events : list (Env * Event)) : Prop :=
  match events with
  | [] => True
  | e :: rest =>
      freshOnInsert (fst e) (snd e) w /\ runFresh (step (fst e) (snd e) w) rest
  end.

(** The second chat as the store holds it once it has been saved. *)
Definition negroniSaved : SavedConversation :=
  mkConversation (DateIso 2300) "2300" "Negroni"
                 (map isoMessage
                    (newUserMessage "And a Negroni?" 2000
                     :: aiMessagesOf (sampleEnv 2200) (newUserMessage "And a Negroni?" 2000)
                          (RespArray [sampleItem])))
                 (DateIso 2300) (Some false).

(** Both chats are saved; the first is opened and the page goes away, which
    writes the snapshot.  The page comes back, the first chat is deleted,
    and the page goes away again without the snapshot being written (the
    browser does not always run [beforeunload]).  On the next mount the
    snapshot brings back the deleted chat and its id; a question is added. *)
Definition orphanRun : list (Env * Event) :=
  firstChatRun ++ secondChatRun ++
  [ (sampleEnv 2300, EvNewChat);
    (sampleEnv 2350,
     EvNewChatTitle
       (mkPending (newUserMessage "And a Negroni?" 2000
                   :: aiMessagesOf (sampleEnv 2200) (newUserMessage "And a Negroni?" 2000)
                        (RespArray [sampleItem]))
                  "2300" 2300)
       (Resolved (mkTitleResponse "Negroni")));
    (sampleEnv 3000, EvClick spritzSaved);
    (sampleEnv 3000, EvRestoreLast);
    (sampleEnv 3100, EvUnload);
    (sampleEnv 3200, EvReload);
    (sampleEnv 3200, EvRestoreLast);
    (sampleEnv 3300, EvDelete "1300");
    (sampleEnv 3400, EvReload);
    (sampleEnv 3400, EvRestoreLast);
    (sampleEnv 4000, EvType "With soda?");
    (sampleEnv 4000, EvSend);
    (sampleEnv 4200,
     EvAnswer (newUserMessage "With soda?" 4000) (Resolved (RespArray [sampleItem]))) ].

Definition orphanedChat : AppState := appState (runFrom initialWorld orphanRun).

(** Decimal digits, and texts made of them. *)
Definition isDigit (c : ascii) : bool :=
  let n := N_of_ascii c in ((48 <=? n) && (n <=? 57))%N.

Fixpoint allDigits (s : string) : bool :=
  match s with
  | EmptyString => true
  | String c s' => isDigit c && allDigits s'
  end.

(** What every message of a history of whole turns looks like. *)
Definition ofATurn (readings : list N) (m : Message) : Prop :=
  exists t, In t readings /\
    ((role m = user /\ id m = toString t) \/
     (role m = assistant /\ startsWith (id m) (toString t ++ "-ai")%string = true)).

(** A new chat about another subject, whose own title has arrived. *)
Definition negroniChat : AppState :=
  mkApp "" [newUserMessage "What is a Negroni?" 3000] false false "" false
        "Negroni questions" "" None [conversationB] false.

(** The page comes back after conversation A, grown to three messages,
    was on screen when it went away. *)
Definition remountedA : AppState :=
  restoreSnapshotEffect (writeSnapshot grownA)
    (initialState (reloadedStore (savedConversations grownA)) "").

(** The question of the unsaved chat is sent, the user switches to
    conversation B while the call is out, and the answer arrives. *)
Definition answerAfterSwitch : AppState :=
  completed
    (handleSendMessage_resume (sampleEnv 2300)
       (newUserMessage "And a Negroni?" 2000)
       (Resolved (RespArray [sampleItem]))
       (handleClickConversation (sampleEnv 2100)
          (fst (handleSendMessage_begin (sampleEnv 2000) unsavedChat))
          conversationB)).

(** Two questions are sent and answered in one chat; the system clock
    is set back in between, and both sends read 1000. *)
Definition sameReadingChat : AppState :=
  completed
    (handleSendMessage (sampleEnv 1000) (sampleEnv 1400)
       (Resolved (RespArray [sampleProduct]))
       (setQuestion "And a Negroni?"
          (completed
             (handleSendMessage (sampleEnv 1000) (sampleEnv 1200)
                (Resolved (RespArray [sampleItem]))
                (setQuestion "What is an Aperol Spritz?" (initialState [] "")))))).

(** ** Proof steps used more than once *)

(** All cases of the two flags of a message. *)
Ltac flag_cases m :=
  let lk := fresh "lk" in
  let dl := fresh "dl" in
  destruct m as [? ? ? ? ? ? ? ? ? ? lk dl];
  destruct lk as [[|]|], dl as [[|]|].

(** Lemmas on what keeps [goodStore]. *)
Create HintDb store discriminated.

(** ** Further parts of the application *)

(** *** Views on a text *)

Fixpoint allWhiteSpace (s : string) : bool :=
  match s with
  | EmptyString => true
  | String c s' => isWhiteSpace c && allWhiteSpace s'
  end.

Definition firstChar (s : string) : option ascii :=
  match s with
  | EmptyString => None
  | String c _ => Some c
  end.

Fixpoint lastChar (s : string) : option ascii :=
  match s with
  | EmptyString => None
  | String c EmptyString => Some c
  | String _ s' => lastChar s'
  end.

(** *** The input area ([components/InputArea]) and the Enter key *)

(** [disabled={isLoading || !question.trim()}] of the send button. *)
Definition sendDisabled (questionText : string) (loading : bool) : bool :=
  loading || negb (truthy (trim questionText)).

(** [question.trim().length > 0 && !isLoading]: whether the clear button
    is shown. *)
Definition clearVisible (questionText : string) (loading : bool) : bool :=
  (0 <? String.length (trim questionText))%nat && negb loading.

(** [clearInput] *)
Definition clearInput (st : AppState) : AppState := setQuestion "" st.

Record KeyEvent : Type := mkKey {
  key : string;
  shiftKey : bool
}.

(** [handleKeyDown] of [App.tsx], up to the [await] of the send it starts. *)
Definition handleKeyDown (env : Env) (e : KeyEvent) (st : AppState)
    : AppState * option Message :=
  if String.eqb (key e) "Enter" && negb (shiftKey e)
  then handleSendMessage_begin env st
  else (st, None).

(** *** What [MessageList] renders *)

(** Under a user message: its replies, nothing while a send is out, or
    the note "No responses yet". *)
Inductive RepliesView : Type :=
  | ShowReplies (replies : list Message)
  | ShowNothing
  | NoResponsesYet.

Definition repliesView (loading : bool) (g : Group) : RepliesView :=
  if (0 <? length (aiReplies g))%nat then ShowReplies (aiReplies g)
  else if loading then ShowNothing
  else NoResponsesYet.

(** The whole list: the invitation to start a conversation for an empty
    history, else one block per group. *)
Inductive MessageListView : Type :=
  | StartAConversation
  | Blocks (blocks : list (Message * RepliesView)).

Definition messageListView (loading : bool) (history : list Message) : MessageListView :=
  if (length history =? 0)%nat then StartAConversation
  else Blocks (map (fun g => (userMsg g, repliesView loading g)) (messageGroups history)).

(** *** The list of the sidebar ([components/Sidebar/ConversationList]) *)




(** *** Orders and shapes used to state what the store operations keep *)

(** Newest first, by [timestamp]. *)
Definition newestFirst (saved : list SavedConversation) : Prop :=
  StronglySorted
    (fun a b => (getTime (conv_timestamp b) <= getTime (conv_timestamp a))%N) saved.

(** The conversations of [saved] made at the instant [t], in their order. *)
Definition madeAt (t : N) (saved : list SavedConversation) : list SavedConversation :=
  filter (fun c => (getTime (conv_timestamp c) =? t)%N) saved.

(** A history without the assistant messages that come before its first
    user message. *)
Fixpoint dropLeadingReplies (history : list Message) : list Message :=
  match history with
  | [] => []
  | m :: rest =>
      match role m with
      | assistant => dropLeadingReplies rest
      | user => history
      end
  end.

(** The messages of a group, as they are laid out. *)
Definition block (g : Group) : list Message := userMsg g :: aiReplies g.

(** A conversation with every [Date], its own and those of its messages,
    written as its ISO text. *)
Definition isoConversation (c : SavedConversation) : SavedConversation :=
  mkConversation (DateIso (getTime (lastSaved c))) (conv_id c) (title c)
                 (map isoMessage (messages c))
                 (DateIso (getTime (conv_timestamp c))) (isCurrent c).

(** The page goes away and comes back: [saveStateBeforeUnload], then a
    fresh mount on the store and the search text that [useLocalStorage]
    kept, then the effect that restores the snapshot. *)
Definition remount (env : Env) (st : AppState) : AppState :=
  let (ls, rest) := saveStateBeforeUnload env st in
  restoreSnapshotEffect ls
    (initialState (reloadedStore (savedConversations (fst rest)))
                  (searchText (fst rest))).

(** The messages held by the variables of the grouping loop, in the order
    in which they will be laid out, and the user messages among them. *)
Definition laidOut (acc : groupState) : list Message :=
  let '(groups, currentUserMsg, replies) := acc in
  concat (map block groups) ++
  match currentUserMsg with
  | Some u => u :: replies
  | None => []
  end.

Definition usersOf (acc : groupState) : list Message :=
  let '(groups, currentUserMsg, replies) := acc in
  map userMsg groups ++
  match currentUserMsg with
  | Some u => [u]
  | None => []
  end.

(** A group as [MessageList] means it: a user message and assistant
    messages. *)
Definition wellFormedGroup (g : Group) : Prop :=
  role (userMsg g) = user /\ Forall (fun r => role r = assistant) (aiReplies g).

Definition wellFormedLoop (acc : groupState) : Prop :=
  let '(groups, currentUserMsg, replies) := acc in
  Forall wellFormedGroup groups /\
  Forall (fun r => role r = assistant) replies /\
  match currentUserMsg with
  | Some u => role u = user
  | None => replies = []
  end.

(** *** The panel of conversations ([components/Sidebar], [MobileDrawer]) *)

(** What the sidebar and the drawer put under the search bar: the list
    handed to [ConversationList], or one of two notes. *)
Inductive SidebarPanel : Type :=
  | ShowList (conversations : list SavedConversation)
  | NoConversationsFound
  | NoConversationHistory.

Definition sidebarPanel (searchText : string)
    (filteredConversations savedConversations : list SavedConversation) : SidebarPanel :=
  if (0 <? length filteredConversations)%nat then
    ShowList (if (0 <? length filteredConversations)%nat
              then filteredConversations else savedConversations)
  else if truthy searchText then NoConversationsFound
  else NoConversationHistory.

(** *** The indicator under the messages ([ChatContainer], [LoadingIndicator]) *)

Inductive Status : Type :=
  | status_loading
  | status_success
  | status_error
  | status_empty.

Definition getStatus (loading : bool) (history : list Message) : Status :=
  if loading then status_loading
  else if (length history =? 0)%nat then status_empty
  else status_success.

(** What [LoadingIndicator] returns. *)
Inductive IndicatorView : Type :=
  | Thinking
  | SuccessBox
  | NoIndicator.

Definition LoadingIndicator (status : Status) : IndicatorView :=
  match status with
  | status_loading => Thinking
  | status_empty => SuccessBox
  | _ => NoIndicator
  end.

(** [{isLoading && <LoadingIndicator status={getStatus()}/>}]: [None]
    when the element is not rendered. *)
Definition chatContainerIndicator (loading : bool) (history : list Message)
    : option IndicatorView :=
  if loading then Some (LoadingIndicator (getStatus loading history)) else None.

(** *** Reading a reply aloud ([components/AiMessage/AudioButtonWithPulse]) *)

Record Voice : Type := mkVoice {
  voice_name : string;
  voice_lang : string
}.

(** A [SpeechSynthesisUtterance] as [speakText] sets it; rate and pitch in
    hundredths. *)
Record Utterance : Type := mkUtterance {
  utt_text : string;
  utt_lang : string;
  utt_rate : N;
  utt_pitch : N;
  utt_voice : option Voice
}.

(** A call made on [window.speechSynthesis]. *)
Inductive SpeechCall : Type :=
  | Speak (utterance : Utterance)
  | Cancel.

(** The state of the button and the calls made so far.  The window is the
    list [getVoices()] returns, or [None] when it has no [speechSynthesis]. *)
Record AudioState : Type := mkAudio {
  isPlaying : bool;
  speechCalls : list SpeechCall
}.

Definition setIsPlaying (b : bool) (a : AudioState) : AudioState :=
  mkAudio b (speechCalls a).

Definition desiredVoiceName : string := "Microsoft Zira - English (United States)".

Definition speakText (window : option (list Voice)) (text : string) (a : AudioState)
    : AudioState * option Utterance :=
  match window with
  | Some voices =>
      let desiredVoice := find (fun voice => String.eqb (voice_name voice) desiredVoiceName) voices in
      let utterance := mkUtterance text "en-US" 95 110 desiredVoice in
      (setIsPlaying true (mkAudio (isPlaying a) (speechCalls a ++ [Speak utterance])),
       Some utterance)
  | None => (a, None)
  end.

(** [utterance.onend] and [utterance.onerror]. *)
Definition onend (a : AudioState) : AudioState := setIsPlaying false a.
Definition onerror (a : AudioState) : AudioState := setIsPlaying false a.

Definition stopSpeaking (window : option (list Voice)) (a : AudioState) : AudioState :=
  match window with
  | Some _ => setIsPlaying false (mkAudio (isPlaying a) (speechCalls a ++ [Cancel]))
  | None => a
  end.

Definition togglePlay (window : option (list Voice)) (text : string) (a : AudioState)
    : AudioState :=
  if isPlaying a then stopSpeaking window a
  else setIsPlaying true (fst (speakText window text a)).

(** * Properties *)

(** ** Strings *)

Lemma startsWith_app (t rest : string) : startsWith (t ++ rest)%string t = true.
Proof.
  induction t as [|b t IH]; simpl; [reflexivity|].
  now rewrite Ascii.eqb_refl, IH.
Qed.

Lemma startsWith_inv (s t : string) :
  startsWith s t = true -> exists rest : string, s = (t ++ rest)%string.
Proof.
  revert s; induction t as [|b t IH]; intros s H; simpl in *.
  - now exists s.
  - destruct s as [|a s]; [discriminate|].
    apply andb_true_iff in H as [Hab Hst].
    apply Ascii.eqb_eq in Hab; subst b.
    destruct (IH _ Hst) as [rest ->]. now exists rest.
Qed.

Lemma startsWith_spec (s t : string) :
  startsWith s t = true <-> exists rest : string, s = (t ++ rest)%string.
Proof.
  split; [apply startsWith_inv|].
  intros [rest ->]. apply startsWith_app.
Qed.

Lemma append_assoc (a b c : string) : ((a ++ b) ++ c = a ++ (b ++ c))%string.
Proof. induction a as [|x a IH]; simpl; [reflexivity|now rewrite IH]. Qed.

Lemma includes_spec (s t : string) : includes s t = true <-> substring t s.
Proof.
  unfold substring. induction s as [|a s IH].
  - cbn [includes]. rewrite orb_false_r. split.
    + intros H. apply startsWith_inv in H as [rest H]. now exists "", rest.
    + intros [before [rest H]].
      destruct before; simpl in H; [|discriminate].
      destruct t; [reflexivity|discriminate].
  - cbn [includes]. rewrite orb_true_iff, IH. split.
    + intros [H|[before [rest H]]].
      * apply startsWith_inv in H as [rest H]. now exists "", rest.
      * exists (String a before), rest. simpl. now rewrite H.
    + intros [before [rest H]]. destruct before as [|b before].
      * left. simpl in H. rewrite H. apply startsWith_app.
      * right. simpl in H. injection H as _ H. now exists before, rest.
Qed.

(** ** Search *)

(** C8. A blank query gives back the whole list as it is.  Any other
    query keeps, in store order, exactly the conversations whose title,
    in lower case, contains the query in lower case; the test looks at the
    title alone.  With the three titles of the design document, [apero]
    selects the first only, whatever the case of the letters. *)
Theorem search_filter_by_title :
  (forall q saved, trim q = "" -> filterConversations q saved = saved) /\
  (forall q saved, trim q <> "" ->
     (exists keep : string -> bool,
        filterConversations q saved = filter (fun c => keep (title c)) saved) /\
     (forall c, In c (filterConversations q saved) <->
                In c saved /\ substring (toLowerCase q) (toLowerCase (title c)))) /\
  (forall a b c : SavedConversation,
     title a = "Aperol Spritz" -> title b = "Negroni Sbagliato" ->
     title c = "Campari Soda" ->
     filterConversations "apero" [a; b; c] = [a] /\
     filterConversations "APERO" [a; b; c] = [a]).
Proof.
  split; [|split].
  - intros q saved H. unfold filterConversations. now rewrite H.
  - intros q saved H. unfold filterConversations.
    destruct (String.eqb_spec (trim q) "") as [E|_]; [contradiction|].
    split.
    + exists (fun t => includes (toLowerCase t) (toLowerCase q)). reflexivity.
    + intros c. rewrite filter_In. unfold titleMatches.
      now rewrite includes_spec.
  - intros a b c Ha Hb Hc. unfold filterConversations, titleMatches. simpl.
    rewrite Ha, Hb, Hc. split; reflexivity.
Qed.

Lemma search_filter_by_title_witness :
  filterConversations "   " [mkConversation (DateObj 1) "1" "Aperol Spritz" [] (DateObj 1) None]
  = [mkConversation (DateObj 1) "1" "Aperol Spritz" [] (DateObj 1) None] /\
  (In (mkConversation (DateObj 1) "1" "Aperol Spritz" [] (DateObj 1) None)
      (filterConversations "SPRITZ"
         [mkConversation (DateObj 2) "2" "Campari Soda" [] (DateObj 2) None;
          mkConversation (DateObj 1) "1" "Aperol Spritz" [] (DateObj 1) None]) <->
   In (mkConversation (DateObj 1) "1" "Aperol Spritz" [] (DateObj 1) None)
      [mkConversation (DateObj 2) "2" "Campari Soda" [] (DateObj 2) None;
       mkConversation (DateObj 1) "1" "Aperol Spritz" [] (DateObj 1) None] /\
   substring (toLowerCase "SPRITZ") (toLowerCase "Aperol Spritz")) /\
  filterConversations "apero"
    [mkConversation (DateObj 1) "1" "Aperol Spritz" [] (DateObj 1) None;
     mkConversation (DateObj 2) "2" "Negroni Sbagliato" [] (DateObj 2) None;
     mkConversation (DateObj 3) "3" "Campari Soda" [] (DateObj 3) None]
  = [mkConversation (DateObj 1) "1" "Aperol Spritz" [] (DateObj 1) None].
Proof.
  destruct search_filter_by_title as [Hblank [Hquery Hexample]].
  split; [|split].
  - apply Hblank. reflexivity.
  - apply (Hquery "SPRITZ"). vm_compute. discriminate.
  - apply (Hexample (mkConversation (DateObj 1) "1" "Aperol Spritz" [] (DateObj 1) None)
                    (mkConversation (DateObj 2) "2" "Negroni Sbagliato" [] (DateObj 2) None)
                    (mkConversation (DateObj 3) "3" "Campari Soda" [] (DateObj 3) None)
                    eq_refl eq_refl eq_refl).
Defined.

(** ** Like and dislike *)

Lemma likeMessage_tallied (m : Message) : tallied m -> tallied (likeMessage m).
Proof.
  unfold tallied, likeMessage. flag_cases m; simpl; intros (Hl & Hd & Hx);
    try discriminate; repeat split; try reflexivity; lia.
Qed.

Lemma dislikeMessage_tallied (m : Message) : tallied m -> tallied (dislikeMessage m).
Proof.
  unfold tallied, dislikeMessage. flag_cases m; simpl; intros (Hl & Hd & Hx);
    try discriminate; repeat split; try reflexivity; lia.
Qed.

Lemma votable_tallied (m : Message) : votable m -> tallied m.
Proof.
  induction 1 as [m Hl Hd Hlk Hdl | m _ IH | m _ IH].
  - unfold tallied. rewrite Hl, Hd, Hlk, Hdl. simpl. auto.
  - now apply likeMessage_tallied.
  - now apply dislikeMessage_tallied.
Qed.

Lemma likeMessage_exclusive (m : Message) :
  flag (liked (likeMessage m)) && flag (disliked (likeMessage m)) = false.
Proof.
  unfold likeMessage. flag_cases m; reflexivity.
Qed.

Lemma dislikeMessage_exclusive (m : Message) :
  flag (liked (dislikeMessage m)) && flag (disliked (dislikeMessage m)) = false.
Proof.
  unfold dislikeMessage. flag_cases m; reflexivity.
Qed.

Lemma nth_error_replaceAt {A} (l : list A) (index : nat) (v x : A) :
  nth_error l index = Some x -> nth_error (replaceAt index v l) index = Some v.
Proof.
  revert index; induction l as [|y l IH]; intros [|index] H; simpl in *;
    try discriminate; [reflexivity | now apply IH].
Qed.

Lemma nth_error_replaceAt_other {A} (l : list A) (index j : nat) (v : A) :
  j <> index -> nth_error (replaceAt index v l) j = nth_error l j.
Proof.
  revert index j; induction l as [|y l IH]; intros [|index] [|j] H; simpl;
    try reflexivity; [congruence | apply IH; congruence].
Qed.

(** The message built for a user turn or for a reply has no counters and
    no flags yet. *)
Lemma newUserMessage_votable (q : string) (t : N) : votable (newUserMessage q t).
Proof. now apply votable_new. Qed.

Lemma aiMessagesOf_votable (env : Env) (q : string) (t : N) (response : AnswerResponse) :
  Forall votable (aiMessagesOf env (newUserMessage q t) response).
Proof.
  destruct response as [items|]; simpl.
  - unfold mapi. generalize 0. induction items as [|x items IH]; intros n; simpl;
      constructor; [now apply votable_new | apply IH].
  - constructor; [now apply votable_new | constructor].
Qed.

(** C9. For every message that is disliked and not liked, a like sets
    the like flag, clears the dislike flag, takes exactly one off the
    dislike counter and adds exactly one to the like counter, and the same
    with the roles exchanged; after a toggle of any message the two flags
    are never both set.  For a message as the application makes it and
    after any number of toggles, the two flags are never both set to begin
    with, and the counters are never negative, before or after a toggle.
    [handleLike] and [handleDislike] apply the toggle to the message at the
    index and leave the others. *)
Theorem like_dislike_exclusive_exact :
  (forall m,
     (flag (disliked m) = true -> flag (liked m) = false ->
        flag (liked (likeMessage m)) = true /\
        flag (disliked (likeMessage m)) = false /\
        counter (dislikes (likeMessage m)) = (counter (dislikes m) - 1)%Z /\
        counter (likes (likeMessage m)) = (counter (likes m) + 1)%Z) /\
     (flag (liked m) = true -> flag (disliked m) = false ->
        flag (disliked (dislikeMessage m)) = true /\
        flag (liked (dislikeMessage m)) = false /\
        counter (likes (dislikeMessage m)) = (counter (likes m) - 1)%Z /\
        counter (dislikes (dislikeMessage m)) = (counter (dislikes m) + 1)%Z) /\
     flag (liked (likeMessage m)) && flag (disliked (likeMessage m)) = false /\
     flag (liked (dislikeMessage m)) && flag (disliked (dislikeMessage m)) = false) /\
  (forall m, votable m ->
     (flag (disliked m) = true ->
        flag (liked (likeMessage m)) = true /\
        flag (disliked (likeMessage m)) = false /\
        counter (dislikes (likeMessage m)) = (counter (dislikes m) - 1)%Z /\
        counter (likes (likeMessage m)) = (counter (likes m) + 1)%Z) /\
     (flag (liked m) = true ->
        flag (disliked (dislikeMessage m)) = true /\
        flag (liked (dislikeMessage m)) = false /\
        counter (likes (dislikeMessage m)) = (counter (likes m) - 1)%Z /\
        counter (dislikes (dislikeMessage m)) = (counter (dislikes m) + 1)%Z) /\
     flag (liked m) && flag (disliked m) = false /\
     (0 <= counter (likes m) /\ 0 <= counter (dislikes m))%Z /\
     (0 <= counter (likes (likeMessage m)) /\
      0 <= counter (dislikes (likeMessage m)))%Z /\
     (0 <= counter (likes (dislikeMessage m)) /\
      0 <= counter (dislikes (dislikeMessage m)))%Z /\
     (forall replies index, nth_error replies index = Some m ->
        exists updated updated',
          handleLike replies index = Some updated /\
          nth_error updated index = Some (likeMessage m) /\
          handleDislike replies index = Some updated' /\
          nth_error updated' index = Some (dislikeMessage m) /\
          forall j, j <> index ->
            nth_error updated j = nth_error replies j /\
            nth_error updated' j = nth_error replies j)).
Proof.
  assert (General : forall m,
     (flag (disliked m) = true -> flag (liked m) = false ->
        flag (liked (likeMessage m)) = true /\
        flag (disliked (likeMessage m)) = false /\
        counter (dislikes (likeMessage m)) = (counter (dislikes m) - 1)%Z /\
        counter (likes (likeMessage m)) = (counter (likes m) + 1)%Z) /\
     (flag (liked m) = true -> flag (disliked m) = false ->
        flag (disliked (dislikeMessage m)) = true /\
        flag (liked (dislikeMessage m)) = false /\
        counter (likes (dislikeMessage m)) = (counter (likes m) - 1)%Z /\
        counter (dislikes (dislikeMessage m)) = (counter (dislikes m) + 1)%Z) /\
     flag (liked (likeMessage m)) && flag (disliked (likeMessage m)) = false /\
     flag (liked (dislikeMessage m)) && flag (disliked (dislikeMessage m)) = false).
  { intros m. split; [|split; [|split]].
    - unfold likeMessage. flag_cases m; simpl; intros; try discriminate;
        repeat split; reflexivity.
    - unfold dislikeMessage. flag_cases m; simpl; intros; try discriminate;
        repeat split; reflexivity.
    - apply likeMessage_exclusive.
    - apply dislikeMessage_exclusive. }
  split; [exact General|].
  intros m Hv.
  pose proof (votable_tallied m Hv) as Ht.
  pose proof (likeMessage_tallied m Ht) as Hlt.
  pose proof (dislikeMessage_tallied m Ht) as Hdt.
  assert (Hnn : forall x, tallied x -> (0 <= counter (likes x) /\ 0 <= counter (dislikes x))%Z).
  { intros x (Hl & Hd & _). rewrite Hl, Hd.
    destruct (flag (liked x)), (flag (disliked x)); lia. }
  destruct (General m) as (Glike & Gdislike & _ & _).
  assert (Hx : flag (liked m) && flag (disliked m) = false) by apply Ht.
  split; [|split; [|split; [|split; [|split; [|split]]]]].
  - intros Hdis. apply Glike; [exact Hdis|].
    rewrite Hdis, andb_true_r in Hx. exact Hx.
  - intros Hlk. apply Gdislike; [exact Hlk|].
    rewrite Hlk in Hx. exact Hx.
  - exact Hx.
  - apply (Hnn m Ht).
  - apply (Hnn _ Hlt).
  - apply (Hnn _ Hdt).
  - intros replies index Hn. unfold handleLike, handleDislike. rewrite Hn.
    do 2 eexists. split; [reflexivity|]. split; [eapply nth_error_replaceAt; eauto|].
    split; [reflexivity|]. split; [eapply nth_error_replaceAt; eauto|].
    intros j Hj. split; now apply nth_error_replaceAt_other.
Qed.

Lemma like_dislike_exclusive_exact_witness :
  flag (liked (likeMessage (dislikeMessage sampleReply))) = true /\
  flag (disliked (likeMessage (dislikeMessage sampleReply))) = false /\
  counter (dislikes (likeMessage (dislikeMessage sampleReply))) = 0%Z /\
  counter (likes (likeMessage (dislikeMessage sampleReply))) = 1%Z.
Proof.
  apply (proj2 like_dislike_exclusive_exact (dislikeMessage sampleReply)).
  - apply votable_dislike, votable_new; reflexivity.
  - reflexivity.
Defined.

(** Messages read back from storage are covered as well. *)
Lemma isoMessage_likeMessage (m : Message) :
  isoMessage (likeMessage m) = likeMessage (isoMessage m).
Proof.
  unfold likeMessage. flag_cases m; reflexivity.
Qed.

Lemma isoMessage_dislikeMessage (m : Message) :
  isoMessage (dislikeMessage m) = dislikeMessage (isoMessage m).
Proof.
  unfold dislikeMessage. flag_cases m; reflexivity.
Qed.

Lemma votable_isoMessage (m : Message) : votable m -> votable (isoMessage m).
Proof.
  induction 1 as [m Hl Hd Hlk Hdl | m _ IH | m _ IH].
  - now apply votable_new.
  - rewrite isoMessage_likeMessage. now apply votable_like.
  - rewrite isoMessage_dislikeMessage. now apply votable_dislike.
Qed.

(** ** Sending a message *)

Lemma handleSendMessage_begin_accepts (env : Env) (st : AppState) :
  truthy (trim (questionInput st)) = true -> isLoading st = false ->
  handleSendMessage_begin env st =
    (setQuestion ""
       (setChatHistory
          (fun prev => prev ++ [newUserMessage (trim (questionInput st)) (now env)])
          (setIsLoading true st)),
     Some (newUserMessage (trim (questionInput st)) (now env))).
Proof.
  intros Hq Hl. unfold handleSendMessage_begin. now rewrite Hq, Hl.
Qed.

(** The claim of C3 fails when the call rejects: the chat of one message
    in which [And a Negroni?] is asked, with the call rejecting, ends with
    no assistant message at all after the question. *)
Lemma send_rejected_appends_no_reply :
  exists st',
    handleSendMessage (sampleEnv 2000) (sampleEnv 2300) Rejected unsavedChat = Normal st' /\
    chatHistory st' = [sampleUser; newUserMessage "And a Negroni?" 2000] /\
    ~ exists m, In m (chatHistory st') /\ role m = assistant.
Proof.
  eexists. split; [reflexivity|]. split; [reflexivity|].
  intros [m [[H|[H|[]]] Hr]]; subst m; discriminate.
Qed.

(** C3, amended.  When the answer call resolves with something that is
    not an array, exactly one assistant message with the fixed apology is
    appended right after the user message.  When the call rejects, or
    resolves with an empty array, nothing is appended after the user
    message; a rejection shows the notification instead. *)
Theorem fallback_reply_when_answer_is_no_array :
  forall env env' st,
    truthy (trim (questionInput st)) = true -> isLoading st = false ->
    let u := newUserMessage (trim (questionInput st)) (now env) in
    (exists st',
       handleSendMessage env env' (Resolved RespOther) st = Normal st' /\
       chatHistory st' = chatHistory st ++ [u; fallbackMessage u (now env')] /\
       role (fallbackMessage u (now env')) = assistant /\
       answer (fallbackMessage u (now env')) = apologyText /\
       snackbarOpen st' = snackbarOpen st) /\
    (exists st',
       handleSendMessage env env' Rejected st = Normal st' /\
       chatHistory st' = chatHistory st ++ [u] /\
       snackbarOpen st' = true /\ snackbarMessage st' = failedToSend) /\
    (exists st',
       handleSendMessage env env' (Resolved (RespArray [])) st = Normal st' /\
       chatHistory st' = chatHistory st ++ [u]).
Proof.
  intros env env' st Hq Hl u. unfold handleSendMessage.
  rewrite (handleSendMessage_begin_accepts env st Hq Hl). fold u.
  split; [|split]; eexists; (split; [reflexivity|]); simpl.
  - rewrite <- app_assoc. simpl. auto.
  - auto.
  - now rewrite app_nil_r.
Qed.

Lemma fallback_reply_when_answer_is_no_array_witness :
  exists st',
    handleSendMessage (sampleEnv 2000) (sampleEnv 2300) (Resolved RespOther) unsavedChat
      = Normal st' /\
    chatHistory st' =
      [sampleUser; newUserMessage "And a Negroni?" 2000;
       fallbackMessage (newUserMessage "And a Negroni?" 2000) 2300].
Proof.
  destruct (fallback_reply_when_answer_is_no_array
              (sampleEnv 2000) (sampleEnv 2300) unsavedChat eq_refl eq_refl)
    as [[st' [H1 [H2 _]]] _].
  exists st'. split; [exact H1 | exact H2].
Defined.

(** C4. A send whose answer call rejects completes normally: the throw
    is caught.  The message list is the one before the send with the user
    message appended at its end, the notification is open with its fixed
    text and can be closed, the in-flight guard is off so that the next
    question is accepted, and the store, the active id and the title are
    untouched.  The continuation itself leaves the message list of whatever
    state it finds as it is. *)
Theorem send_failure_is_caught :
  forall env env' st,
    truthy (trim (questionInput st)) = true -> isLoading st = false ->
    let u := newUserMessage (trim (questionInput st)) (now env) in
    (exists st',
       handleSendMessage env env' Rejected st = Normal st' /\
       chatHistory st' = chatHistory st ++ [u] /\
       last (chatHistory st') u = u /\
       snackbarOpen st' = true /\
       snackbarMessage st' = failedToSend /\
       snackbarOpen (handleCloseSnackbar st') = false /\
       isLoading st' = false /\
       savedConversations st' = savedConversations st /\
       currentConversationId st' = currentConversationId st /\
       currentTitle st' = currentTitle st /\
       forall env2 text, truthy (trim text) = true ->
         snd (handleSendMessage_begin env2 (setQuestion text st'))
           = Some (newUserMessage (trim text) (now env2))) /\
    (forall s, exists s',
       handleSendMessage_resume env' u Rejected s = Normal s' /\
       chatHistory s' = chatHistory s /\ isLoading s' = false).
Proof.
  intros env env' st Hq Hl u. split.
  - unfold handleSendMessage.
    rewrite (handleSendMessage_begin_accepts env st Hq Hl). fold u.
    eexists. split; [reflexivity|]. simpl.
    repeat split; try reflexivity.
    + apply last_last.
    + intros env2 text Ht. unfold handleSendMessage_begin. simpl. now rewrite Ht.
  - intros s. eexists. split; [reflexivity|]. simpl. auto.
Qed.

Lemma send_failure_is_caught_witness :
  exists st',
    handleSendMessage (sampleEnv 2000) (sampleEnv 2300) Rejected unsavedChat = Normal st' /\
    chatHistory st' = chatHistory unsavedChat ++ [newUserMessage "And a Negroni?" 2000].
Proof.
  destruct (send_failure_is_caught (sampleEnv 2000) (sampleEnv 2300) unsavedChat
              eq_refl eq_refl) as [[st' [H1 [H2 _]]] _].
  exists st'. split; [exact H1 | exact H2].
Defined.

(** ** Title requests *)

(** The claim of C2 fails: the request made for conversation A resolves
    after the switch to conversation B, and its title is taken all the
    same; the state after the resolution is not the state before it. *)
Lemma stale_title_is_applied :
  currentConversationId switchedToB = Some "900" /\
  currentTitle switchedToB = "Untitled Chat" /\
  currentTitle (resolveTitleRequest (sampleEnv 1600) requestForA titleForA switchedToB)
    = "Aperol Spritz basics" /\
  resolveTitleRequest (sampleEnv 1600) requestForA titleForA switchedToB <> switchedToB.
Proof.
  repeat split; try reflexivity. intros H.
  apply (f_equal currentTitle) in H. vm_compute in H. discriminate.
Qed.

(** What a stale title does: it arrives while a new chat about something
    else is open, and the next switch commits that chat under it. *)
Lemma stale_title_names_the_next_commit :
  option_map title
    (hd_error
       (savedConversations
          (handleClickConversation (sampleEnv 3500)
             (resolveTitleRequest (sampleEnv 3200) requestForA titleForA negroniChat)
             conversationB)))
  = Some "Aperol Spritz basics" /\
  option_map title
    (hd_error
       (savedConversations
          (handleClickConversation (sampleEnv 3500) negroniChat conversationB)))
  = Some "Negroni questions".
Proof. split; reflexivity. Qed.

(** C2, amended.  A title request carries the message list and the date,
    and no id.  Its resolution is never discarded: whatever conversation is
    active by then, it replaces the session's [currentTitle] and nothing
    else.  In particular it does not write the store, so in the run "issue
    while A is active, switch to B, resolve" the stored title of B, like
    every stored entry, is the same after the resolution as before. *)
Theorem title_resolution_overwrites_currentTitle_only :
  (forall env req remote s,
     resolveTitleRequest env req remote s =
       setCurrentTitle
         (generateAutoTitle env (req_messages req) (req_timestamp req) remote) s /\
     currentTitle (resolveTitleRequest env req remote s) =
       generateAutoTitle env (req_messages req) (req_timestamp req) remote /\
     savedConversations (resolveTitleRequest env req remote s) = savedConversations s /\
     chatHistory (resolveTitleRequest env req remote s) = chatHistory s /\
     currentConversationId (resolveTitleRequest env req remote s)
       = currentConversationId s) /\
  (forall env0 env1 env2 st target remote,
     let afterSwitch := handleClickConversation env1 st target in
     let afterTitle :=
       resolveTitleRequest env2 (issueTitleRequest env0 st) remote afterSwitch in
     currentTitle afterTitle = generateAutoTitle env2 (chatHistory st) (now env0) remote /\
     savedConversations afterTitle = savedConversations afterSwitch /\
     option_map title
       (find_conversation (Some (conv_id target)) (savedConversations afterTitle))
     = option_map title
       (find_conversation (Some (conv_id target)) (savedConversations afterSwitch))).
Proof.
  split.
  - intros env req remote s. repeat split; reflexivity.
  - intros env0 env1 env2 st target remote. simpl. repeat split; reflexivity.
Qed.

(** ** The durable snapshot *)

Lemma message_of_json_of_message (m : Message) :
  message_of_json (json_of_message m) = isoMessage m.
Proof.
  destruct m as [i q a im ts r ms cf l d lk dl].
  destruct r, l, d, lk, dl; reflexivity.
Qed.

Lemma parse_stringify_messages (l : list Message) :
  parseMessages (stringifyMessages l) = map isoMessage l.
Proof.
  unfold parseMessages, stringifyMessages. rewrite map_map.
  apply map_ext. apply message_of_json_of_message.
Qed.

Lemma isoMessage_fixed (m : Message) :
  (exists ms, timestamp m = DateIso ms) -> isoMessage m = m.
Proof.
  intros [ms H]. destruct m as [i q a im ts r msc cf l d lk dl].
  simpl in H. subst ts. reflexivity.
Qed.

Lemma restoreSnapshotEffect_chatHistory (ls : LocalStorage) (st : AppState) :
  chatHistory (restoreSnapshotEffect ls st) =
    match item_currentChatHistory ls with
    | Some savedHistory => parseMessages savedHistory
    | None => chatHistory st
    end.
Proof.
  unfold restoreSnapshotEffect.
  destruct ls as [[text|] [i|]]; cbn [item_currentChatHistory item_currentConversationId];
    try reflexivity;
    destruct (truthy i && negb (i =? "null")%string); reflexivity.
Qed.

(** The claim of C7 fails on a message made in this session: its
    [timestamp] is a [Date] before the snapshot and a text after the
    restore. *)
Lemma snapshot_changes_a_date :
  chatHistory (restoreSnapshotEffect (writeSnapshot unsavedChat) (initialState [] ""))
    <> chatHistory unsavedChat /\
  timestamp sampleUser = DateObj 1000 /\
  map timestamp
      (chatHistory (restoreSnapshotEffect (writeSnapshot unsavedChat) (initialState [] "")))
    = [DateIso 1000].
Proof.
  split; [|split]; try reflexivity. vm_compute. discriminate.
Qed.

(** C7, amended.  Restoring the snapshot on a fresh mount gives back the
    message list in the same order and of the same length, each message
    with every field as it was, except that a timestamp that was a [Date]
    comes back as the ISO text of the same instant; a list whose
    timestamps are such texts already comes back identical.  The active
    id comes back as it was, [null] as [null]. *)
Theorem snapshot_round_trip :
  forall st store search,
    storableId (currentConversationId st) ->
    let restored := restoreSnapshotEffect (writeSnapshot st) (initialState store search) in
    chatHistory restored = map isoMessage (chatHistory st) /\
    length (chatHistory restored) = length (chatHistory st) /\
    (forall n m, nth_error (chatHistory st) n = Some m ->
       nth_error (chatHistory restored) n = Some (isoMessage m) /\
       getTime (timestamp (isoMessage m)) = getTime (timestamp m)) /\
    (Forall (fun m => exists ms, timestamp m = DateIso ms) (chatHistory st) ->
     chatHistory restored = chatHistory st) /\
    currentConversationId restored = currentConversationId st.
Proof.
  intros st store search Hid restored.
  assert (Hc : chatHistory restored = map isoMessage (chatHistory st)).
  { unfold restored. rewrite restoreSnapshotEffect_chatHistory.
    unfold writeSnapshot. cbn [item_currentChatHistory].
    apply parse_stringify_messages. }
  split; [exact Hc|]. split; [now rewrite Hc, length_map|].
  split; [|split].
  - intros n m Hn. rewrite Hc. split.
    + now rewrite nth_error_map, Hn.
    + reflexivity.
  - intros Hall. rewrite Hc. rewrite <- (map_id (chatHistory st)) at 2.
    apply map_ext_in. intros m Hm. apply isoMessage_fixed.
    rewrite Forall_forall in Hall. now apply Hall.
  - unfold restored, restoreSnapshotEffect, writeSnapshot.
    cbn [item_currentChatHistory item_currentConversationId].
    destruct (currentConversationId st) as [i|]; [|reflexivity].
    destruct Hid as [Hne Hnull]. unfold or_else.
    destruct i as [|c i]; [contradiction|]. cbn [truthy andb].
    destruct (String.eqb_spec (String c i) "null") as [E|_]; [contradiction|].
    reflexivity.
Qed.

Lemma snapshot_round_trip_witness :
  chatHistory (restoreSnapshotEffect (writeSnapshot grownA) (initialState [] ""))
    = map isoMessage (chatHistory grownA) /\
  currentConversationId (restoreSnapshotEffect (writeSnapshot grownA) (initialState [] ""))
    = Some "1300".
Proof.
  destruct (snapshot_round_trip grownA [] "") as (H1 & _ & _ & _ & H5).
  - simpl. split; discriminate.
  - split; [exact H1 | exact H5].
Defined.

(** What the amended statement leaves out: on startup the effect that
    restores the last conversation runs after the snapshot is restored, and
    puts the stored messages of the active conversation in the place of the
    restored list.  Conversation A, grown to three messages and not yet
    committed, is back to its stored single message. *)
Lemma startup_puts_stored_messages_back :
  length (chatHistory grownA) = 3 /\
  length (chatHistory remountedA) = 3 /\
  currentConversationId remountedA = Some "1300" /\
  length (chatHistory (restoreLastEffect remountedA)) = 1.
Proof. repeat split; reflexivity. Qed.

(** ** The store as the storage holds it *)

Lemma conversation_round_trip (c : SavedConversation) :
  conversation_of_json (json_of_conversation c) =
  mkConversation (DateIso (getTime (lastSaved c))) (conv_id c) (title c)
                 (map isoMessage (messages c))
                 (DateIso (getTime (conv_timestamp c))) (isCurrent c).
Proof.
  destruct c as [ls i t ms ts cur].
  unfold conversation_of_json, json_of_conversation.
  destruct cur; cbn -[parseMessages stringifyMessages];
    now rewrite parse_stringify_messages.
Qed.

Lemma reloadedStore_iso (l : list SavedConversation) :
  reloadedStore l = map isoConversation l.
Proof.
  unfold reloadedStore. apply map_ext. intros c. apply conversation_round_trip.
Qed.

Lemma isoMessage_idempotent (m : Message) : isoMessage (isoMessage m) = isoMessage m.
Proof. reflexivity. Qed.

Lemma isoConversation_idempotent (c : SavedConversation) :
  isoConversation (isoConversation c) = isoConversation c.
Proof.
  unfold isoConversation. simpl. f_equal. rewrite map_map.
  apply map_ext. intros m. reflexivity.
Qed.

Lemma find_map_iso (i : string) (l : list SavedConversation) :
  find (fun c => String.eqb (conv_id c) i) (map isoConversation l)
  = option_map isoConversation (find (fun c => String.eqb (conv_id c) i) l).
Proof.
  induction l as [|c l IH]; simpl; [reflexivity|].
  destruct (String.eqb (conv_id c) i); [reflexivity | exact IH].
Qed.

Lemma reloadedStore_idempotent (l : list SavedConversation) :
  reloadedStore (reloadedStore l) = reloadedStore l.
Proof.
  rewrite !reloadedStore_iso, map_map. apply map_ext.
  intros c. apply isoConversation_idempotent.
Qed.

(** What the component reads is a fixed point of the round trip. *)
Lemma savedConversations_stored (s : AppState) :
  reloadedStore (savedConversations s) = savedConversations s.
Proof. apply reloadedStore_idempotent. Qed.

Lemma savedConversations_set (f : list SavedConversation -> list SavedConversation)
    (s : AppState) :
  savedConversations (setSavedConversations f s) = reloadedStore (f (savedConversations s)).
Proof. reflexivity. Qed.

Lemma reloadedStore_map_flag (f : SavedConversation -> SavedConversation)
    (l : list SavedConversation) :
  (forall c, isoConversation (f c) = f (isoConversation c)) ->
  reloadedStore (map f l) = map f (reloadedStore l).
Proof.
  intros H. rewrite !reloadedStore_iso, !map_map. apply map_ext. exact H.
Qed.

Lemma reloadedStore_markCurrent (target : string) (l : list SavedConversation) :
  reloadedStore (markCurrent target l) = markCurrent target (reloadedStore l).
Proof. apply reloadedStore_map_flag. reflexivity. Qed.

Lemma reloadedStore_clearCurrent (l : list SavedConversation) :
  reloadedStore (clearCurrent l) = clearCurrent (reloadedStore l).
Proof. apply (reloadedStore_map_flag (with_isCurrent false)). reflexivity. Qed.

Lemma reloadedStore_filter (p : SavedConversation -> bool) (l : list SavedConversation) :
  (forall c, p (isoConversation c) = p c) ->
  reloadedStore (filter p l) = filter p (reloadedStore l).
Proof.
  intros H. rewrite !reloadedStore_iso.
  induction l as [|c l IH]; simpl; [reflexivity|].
  rewrite H. destruct (p c); simpl; now rewrite IH.
Qed.

Lemma insertByTimestamp_iso (c : SavedConversation) (l : list SavedConversation) :
  map isoConversation (insertByTimestamp c l)
  = insertByTimestamp (isoConversation c) (map isoConversation l).
Proof.
  induction l as [|d l IH]; simpl; [reflexivity|].
  destruct (getTime (conv_timestamp c) <? getTime (conv_timestamp d))%N; simpl;
    [now rewrite IH | reflexivity].
Qed.

Lemma reloadedStore_sort (l : list SavedConversation) :
  reloadedStore (sortConversationsByTimestamp l)
  = sortConversationsByTimestamp (reloadedStore l).
Proof.
  rewrite !reloadedStore_iso. induction l as [|c l IH]; simpl; [reflexivity|].
  now rewrite insertByTimestamp_iso, IH.
Qed.

Lemma setSavedConversations_fixed (f : list SavedConversation -> list SavedConversation)
    (s : AppState) :
  f (savedConversations s) = aperolConversations s -> setSavedConversations f s = s.
Proof.
  intros H. unfold setSavedConversations. rewrite H. now destruct s.
Qed.

(** The updaters that only flag or remove entries leave in the store what
    they compute from it. *)
Lemma savedConversations_markCurrent (target : string) (s : AppState) :
  savedConversations (setSavedConversations (markCurrent target) s)
  = markCurrent target (savedConversations s).
Proof.
  now rewrite savedConversations_set, reloadedStore_markCurrent, savedConversations_stored.
Qed.

Lemma savedConversations_clearCurrent (s : AppState) :
  savedConversations (setSavedConversations clearCurrent s)
  = clearCurrent (savedConversations s).
Proof.
  now rewrite savedConversations_set, reloadedStore_clearCurrent, savedConversations_stored.
Qed.

Lemma savedConversations_filter (p : SavedConversation -> bool) (s : AppState) :
  (forall c, p (isoConversation c) = p c) ->
  savedConversations (setSavedConversations (filter p) s)
  = filter p (savedConversations s).
Proof.
  intros H.
  now rewrite savedConversations_set, reloadedStore_filter, savedConversations_stored.
Qed.

(** ** Commit before switch *)

Lemma option_string_eqb_sym (a b : option string) :
  option_string_eqb a b = option_string_eqb b a.
Proof. destruct a, b; simpl; auto using String.eqb_sym. Qed.

Lemma find_markCurrent (i target : string) (l : list SavedConversation) :
  find (fun c => String.eqb (conv_id c) i) (markCurrent target l) =
  option_map (fun c => with_isCurrent (String.eqb (conv_id c) target) c)
             (find (fun c => String.eqb (conv_id c) i) l).
Proof.
  induction l as [|c l IH]; simpl; [reflexivity|].
  destruct (String.eqb (conv_id c) i); [reflexivity | exact IH].
Qed.

Lemma find_replaced (conv : SavedConversation) (l : list SavedConversation) :
  In (conv_id conv) (ids l) ->
  find (fun c => String.eqb (conv_id c) (conv_id conv))
       (map (fun c => if String.eqb (conv_id c) (conv_id conv) then conv else c) l)
  = Some conv.
Proof.
  induction l as [|c l IH]; simpl; [contradiction|].
  intros [H|H].
  - rewrite H, String.eqb_refl. simpl. now rewrite String.eqb_refl.
  - destruct (String.eqb_spec (conv_id c) (conv_id conv)) as [E|E]; simpl.
    + now rewrite String.eqb_refl.
    + apply String.eqb_neq in E. rewrite E. now apply IH.
Qed.

Lemma markCurrent_sameRecord (target : string) (l : list SavedConversation) :
  Forall2 sameRecord l (markCurrent target l).
Proof.
  induction l as [|c l IH]; simpl; constructor; [|exact IH].
  unfold sameRecord. simpl. auto.
Qed.

Lemma handleLoadConversation_switch (env : Env) (cl s : AppState)
    (target : SavedConversation) :
  option_string_eqb (currentConversationId cl) (Some (conv_id target)) = false ->
  chatHistory (handleLoadConversation env cl target s) = messages target /\
  currentConversationId (handleLoadConversation env cl target s) = Some (conv_id target) /\
  savedConversations (handleLoadConversation env cl target s)
    = markCurrent (conv_id target) (savedConversations s).
Proof.
  intros H. unfold handleLoadConversation.
  rewrite option_string_eqb_sym, H. cbn [negb].
  destruct (innerWidth env <? 900)%nat; repeat split; try reflexivity;
    exact (savedConversations_markCurrent (conv_id target) s).
Qed.

Lemma sameRecord_refl (c : SavedConversation) : sameRecord c c.
Proof. unfold sameRecord. auto. Qed.

Lemma sameRecord_trans (a b c : SavedConversation) :
  sameRecord a b -> sameRecord b c -> sameRecord a c.
Proof.
  unfold sameRecord. intros (A1 & A2 & A3 & A4 & A5) (B1 & B2 & B3 & B4 & B5).
  repeat split; congruence.
Qed.

Lemma Forall2_sameRecord_refl (l : list SavedConversation) : Forall2 sameRecord l l.
Proof. induction l; constructor; auto using sameRecord_refl. Qed.

Lemma Forall2_sameRecord_trans (l1 l2 l3 : list SavedConversation) :
  Forall2 sameRecord l1 l2 -> Forall2 sameRecord l2 l3 -> Forall2 sameRecord l1 l3.
Proof.
  intros H. revert l3. induction H as [|a b l1 l2 Hab _ IH]; intros l3 H23.
  - inversion H23. constructor.
  - inversion H23 as [|? c ? l3' Hbc H23']; subst. constructor.
    + eapply sameRecord_trans; eassumption.
    + now apply IH.
Qed.

Lemma find_sameRecord (i : string) (l l' : list SavedConversation) c :
  Forall2 sameRecord l l' ->
  find (fun x => String.eqb (conv_id x) i) l = Some c ->
  exists c', find (fun x => String.eqb (conv_id x) i) l' = Some c' /\ sameRecord c c'.
Proof.
  induction 1 as [|a b l l' Hab _ IH]; simpl; [discriminate|].
  destruct Hab as (Hid & Hrest). rewrite <- Hid.
  destruct (String.eqb (conv_id a) i).
  - intros E. injection E as <-. exists b. split; [reflexivity|].
    unfold sameRecord. tauto.
  - exact IH.
Qed.

Lemma restoreLastEffect_store (s : AppState) :
  savedConversations (restoreLastEffect s) = savedConversations s \/
  exists c, savedConversations (restoreLastEffect s)
            = markCurrent (conv_id c) (savedConversations s).
Proof.
  unfold restoreLastEffect.
  destruct (initializedRef s); [now left|].
  destruct (truthy_opt (currentConversationId s)
            && (0 <? length (savedConversations s))%nat); [|now left].
  destruct (find_conversation (currentConversationId s) (savedConversations s)) as [c|];
    [|now left].
  right. exists c.
  exact (savedConversations_markCurrent (conv_id c) s).
Qed.

(** The effect that runs after a switch leaves every entry as it is,
    up to [isCurrent]. *)
Lemma restoreLastEffect_sameRecord (s : AppState) :
  Forall2 sameRecord (savedConversations s) (savedConversations (restoreLastEffect s)).
Proof.
  destruct (restoreLastEffect_store s) as [H|[c H]]; rewrite H.
  - apply Forall2_sameRecord_refl.
  - apply markCurrent_sameRecord.
Qed.

(** When exactly a click commits: the four tests of the source, the
    second of which compares the message count with [window.length]. *)
Lemma handleClickConversation_commits_when (env : Env) (st : AppState)
    (target : SavedConversation) :
  handleClickConversation env st target =
  handleLoadConversation env st target
    (setInitializedRef false
       (if savesBeforeSwitch env st target then
          match currentConversationId st with
          | Some _ => saveCurrentConversation env st st
          | None => saveNewCurrentConversation env st st
          end
        else st)).
Proof.
  unfold handleClickConversation, savesBeforeSwitch.
  destruct (0 <? length (chatHistory st))%nat,
           (window_length env <? length (chatHistory st))%nat,
           (negb (option_string_eqb (currentConversationId st) (Some (conv_id target)))),
           (currentLen st <? length (chatHistory st))%nat; reflexivity.
Qed.

(** What [useSaveConversation] leaves in the store, which holds the text
    of the committed conversation: its dates are ISO texts there. *)
Lemma useSaveConversation_store (env : Env) (st : AppState) (theTitle : string) :
  chatHistory st <> [] ->
  let conv := mkConversation (DateObj (now env)) (commitId env (currentConversationId st))
                theTitle (chatHistory st) (DateObj (now env)) None in
  savedConversations (useSaveConversation env st theTitle st)
  = if negb (truthy_opt (currentConversationId st))
    then isoConversation conv :: savedConversations st
    else map (fun c => if String.eqb (conv_id c) (conv_id conv)
                       then isoConversation conv else c) (savedConversations st).
Proof.
  intros Hne conv. unfold useSaveConversation.
  assert (Hz : (length (chatHistory st) =? 0)%nat = false).
  { apply Nat.eqb_neq. destruct (chatHistory st); [contradiction | discriminate]. }
  rewrite Hz. fold conv.
  destruct (negb (truthy_opt (currentConversationId st))).
  - change (savedConversations
              (setCurrentConversationId (Some (conv_id conv))
                 (setSavedConversations (fun _ => conv :: savedConversations st) st)))
      with (reloadedStore (conv :: savedConversations st)).
    unfold reloadedStore at 1. cbn [map]. rewrite conversation_round_trip.
    fold (reloadedStore (savedConversations st)). now rewrite savedConversations_stored.
  - change (savedConversations
              (setCurrentConversationId (Some (conv_id conv))
                 (setSavedConversations
                    (fun _ => map (fun c => if String.eqb (conv_id c) (conv_id conv)
                                            then conv else c) (savedConversations st)) st)))
      with (reloadedStore
              (map (fun c => if String.eqb (conv_id c) (conv_id conv) then conv else c)
                   (savedConversations st))).
    rewrite <- (savedConversations_stored st) at 2.
    rewrite !reloadedStore_iso, !map_map. apply map_ext. intros c.
    cbn [isoConversation conv_id].
    now destruct (String.eqb (conv_id c) (conv_id conv)).
Qed.

(** The claim of C1 fails as stated.  First, without any commit the
    stored entry of the conversation that is left does change: viewing
    conversation A as saved and switching to B clears A's [isCurrent].
    Second, the test [chatHistory.length > length] reads [window.length]:
    in a window with three frames, conversation A grown from one to three
    messages is not committed by the switch.  Third, the commit under an
    active id only replaces entries: when the snapshot has brought back a
    chat whose entry is no longer in the store, the chat, longer than the
    count on record, is committed nowhere and the switch drops it. *)
Lemma switch_changes_the_entry_left :
  (length (chatHistory viewingA) <= currentLen viewingA /\
   find_conversation (Some "1300")
     (savedConversations (handleClickConversation (sampleEnv 1500) viewingA conversationB))
   <> find_conversation (Some "1300") (savedConversations viewingA)) /\
  (currentLen grownA < length (chatHistory grownA) /\
   option_map (fun c => length (messages c))
     (find_conversation (Some "1300")
        (savedConversations
           (handleClickConversation (mkEnv 1500 3 1280 (fun _ => "10:00:00"))
                                    grownA conversationB)))
   = Some 1) /\
  (currentConversationId orphanedChat = Some "1300" /\
   savedConversations orphanedChat = [negroniSaved] /\
   length (chatHistory orphanedChat) = 5 /\ currentLen orphanedChat = 0 /\
   let st' := handleClickConversation (sampleEnv 5000) orphanedChat negroniSaved in
   find_conversation (Some "1300") (savedConversations st') = None /\
   savedConversations st' = [with_isCurrent true negroniSaved] /\
   chatHistory st' = messages negroniSaved).
Proof.
  split; [split|split; [split|]].
  - vm_compute. lia.
  - vm_compute. discriminate.
  - vm_compute. lia.
  - reflexivity.
  - vm_compute. repeat split; reflexivity.
Qed.

(** C1, amended.  For a switch to a conversation other than the active
    one, made while [window.length] is below the active message count:
    if the active list is longer than the message count on record for the
    active id (0 when there is none), and the active id, when there is one,
    is the id of a stored entry, the list is committed first and the
    target loaded after, so that after the switch the entry under the
    committed id holds the active list, as the store holds any list: every
    [Date] as its ISO text, and the time of the commit.  If the active list
    is not longer than the count on record, nothing is committed: every
    stored entry keeps its id, title, messages, timestamp and [lastSaved];
    the switch only recomputes the [isCurrent] flags.  Both still hold
    after the effect that the switch sets off. *)
Theorem commit_before_switch :
  (forall env st target,
     option_string_eqb (currentConversationId st) (Some (conv_id target)) = false ->
     currentLen st < length (chatHistory st) ->
     window_length env < length (chatHistory st) ->
     (forall a, currentConversationId st = Some a -> truthy a = true ->
                In a (ids (savedConversations st))) ->
     let committed :=
       match currentConversationId st with
       | Some _ => saveCurrentConversation env st st
       | None => saveNewCurrentConversation env st st
       end in
     let st' := handleClickConversation env st target in
     st' = handleLoadConversation env st target (setInitializedRef false committed) /\
     (exists c,
        find_conversation (Some (commitId env (currentConversationId st)))
                          (savedConversations committed) = Some c /\
        messages c = map isoMessage (chatHistory st) /\
        lastSaved c = DateIso (now env)) /\
     (exists c,
        find_conversation (Some (commitId env (currentConversationId st)))
                          (savedConversations st') = Some c /\
        messages c = map isoMessage (chatHistory st) /\
        lastSaved c = DateIso (now env)) /\
     (exists c,
        find_conversation (Some (commitId env (currentConversationId st)))
                          (savedConversations (restoreLastEffect st')) = Some c /\
        messages c = map isoMessage (chatHistory st) /\
        lastSaved c = DateIso (now env)) /\
     chatHistory st' = messages target /\
     currentConversationId st' = Some (conv_id target)) /\
  (forall env st target,
     option_string_eqb (currentConversationId st) (Some (conv_id target)) = false ->
     length (chatHistory st) <= currentLen st ->
     let st' := handleClickConversation env st target in
     savedConversations st' = markCurrent (conv_id target) (savedConversations st) /\
     Forall2 sameRecord (savedConversations st) (savedConversations st') /\
     Forall2 sameRecord (savedConversations st)
             (savedConversations (restoreLastEffect st')) /\
     (forall i c,
        find_conversation (Some i) (savedConversations st) = Some c ->
        exists c',
          find_conversation (Some i) (savedConversations st') = Some c' /\
          sameRecord c c') /\
     chatHistory st' = messages target /\
     currentConversationId st' = Some (conv_id target)).
Proof.
  split.
  - intros env st target Hne Hlen Hwin Hin committed st'.
    assert (Hpos : (0 <? length (chatHistory st))%nat = true)
      by (apply Nat.ltb_lt; lia).
    assert (Hnil : chatHistory st <> [])
      by (intros E; rewrite E in Hlen; simpl in Hlen; lia).
    assert (Heq : st' = handleLoadConversation env st target
                          (setInitializedRef false committed)).
    { unfold st', handleClickConversation.
      rewrite Hpos, Hne. apply Nat.ltb_lt in Hwin, Hlen. rewrite Hwin, Hlen.
      reflexivity. }
    assert (Hcommitted : exists c,
        find_conversation (Some (commitId env (currentConversationId st)))
                          (savedConversations committed) = Some c /\
        messages c = map isoMessage (chatHistory st) /\
        lastSaved c = DateIso (now env)).
    { assert (Hstore : forall theTitle, exists c,
          find_conversation (Some (commitId env (currentConversationId st)))
            (savedConversations (useSaveConversation env st theTitle st)) = Some c /\
          messages c = map isoMessage (chatHistory st) /\
          lastSaved c = DateIso (now env)).
      { intros theTitle. rewrite (useSaveConversation_store env st theTitle Hnil).
        cbn [conv_id find_conversation].
        destruct (currentConversationId st) as [a|] eqn:Ecur.
        - cbn [truthy_opt commitId]. destruct (truthy a) eqn:Ta.
          + unfold or_else. rewrite Ta. cbn [negb].
            eexists. split; [|split].
            * apply (find_replaced
                       (isoConversation
                          (mkConversation (DateObj (now env)) a theTitle
                             (chatHistory st) (DateObj (now env)) None))).
              now apply Hin.
            * reflexivity.
            * reflexivity.
          + unfold or_else. rewrite Ta. cbn [negb].
            eexists. split; [|split].
            * cbn [find isoConversation conv_id]. rewrite String.eqb_refl. reflexivity.
            * reflexivity.
            * reflexivity.
        - cbn [truthy_opt commitId negb].
          eexists. split; [|split].
          + cbn [find isoConversation conv_id]. rewrite String.eqb_refl. reflexivity.
          + reflexivity.
          + reflexivity. }
      unfold committed, saveCurrentConversation, saveNewCurrentConversation.
      destruct (currentConversationId st); apply Hstore. }
    destruct (handleLoadConversation_switch env st
                (setInitializedRef false committed) target Hne) as (Hc & Hi & Hs).
    split; [exact Heq|]. split; [exact Hcommitted|].
    assert (Hafter : exists c,
        find_conversation (Some (commitId env (currentConversationId st)))
                          (savedConversations st') = Some c /\
        messages c = map isoMessage (chatHistory st) /\
        lastSaved c = DateIso (now env)).
    { rewrite Heq. destruct Hcommitted as [c (Hf & Hm & Hl)].
      exists (with_isCurrent (String.eqb (conv_id c) (conv_id target)) c).
      split; [|split; assumption].
      rewrite Hs. cbn [find_conversation] in *.
      rewrite find_markCurrent.
      change (savedConversations (setInitializedRef false committed))
        with (savedConversations committed).
      now rewrite Hf. }
    split; [exact Hafter|]. split; [|rewrite Heq; split; assumption].
    destruct Hafter as [c (Hf & Hm & Hl)]. cbn [find_conversation] in Hf.
    destruct (find_sameRecord _ _ _ c (restoreLastEffect_sameRecord st') Hf)
      as [c' [Hf' (_ & _ & Hm' & _ & Hl')]].
    exists c'. cbn [find_conversation]. split; [exact Hf'|]. split; congruence.
  - intros env st target Hne Hlen st'.
    assert (Heq : st' = handleLoadConversation env st target
                          (setInitializedRef false st)).
    { unfold st', handleClickConversation.
      assert (Hf : (currentLen st <? length (chatHistory st))%nat = false)
        by (apply Nat.ltb_ge; lia).
      rewrite Hf.
      destruct ((0 <? length (chatHistory st))%nat
                && (window_length env <? length (chatHistory st))%nat
                && negb (option_string_eqb (currentConversationId st)
                                           (Some (conv_id target))));
        reflexivity. }
    destruct (handleLoadConversation_switch env st
                (setInitializedRef false st) target Hne) as (Hc & Hi & Hs).
    change (savedConversations (setInitializedRef false st))
      with (savedConversations st) in Hs.
    assert (Hsame : Forall2 sameRecord (savedConversations st) (savedConversations st'))
      by (rewrite Heq, Hs; apply markCurrent_sameRecord).
    split; [rewrite Heq; exact Hs|]. split; [exact Hsame|].
    split; [exact (Forall2_sameRecord_trans _ _ _ Hsame
                     (restoreLastEffect_sameRecord st'))|].
    rewrite Heq. split; [|split; assumption].
    intros i c Hf. rewrite Hs. cbn [find_conversation] in *.
    rewrite find_markCurrent, Hf. simpl.
    eexists. split; [reflexivity|]. unfold sameRecord. simpl. auto.
Qed.

Lemma commit_before_switch_witness :
  (exists c,
     find_conversation (Some "1300")
       (savedConversations (handleClickConversation (sampleEnv 1500) grownA conversationB))
     = Some c /\
     messages c = map isoMessage (chatHistory grownA) /\ lastSaved c = DateIso 1500) /\
  Forall2 sameRecord (savedConversations viewingA)
    (savedConversations (handleClickConversation (sampleEnv 1500) viewingA conversationB)).
Proof.
  destruct commit_before_switch as [Hcommit Hkeep]. split.
  - destruct (Hcommit (sampleEnv 1500) grownA conversationB) as (_ & _ & H & _ & _).
    + reflexivity.
    + vm_compute. lia.
    + vm_compute. lia.
    + intros a Ha _. injection Ha as <-. vm_compute. auto.
    + exact H.
  - destruct (Hkeep (sampleEnv 1500) viewingA conversationB) as (_ & H & _).
    + reflexivity.
    + vm_compute. lia.
    + exact H.
Defined.

(** ** The store over the runs of the application *)

Lemma toString_inj (a b : N) : toString a = toString b -> a = b.
Proof.
  unfold toString. intros H.
  apply (f_equal NilZero.uint_of_string) in H.
  rewrite !NilZero.usu in H.
  - injection H as H. now apply DecimalN.Unsigned.to_uint_inj.
  - destruct b; simpl; [discriminate|]. intros E.
    apply (f_equal Pos.of_uint) in E. rewrite DecimalPos.Unsigned.of_to in E.
    discriminate.
  - destruct a; simpl; [discriminate|]. intros E.
    apply (f_equal Pos.of_uint) in E. rewrite DecimalPos.Unsigned.of_to in E.
    discriminate.
Qed.

Lemma ids_markCurrent (target : string) (l : list SavedConversation) :
  ids (markCurrent target l) = ids l.
Proof. unfold ids, markCurrent. rewrite map_map. reflexivity. Qed.

Lemma ids_clearCurrent (l : list SavedConversation) : ids (clearCurrent l) = ids l.
Proof. unfold ids, clearCurrent. rewrite map_map. reflexivity. Qed.

Lemma ids_map_same (f : SavedConversation -> SavedConversation)
    (l : list SavedConversation) :
  (forall x, conv_id (f x) = conv_id x) -> ids (map f l) = ids l.
Proof.
  intros H. unfold ids. rewrite map_map. apply map_ext. exact H.
Qed.

Lemma currentCount_map_le (f : SavedConversation -> SavedConversation)
    (l : list SavedConversation) :
  (forall x, flag (isCurrent (f x)) = true -> flag (isCurrent x) = true) ->
  currentCount (map f l) <= currentCount l.
Proof.
  intros H. unfold currentCount. induction l as [|x l IH]; simpl; [lia|].
  destruct (flag (isCurrent (f x))) eqn:E.
  - rewrite (H x E). simpl. lia.
  - destruct (flag (isCurrent x)); simpl; lia.
Qed.

Lemma currentCount_filter_le (f : SavedConversation -> bool)
    (l : list SavedConversation) : currentCount (filter f l) <= currentCount l.
Proof.
  unfold currentCount. induction l as [|x l IH]; simpl; [lia|].
  destruct (f x); simpl; destruct (flag (isCurrent x)); simpl; lia.
Qed.

Lemma currentCount_markCurrent_absent (target : string) (l : list SavedConversation) :
  ~ In target (ids l) -> currentCount (markCurrent target l) = 0.
Proof.
  unfold currentCount. induction l as [|x l IH]; simpl; [reflexivity|].
  intros H. destruct (String.eqb_spec (conv_id x) target) as [E|E].
  - exfalso. apply H. now left.
  - simpl. apply IH. intros Hin. apply H. now right.
Qed.

Lemma currentCount_markCurrent (target : string) (l : list SavedConversation) :
  NoDup (ids l) -> currentCount (markCurrent target l) <= 1.
Proof.
  induction l as [|x l IH]; simpl; intros Hnd; [unfold currentCount; simpl; lia|].
  inversion Hnd as [|? ? Hnotin Hnd']; subst.
  unfold currentCount in *. simpl.
  destruct (String.eqb_spec (conv_id x) target) as [E|E]; simpl.
  - subst target.
    pose proof (currentCount_markCurrent_absent (conv_id x) l Hnotin) as H0.
    unfold currentCount in H0. rewrite H0. lia.
  - now apply IH.
Qed.

Lemma ids_filter_subset (f : SavedConversation -> bool) (l : list SavedConversation) i :
  In i (ids (filter f l)) -> In i (ids l).
Proof.
  unfold ids. rewrite !in_map_iff. intros [x [Hx Hin]].
  apply filter_In in Hin as [Hin _]. now exists x.
Qed.

Lemma NoDup_ids_filter (f : SavedConversation -> bool) (l : list SavedConversation) :
  NoDup (ids l) -> NoDup (ids (filter f l)).
Proof.
  induction l as [|x l IH]; simpl; intros Hnd; [constructor|].
  inversion Hnd as [|? ? Hnotin Hnd']; subst.
  destruct (f x); simpl; [|now apply IH].
  constructor; [|now apply IH].
  intros Hin. apply Hnotin. now apply ids_filter_subset in Hin.
Qed.

Lemma insertByTimestamp_perm (c : SavedConversation) (l : list SavedConversation) :
  Permutation (insertByTimestamp c l) (c :: l).
Proof.
  induction l as [|d l IH]; simpl; [reflexivity|].
  destruct (getTime (conv_timestamp c) <? getTime (conv_timestamp d))%N.
  - rewrite IH. apply perm_swap.
  - reflexivity.
Qed.

Lemma sortConversationsByTimestamp_perm (l : list SavedConversation) :
  Permutation (sortConversationsByTimestamp l) l.
Proof.
  induction l as [|c l IH]; simpl; [reflexivity|].
  rewrite insertByTimestamp_perm. now constructor.
Qed.

Lemma currentCount_perm (l l' : list SavedConversation) :
  Permutation l l' -> currentCount l = currentCount l'.
Proof.
  unfold currentCount. induction 1 as [|x l l' _ IH|x y l|l l' l'' _ IH1 _ IH2]; simpl.
  - reflexivity.
  - destruct (flag (isCurrent x)); simpl; lia.
  - destruct (flag (isCurrent x)), (flag (isCurrent y)); reflexivity.
  - lia.
Qed.

(** *** What the operations on the store leave in it *)

Lemma stored_In (l : list SavedConversation) (c : SavedConversation) :
  reloadedStore l = l -> In c l -> isoConversation c = c.
Proof.
  rewrite reloadedStore_iso. induction l as [|x l IH]; simpl; [contradiction|].
  intros H. injection H as Hx Hl. intros [<-|Hin]; [exact Hx | now apply IH].
Qed.

Lemma savedConversations_In (s : AppState) (c : SavedConversation) :
  In c (savedConversations s) -> isoConversation c = c.
Proof. apply stored_In, savedConversations_stored. Qed.

Lemma restoreSnapshotEffect_store (ls : LocalStorage) (st : AppState) :
  savedConversations (restoreSnapshotEffect ls st) = savedConversations st.
Proof.
  unfold restoreSnapshotEffect.
  destruct ls as [[text|] [i|]]; cbn [item_currentChatHistory item_currentConversationId];
    try reflexivity;
    destruct (truthy i && negb (i =? "null")%string); reflexivity.
Qed.

Lemma handleDeleteConversation_store (i : string) (st : AppState) :
  savedConversations (handleDeleteConversation i st)
  = filter (fun convo => negb (String.eqb (conv_id convo) i)) (savedConversations st).
Proof.
  unfold handleDeleteConversation.
  destruct (option_string_eqb (Some i) (currentConversationId st));
    exact (savedConversations_filter
             (fun convo => negb (String.eqb (conv_id convo) i)) st (fun c => eq_refl)).
Qed.

(** The record [handleNewChat] writes over the entries with the active id. *)
Lemma handleNewChat_begin_store (env : Env) (st : AppState) :
  savedConversations (fst (handleNewChat_begin env st))
  = match currentConversationId st with
    | Some cid =>
        if (0 <? length (chatHistory st))%nat && truthy cid then
          map (fun convo =>
                 if String.eqb (conv_id convo) cid
                 then mkConversation (DateIso (now env)) (conv_id convo) (title convo)
                        (map isoMessage (chatHistory st)) (DateIso (now env))
                        (Some false)
                 else with_isCurrent false convo) (savedConversations st)
        else clearCurrent (savedConversations st)
    | None => clearCurrent (savedConversations st)
    end.
Proof.
  pose proof (savedConversations_clearCurrent (setCurrentConversationId None st)) as H1.
  change (savedConversations (setCurrentConversationId None st))
    with (savedConversations st) in H1.
  unfold handleNewChat_begin.
  destruct (0 <? length (chatHistory st))%nat; cbn [andb].
  - destruct (currentConversationId st) as [cid|]; [|exact H1].
    destruct (truthy cid); [|exact H1]. cbn [fst].
    match goal with
    | |- savedConversations (clearSession (setSavedConversations ?f ?s1)) = _ =>
        change (savedConversations (clearSession (setSavedConversations f s1)))
          with (reloadedStore (f (savedConversations s1)))
    end.
    rewrite H1, reloadedStore_iso. unfold clearCurrent. rewrite !map_map.
    apply map_ext_in. intros c Hc. cbn [with_isCurrent conv_id title isCurrent].
    destruct (String.eqb (conv_id c) cid); [reflexivity|].
    pose proof (savedConversations_In st c Hc) as Hfix.
    rewrite <- Hfix at 2. reflexivity.
  - cbn [fst].
    match goal with
    | |- savedConversations (clearSession (setSavedConversations clearCurrent ?s1)) = _ =>
        change (savedConversations (clearSession (setSavedConversations clearCurrent s1)))
          with (savedConversations (setSavedConversations clearCurrent s1));
        rewrite (savedConversations_clearCurrent s1)
    end.
    rewrite H1. unfold clearCurrent. rewrite map_map.
    destruct (currentConversationId st); reflexivity.
Qed.

Lemma handleNewChat_resume_store (env : Env) (p : NewChatPending)
    (remote : settled TitleResponse) (s : AppState) :
  savedConversations (handleNewChat_resume env p remote s) =
  sortConversationsByTimestamp
    (mkConversation (DateIso (pending_now p)) (pending_newId p)
       (generateAutoTitle env (pending_messages p) (pending_now p) remote)
       (map isoMessage (pending_messages p)) (DateIso (pending_now p)) (Some false)
     :: filter (fun convo => negb (String.eqb (conv_id convo) (pending_newId p)))
               (savedConversations s)).
Proof.
  unfold handleNewChat_resume.
  match goal with
  | |- savedConversations
         (clearSession (setSavedConversations sortConversationsByTimestamp
                          (setSavedConversations ?f s))) = _ =>
      change (savedConversations
                (clearSession (setSavedConversations sortConversationsByTimestamp
                                 (setSavedConversations f s))))
        with (reloadedStore
                (sortConversationsByTimestamp (reloadedStore (f (savedConversations s)))))
  end.
  rewrite reloadedStore_sort, reloadedStore_idempotent.
  unfold reloadedStore at 1. cbn [map]. rewrite conversation_round_trip.
  fold (reloadedStore
          (filter (fun convo => negb (String.eqb (conv_id convo) (pending_newId p)))
                  (savedConversations s))).
  rewrite (reloadedStore_filter
             (fun convo => negb (String.eqb (conv_id convo) (pending_newId p))) _
             (fun c => eq_refl)), savedConversations_stored.
  reflexivity.
Qed.

(** *** [goodStore] and the operations on the store *)

Lemma goodStore_markCurrent (target : string) (l : list SavedConversation) :
  goodStore l -> goodStore (markCurrent target l).
Proof.
  intros (Hnd & Hcur). unfold goodStore. rewrite ids_markCurrent.
  split; [assumption | now apply currentCount_markCurrent].
Qed.

Lemma goodStore_map (f : SavedConversation -> SavedConversation)
    (l : list SavedConversation) :
  (forall x, conv_id (f x) = conv_id x) ->
  (forall x, flag (isCurrent (f x)) = true -> flag (isCurrent x) = true) ->
  goodStore l -> goodStore (map f l).
Proof.
  intros Hid Hflag (Hnd & Hcur). unfold goodStore.
  rewrite (ids_map_same f l Hid). split; [assumption|].
  pose proof (currentCount_map_le f l Hflag). lia.
Qed.

Lemma goodStore_clearCurrent (l : list SavedConversation) :
  goodStore l -> goodStore (clearCurrent l).
Proof.
  apply goodStore_map; [reflexivity | simpl; discriminate].
Qed.

Lemma goodStore_filter (f : SavedConversation -> bool) (l : list SavedConversation) :
  goodStore l -> goodStore (filter f l).
Proof.
  intros (Hnd & Hcur). split.
  - now apply NoDup_ids_filter.
  - pose proof (currentCount_filter_le f l). lia.
Qed.

Lemma goodStore_cons_fresh (x : SavedConversation) (l : list SavedConversation) :
  goodStore l -> ~ In (conv_id x) (ids l) -> flag (isCurrent x) = false ->
  goodStore (x :: l).
Proof.
  intros (Hnd & Hcur) Hfresh Hflag. split.
  - simpl. now constructor.
  - unfold currentCount in *. simpl. rewrite Hflag. exact Hcur.
Qed.

Lemma goodStore_cons_filtered (x : SavedConversation) (l : list SavedConversation) :
  goodStore l -> flag (isCurrent x) = false ->
  goodStore (x :: filter (fun convo => negb (String.eqb (conv_id convo) (conv_id x))) l).
Proof.
  intros Hgood Hflag.
  apply goodStore_cons_fresh; [now apply goodStore_filter| |exact Hflag].
  unfold ids. rewrite in_map_iff. intros [y [Hy Hin]].
  apply filter_In in Hin as [_ Hne].
  rewrite Hy, String.eqb_refl in Hne. discriminate.
Qed.

Lemma goodStore_perm (l l' : list SavedConversation) :
  Permutation l l' -> goodStore l -> goodStore l'.
Proof.
  intros Hp (Hnd & Hcur).
  assert (Hpi : Permutation (ids l) (ids l')) by now apply Permutation_map.
  split.
  - eapply Permutation_NoDup; eassumption.
  - now rewrite <- (currentCount_perm l l' Hp).
Qed.

Lemma goodStore_sort (l : list SavedConversation) :
  goodStore l -> goodStore (sortConversationsByTimestamp l).
Proof.
  apply goodStore_perm. symmetry. apply sortConversationsByTimestamp_perm.
Qed.

#[local] Hint Resolve goodStore_markCurrent goodStore_clearCurrent goodStore_filter
  goodStore_sort : store.

Lemma useSaveConversation_good (env : Env) (st : AppState) (theTitle : string) :
  goodStore (savedConversations st) ->
  (chatHistory st <> [] -> truthy_opt (currentConversationId st) = false ->
   ~ In (toString (now env)) (ids (savedConversations st))) ->
  goodStore (savedConversations (useSaveConversation env st theTitle st)).
Proof.
  intros Hgood Hfresh.
  destruct (chatHistory st) as [|m h] eqn:Eh.
  - unfold useSaveConversation. rewrite Eh. exact Hgood.
  - assert (Hne : chatHistory st <> []) by (rewrite Eh; discriminate).
    rewrite (useSaveConversation_store env st theTitle Hne).
    destruct (truthy_opt (currentConversationId st)) eqn:Et; cbn [negb].
    + apply goodStore_map; [| |exact Hgood]; intros x; cbn [isoConversation conv_id].
      * destruct (String.eqb_spec (conv_id x) (commitId env (currentConversationId st)));
          [now simpl | reflexivity].
      * destruct (String.eqb (conv_id x) (commitId env (currentConversationId st)));
          [simpl; discriminate | auto].
    + apply goodStore_cons_fresh; [exact Hgood| |reflexivity].
      cbn [isoConversation conv_id]. unfold commitId.
      destruct (currentConversationId st) as [a|]; [|now apply Hfresh].
      simpl in Et. unfold or_else. rewrite Et. now apply Hfresh.
Qed.

Lemma handleLoadConversation_good (env : Env) (cl s : AppState)
    (target : SavedConversation) :
  goodStore (savedConversations s) ->
  goodStore (savedConversations (handleLoadConversation env cl target s)).
Proof.
  intros Hgood.
  destruct (option_string_eqb (currentConversationId cl) (Some (conv_id target))) eqn:E.
  - unfold handleLoadConversation. rewrite option_string_eqb_sym, E. exact Hgood.
  - destruct (handleLoadConversation_switch env cl s target E) as (_ & _ & ->).
    auto with store.
Qed.

Lemma handleClickConversation_good (env : Env) (st : AppState)
    (target : SavedConversation) :
  goodStore (savedConversations st) ->
  (insertsOnSwitch env st target = true ->
   ~ In (toString (now env)) (ids (savedConversations st))) ->
  goodStore (savedConversations (handleClickConversation env st target)).
Proof.
  intros Hgood Hfresh. rewrite handleClickConversation_commits_when.
  apply handleLoadConversation_good.
  match goal with
  | |- goodStore (savedConversations (setInitializedRef false ?s)) =>
      change (savedConversations (setInitializedRef false s))
        with (savedConversations s)
  end.
  unfold insertsOnSwitch in Hfresh.
  destruct (savesBeforeSwitch env st target); [|exact Hgood].
  cbn [andb] in Hfresh.
  assert (Hsave : forall theTitle,
            goodStore (savedConversations (useSaveConversation env st theTitle st))).
  { intros theTitle. apply useSaveConversation_good; [exact Hgood|].
    intros _ Et. apply Hfresh. now rewrite Et. }
  destruct (currentConversationId st);
    unfold saveCurrentConversation, saveNewCurrentConversation; apply Hsave.
Qed.

Lemma restoreLastEffect_good (st : AppState) :
  goodStore (savedConversations st) ->
  goodStore (savedConversations (restoreLastEffect st)).
Proof.
  intros Hgood. destruct (restoreLastEffect_store st) as [H|[c H]]; rewrite H;
    auto with store.
Qed.

Lemma handleDeleteConversation_good (i : string) (st : AppState) :
  goodStore (savedConversations st) ->
  goodStore (savedConversations (handleDeleteConversation i st)).
Proof.
  intros Hgood. rewrite handleDeleteConversation_store. auto with store.
Qed.

Lemma handleNewChat_begin_good (env : Env) (st : AppState) :
  goodStore (savedConversations st) ->
  goodStore (savedConversations (fst (handleNewChat_begin env st))).
Proof.
  intros Hgood. rewrite handleNewChat_begin_store.
  destruct (currentConversationId st) as [cid|]; [|auto with store].
  destruct ((0 <? length (chatHistory st))%nat && truthy cid); [|auto with store].
  apply goodStore_map; [| |exact Hgood]; intros x;
    destruct (String.eqb (conv_id x) cid); simpl; auto; discriminate.
Qed.

Lemma handleNewChat_resume_good (env : Env) (p : NewChatPending)
    (remote : settled TitleResponse) (s : AppState) :
  goodStore (savedConversations s) ->
  goodStore (savedConversations (handleNewChat_resume env p remote s)).
Proof.
  intros Hgood. rewrite handleNewChat_resume_store.
  apply goodStore_sort.
  apply (goodStore_cons_filtered
           (mkConversation (DateIso (pending_now p)) (pending_newId p)
              (generateAutoTitle env (pending_messages p) (pending_now p) remote)
              (map isoMessage (pending_messages p)) (DateIso (pending_now p))
              (Some false)));
    auto.
Qed.

Lemma step_good (env : Env) (ev : Event) (w : World) :
  goodStore (savedConversations (appState w)) ->
  freshOnInsert env ev w ->
  goodStore (savedConversations (appState (step env ev w))).
Proof.
  intros Hgood Hev. cbn [step appState].
  destruct ev; cbn [stepApp]; try exact Hgood.
  - unfold handleSendMessage_begin.
    destruct (negb (truthy (trim (questionInput (appState w))))
              || isLoading (appState w)); exact Hgood.
  - destruct outcome; exact Hgood.
  - now apply handleClickConversation_good.
  - now apply restoreLastEffect_good.
  - now apply handleDeleteConversation_good.
  - now apply handleNewChat_begin_good.
  - now apply handleNewChat_resume_good.
  - destruct (handleLike replies index); exact Hgood.
  - destruct (handleDislike replies index); exact Hgood.
  - unfold saveStateBeforeUnload. cbn [snd].
    destruct ((0 <? length (chatHistory (appState w)))%nat
              && negb (truthy_opt (currentConversationId (appState w))));
      [now apply handleNewChat_begin_good | exact Hgood].
  - rewrite restoreSnapshotEffect_store.
    change (savedConversations
              (initialState (reloadedStore (savedConversations (appState w)))
                            (searchText (appState w))))
      with (reloadedStore (reloadedStore (savedConversations (appState w)))).
    now rewrite reloadedStore_idempotent, savedConversations_stored.
Qed.

Lemma freshRun_goodStore (w : World) :
  freshRun w -> goodStore (savedConversations (appState w)).
Proof.
  induction 1 as [|w env ev _ IH Hen].
  - split; simpl; [constructor | unfold currentCount; simpl; lia].
  - now apply step_good.
Qed.

Lemma freshRun_runFrom (events : list (Env * Event)) (w : World) :
  freshRun w -> runFresh w events -> freshRun (runFrom w events).
Proof.
  revert w. induction events as [|e events IH]; intros w Hw Hok; simpl; [exact Hw|].
  destruct Hok as [Hen Hok]. apply IH; [|exact Hok].
  now apply freshRun_step.
Qed.

(** ** An id stored twice *)

(** C6.  The id that [useSaveConversation] gives to a chat saved for the
    first time is the clock reading, and the entry goes to the head of the
    list unchecked: [handleNewChat], which also takes the id from the
    clock, drops an entry with the same id before it inserts.  In the run
    below the first chat is stored under the reading 1300; the clock is set
    back while the second chat is open, and the click that saves the second
    chat reads 1300 again.  Before the click the ids are distinct; after it
    the store holds the id 1300 twice, for two different chats. *)
Theorem head_insert_can_repeat_an_id :
  let before := appState (runFrom initialWorld (firstChatRun ++ secondChatRun)) in
  let after := appState clockSetBack in
  ids (savedConversations before) = ["1300"] /\
  currentConversationId before = None /\
  length (chatHistory before) = 2 /\
  insertsOnSwitch (sampleEnv 1300) before spritzSaved = true /\
  ids (savedConversations after) = ["1300"; "1300"] /\
  map (fun c => length (messages c)) (savedConversations after) = [2; 3] /\
  ~ NoDup (ids (savedConversations after)).
Proof.
  cbv zeta. repeat split; try reflexivity.
  assert (E : ids (savedConversations (appState clockSetBack)) = ["1300"; "1300"])
    by reflexivity.
  rewrite E. intros H. inversion H as [|? ? Hnotin _]; subst.
  apply Hnotin. now left.
Qed.

(** ** Two conversations flagged as current *)

(** C5.  Loading a conversation flags every entry with its id.  In the run
    of C6, in which the store comes to hold the id 1300 twice, the click
    loads the conversation 1300 and both entries are flagged: the store has
    two current conversations, before and after the effect that follows the
    click. *)
Theorem two_conversations_flagged_current :
  let before := appState (runFrom initialWorld (firstChatRun ++ secondChatRun)) in
  let clicked := handleClickConversation (sampleEnv 1300) before spritzSaved in
  currentCount (savedConversations before) = 0 /\
  currentCount (savedConversations clicked) = 2 /\
  appState clockSetBack = restoreLastEffect clicked /\
  currentCount (savedConversations (appState clockSetBack)) = 2 /\
  map isCurrent (savedConversations (appState clockSetBack)) = [Some true; Some true] /\
  ~ currentCount (savedConversations (appState clockSetBack)) <= 1.
Proof.
  cbv zeta. repeat split; try reflexivity.
  assert (E : currentCount (savedConversations (appState clockSetBack)) = 2)
    by reflexivity.
  rewrite E. lia.
Qed.

(** ** Replies and their ids *)

Lemma allDigits_uint (d : Decimal.uint) : allDigits (NilEmpty.string_of_uint d) = true.
Proof. induction d; simpl; auto. Qed.

Lemma allDigits_toString (n : N) : allDigits (toString n) = true.
Proof.
  unfold toString, NilZero.string_of_uint.
  destruct (N.to_uint n) as [|d|d|d|d|d|d|d|d|d|d]; [reflexivity|..].
  - exact (allDigits_uint (Decimal.D0 d)).
  - exact (allDigits_uint (Decimal.D1 d)).
  - exact (allDigits_uint (Decimal.D2 d)).
  - exact (allDigits_uint (Decimal.D3 d)).
  - exact (allDigits_uint (Decimal.D4 d)).
  - exact (allDigits_uint (Decimal.D5 d)).
  - exact (allDigits_uint (Decimal.D6 d)).
  - exact (allDigits_uint (Decimal.D7 d)).
  - exact (allDigits_uint (Decimal.D8 d)).
  - exact (allDigits_uint (Decimal.D9 d)).
Qed.

(** A text starts with at most one numeral followed by [-ai]. *)
Lemma numeral_prefix_unique (d1 d2 s : string) :
  allDigits d1 = true -> allDigits d2 = true ->
  startsWith s (d1 ++ "-ai")%string = true ->
  startsWith s (d2 ++ "-ai")%string = true -> d1 = d2.
Proof.
  revert d2 s. induction d1 as [|a d1 IH]; intros [|b d2] s H1 H2 P1 P2.
  - reflexivity.
  - exfalso. destruct s as [|c s]; simpl in P1, P2; [discriminate|].
    apply andb_true_iff in P1 as [P1 _], P2 as [P2 _].
    apply Ascii.eqb_eq in P1, P2. subst c. subst b. discriminate.
  - exfalso. destruct s as [|c s]; simpl in P1, P2; [discriminate|].
    apply andb_true_iff in P1 as [P1 _], P2 as [P2 _].
    apply Ascii.eqb_eq in P1, P2. subst c. subst a. discriminate.
  - destruct s as [|c s]; simpl in P1, P2; [discriminate|].
    apply andb_true_iff in P1 as [E1 P1], P2 as [E2 P2].
    apply Ascii.eqb_eq in E1, E2. subst a b.
    simpl in H1, H2. apply andb_true_iff in H1 as [_ H1], H2 as [_ H2].
    f_equal. exact (IH d2 s H1 H2 P1 P2).
Qed.

Lemma reading_of_prefix (t t' : N) (s : string) :
  startsWith s (toString t ++ "-ai")%string = true ->
  startsWith s (toString t' ++ "-ai")%string = true -> t = t'.
Proof.
  intros P1 P2. apply toString_inj.
  exact (numeral_prefix_unique _ _ s (allDigits_toString t) (allDigits_toString t') P1 P2).
Qed.

Lemma filter_all {A} (f : A -> bool) (l : list A) :
  Forall (fun x => f x = true) l -> filter f l = l.
Proof.
  induction 1 as [|x l Hx _ IH]; simpl; [reflexivity|]. now rewrite Hx, IH.
Qed.

Lemma filter_none {A} (f : A -> bool) (l : list A) :
  Forall (fun x => f x = false) l -> filter f l = [].
Proof.
  induction 1 as [|x l Hx _ IH]; simpl; [reflexivity|]. now rewrite Hx.
Qed.

Lemma nth_error_mapi_from {A B} (f : A -> nat -> B) (l : list A) (i n : nat) :
  nth_error (mapi_from i f l) n = option_map (fun x => f x (i + n)) (nth_error l n).
Proof.
  revert i n. induction l as [|x l IH]; intros i [|n]; simpl; try reflexivity.
  - now rewrite Nat.add_0_r.
  - rewrite IH. now rewrite Nat.add_succ_r.
Qed.

Lemma length_mapi_from {A B} (f : A -> nat -> B) (l : list A) (i : nat) :
  length (mapi_from i f l) = length l.
Proof. revert i. induction l as [|x l IH]; intros i; simpl; auto. Qed.

Lemma Forall_mapi_from {A B} (P : B -> Prop) (f : A -> nat -> B) (l : list A) (i : nat) :
  (forall x n, P (f x n)) -> Forall P (mapi_from i f l).
Proof.
  intros H. revert i. induction l as [|x l IH]; intros i; simpl; constructor; auto.
Qed.

(** *** Grouping by position *)

Lemma fold_groupStep_replies (rs : list Message) (groups : list Group)
    (u : Message) (r0 : list Message) :
  Forall (fun r => role r = assistant) rs ->
  fold_left groupStep rs (groups, Some u, r0) = (groups, Some u, r0 ++ rs).
Proof.
  intros H. revert r0. induction H as [|r rs Hr _ IH]; intros r0; simpl.
  - now rewrite app_nil_r.
  - rewrite Hr. rewrite IH. now rewrite <- app_assoc.
Qed.

Lemma messageGroups_turn (h : list Message) (u : Message) (rs : list Message) :
  role u = user -> Forall (fun r => role r = assistant) rs ->
  messageGroups (h ++ u :: rs) = messageGroups h ++ [mkGroup u rs].
Proof.
  intros Hu Hrs. unfold messageGroups. rewrite fold_left_app. simpl.
  destruct (fold_left groupStep h ([], None, [])) as [[groups cur] replies].
  simpl. rewrite Hu.
  rewrite (fold_groupStep_replies rs _ u [] Hrs). reflexivity.
Qed.

(** *** Grouping by id *)

Lemma turnsHistory_ofATurn (readings : list N) (h : list Message) :
  turnsHistory readings h -> Forall (ofATurn readings) h.
Proof.
  induction 1 as [|readings h t u rs _ IH Hnew Hu Hid Hrs]; [constructor|].
  apply Forall_app. split; [|constructor].
  - eapply Forall_impl; [|exact IH].
    intros m [t' [Hin Hm]]. exists t'. split; [now right | exact Hm].
  - exists t. split; [now left | left; auto].
  - eapply Forall_impl; [|exact Hrs].
    intros r [Hr Hp]. exists t. split; [now left|]. right. split; [exact Hr|].
    now rewrite <- Hid.
Qed.

Lemma repliesById_app (u : Message) (h h' : list Message) :
  repliesById u (h ++ h') = repliesById u h ++ repliesById u h'.
Proof. apply filter_app. Qed.

Lemma repliesById_other_turn (readings : list N) (t : N) (u : Message)
    (l : list Message) :
  ~ In t readings -> id u = toString t -> Forall (ofATurn readings) l ->
  repliesById u l = [].
Proof.
  intros Hnew Hid Hl. apply filter_none.
  eapply Forall_impl; [|exact Hl].
  intros m [t' [Hin [[Hr _]|[Hr Hp]]]]; rewrite Hr; simpl; [reflexivity|].
  destruct (startsWith (id m) (id u ++ "-ai")%string) eqn:E; [|reflexivity].
  exfalso. rewrite Hid in E. apply Hnew.
  now rewrite (reading_of_prefix t t' (id m) E Hp).
Qed.

Lemma repliesById_own_turn (u : Message) (rs : list Message) :
  Forall (fun r => role r = assistant /\
                   startsWith (id r) (id u ++ "-ai")%string = true) rs ->
  repliesById u rs = rs.
Proof.
  intros H. apply filter_all. eapply Forall_impl; [|exact H].
  intros r [Hr Hp]. now rewrite Hr, Hp.
Qed.

Lemma repliesById_later_turn (readings : list N) (t : N) (u v : Message)
    (rs : list Message) :
  ~ In t readings -> role u = user -> id u = toString t ->
  Forall (fun r => role r = assistant /\
                   startsWith (id r) (id u ++ "-ai")%string = true) rs ->
  ofATurn readings v -> role v = user ->
  repliesById v (u :: rs) = [].
Proof.
  intros Hnew Hu Hid Hrs [t' [Hin Hv]] Hrole.
  destruct Hv as [[_ Hidv]|[Hr _]]; [|congruence].
  unfold repliesById. simpl. rewrite Hu. simpl. apply filter_none.
  eapply Forall_impl; [|exact Hrs].
  intros r [Hr Hp]. rewrite Hr. simpl.
  destruct (startsWith (id r) (id v ++ "-ai")%string) eqn:E; [|reflexivity].
  exfalso. rewrite Hid in Hp. rewrite Hidv in E. apply Hnew.
  now rewrite (reading_of_prefix t t' (id r) Hp E).
Qed.

Lemma filter_isUser_replies (rs : list Message) :
  Forall (fun r => role r = assistant) rs -> filter isUser rs = [].
Proof.
  intros H. apply filter_none. eapply Forall_impl; [|exact H].
  intros r Hr. unfold isUser. now rewrite Hr.
Qed.

(** In a history of whole turns the groups [MessageList] forms by
    position are those the ids give. *)
Lemma turnsHistory_groups (readings : list N) (h : list Message) :
  turnsHistory readings h ->
  messageGroups h = map (fun v => mkGroup v (repliesById v h)) (filter isUser h).
Proof.
  induction 1 as [|readings h t u rs Hturns IH Hnew Hu Hid Hrs]; [reflexivity|].
  assert (Hroles : Forall (fun r => role r = assistant) rs)
    by (eapply Forall_impl; [|exact Hrs]; now intros r [Hr _]).
  pose proof (turnsHistory_ofATurn readings h Hturns) as Hshape.
  assert (Husers : filter isUser (h ++ u :: rs) = filter isUser h ++ [u]).
  { rewrite filter_app. f_equal. cbn [filter]. unfold isUser at 1. rewrite Hu.
    cbn [Role_eqb]. now rewrite (filter_isUser_replies rs Hroles). }
  rewrite (messageGroups_turn h u rs Hu Hroles), IH, Husers.
  rewrite map_app. cbn [map]. f_equal.
  - apply map_ext_in. intros v Hv. apply filter_In in Hv as [Hv Hrole].
    f_equal. rewrite repliesById_app.
    rewrite (repliesById_later_turn readings t u v rs Hnew Hu Hid Hrs).
    + now rewrite app_nil_r.
    + rewrite Forall_forall in Hshape. now apply Hshape.
    + unfold isUser in Hrole. now destruct (role v).
  - f_equal. f_equal. rewrite repliesById_app.
    rewrite (repliesById_other_turn readings t u h Hnew Hid Hshape).
    cbn [app]. unfold repliesById. cbn [filter]. rewrite Hu. cbn [Role_eqb andb].
    symmetry. now apply repliesById_own_turn.
Qed.

Lemma startsWith_refl (s : string) : startsWith s s = true.
Proof.
  induction s as [|c s IH]; simpl; [reflexivity|]. now rewrite Ascii.eqb_refl.
Qed.

Lemma aiMessagesOf_shape (env : Env) (u : Message) (response : AnswerResponse) :
  Forall (fun m => role m = assistant /\ question m = "" /\
                   startsWith (id m) (id u ++ "-ai")%string = true)
         (aiMessagesOf env u response).
Proof.
  destruct response as [items|]; cbn [aiMessagesOf].
  - apply Forall_mapi_from. intros x n.
    cbn [aiMessageOfItem role question id]. repeat split.
    change (id u ++ "-ai-" ++ toString (N.of_nat n))%string
      with (id u ++ ("-ai" ++ ("-" ++ toString (N.of_nat n))))%string.
    rewrite <- append_assoc. apply startsWith_app.
  - constructor; [|constructor].
    cbn [fallbackMessage role question id]. repeat split.
    apply startsWith_refl.
Qed.

(** The claim of C10 fails in its last part.  An answer that arrives
    after a switch is appended to the list then on screen: the question
    2000 was asked in an unsaved chat, the user switched to conversation B
    while the call was out, and the reply lands under the question 800 of
    B, where [MessageList] shows it by position; its id names the question
    2000, and by ids the question 800 has no reply.  And when the clock is
    set back between two sends, so that both questions get the id 1000, the
    id prefix gives to each question the replies of both. *)
Lemma late_answer_joins_the_list_on_screen :
  (map id (chatHistory answerAfterSwitch) = ["800"; "2000-ai-0"] /\
   map (fun g => (id (userMsg g), map id (aiReplies g)))
       (messageGroups (chatHistory answerAfterSwitch))
     = [("800", ["2000-ai-0"])] /\
   map (fun v => (id v, map id (repliesById v (chatHistory answerAfterSwitch))))
       (filter isUser (chatHistory answerAfterSwitch))
     = [("800", [])] /\
   messageGroups (chatHistory answerAfterSwitch)
     <> map (fun v => mkGroup v (repliesById v (chatHistory answerAfterSwitch)))
            (filter isUser (chatHistory answerAfterSwitch))) /\
  (map id (chatHistory sameReadingChat) = ["1000"; "1000-ai-0"; "1000"; "1000-ai-0"] /\
   map (fun g => map answer (aiReplies g)) (messageGroups (chatHistory sameReadingChat))
     = [["A wine-based cocktail."]; ["product_summary: display stand"]] /\
   map (fun v => map answer (repliesById v (chatHistory sameReadingChat)))
       (filter isUser (chatHistory sameReadingChat))
     = [["A wine-based cocktail."; "product_summary: display stand"];
        ["A wine-based cocktail."; "product_summary: display stand"]] /\
   messageGroups (chatHistory sameReadingChat)
     <> map (fun v => mkGroup v (repliesById v (chatHistory sameReadingChat)))
            (filter isUser (chatHistory sameReadingChat))).
Proof.
  split; (split; [reflexivity|]); (split; [reflexivity|]); (split; [reflexivity|]).
  - intros H.
    apply (f_equal (map (fun g => length (aiReplies g)))) in H.
    vm_compute in H. discriminate.
  - intros H.
    apply (f_equal (map (fun g => length (aiReplies g)))) in H.
    vm_compute in H. discriminate.
Qed.

(** C10, amended.  A send whose call resolves appends, to whatever list
    is current when the call settles and in the order of the response, one
    message per item: an assistant message with an empty question whose id
    is the user message's id, then [-ai-] and the index of the item; a
    response that is not an array gives the single id ending in [-ai].
    With nothing between the question and the answer the replies come
    right after the question.  When the answer finds a list that still ends
    with the question and is made of whole turns, the question's clock
    reading being that of no earlier turn, the list is so again with the
    replies, and the groups that [MessageList] forms by position are
    exactly those that the id prefixes give. *)
Theorem assistant_ids_encode_their_turn :
  (forall env' u response s,
     let replies := aiMessagesOf env' u response in
     (exists s',
        handleSendMessage_resume env' u (Resolved response) s = Normal s' /\
        chatHistory s' = chatHistory s ++ replies) /\
     Forall (fun m => role m = assistant /\ question m = "" /\
                      startsWith (id m) (id u ++ "-ai")%string = true) replies /\
     (forall items, response = RespArray items ->
        length replies = length items /\
        forall n item, nth_error items n = Some item ->
          exists m, nth_error replies n = Some m /\
            id m = (id u ++ "-ai-" ++ toString (N.of_nat n))%string /\
            answer m = or_empty (text_content item) /\
            imageUrls m = or_empty (image_sas_url item) /\
            match_score m = item_match_score item /\
            confidence m = item_confidence item) /\
     (response = RespOther ->
        exists m, replies = [m] /\ id m = (id u ++ "-ai")%string)) /\
  (forall env env' st response,
     truthy (trim (questionInput st)) = true -> isLoading st = false ->
     let u := newUserMessage (trim (questionInput st)) (now env) in
     role u = user /\ id u = toString (now env) /\
     exists st',
       handleSendMessage env env' (Resolved response) st = Normal st' /\
       chatHistory st' = chatHistory st ++ u :: aiMessagesOf env' u response) /\
  (forall env' u response s h readings t,
     chatHistory s = h ++ [u] ->
     role u = user -> id u = toString t ->
     turnsHistory readings h -> ~ In t readings ->
     let replies := aiMessagesOf env' u response in
     exists s',
       handleSendMessage_resume env' u (Resolved response) s = Normal s' /\
       chatHistory s' = h ++ u :: replies /\
       turnsHistory (t :: readings) (chatHistory s') /\
       messageGroups (chatHistory s') = messageGroups h ++ [mkGroup u replies] /\
       messageGroups (chatHistory s') =
         map (fun v => mkGroup v (repliesById v (chatHistory s')))
             (filter isUser (chatHistory s'))).
Proof.
  split; [|split].
  - intros env' u response s replies.
    pose proof (aiMessagesOf_shape env' u response) as Hshape. fold replies in Hshape.
    split; [|split; [|split]].
    + eexists. split; reflexivity.
    + exact Hshape.
    + intros items ->. unfold replies. simpl. unfold mapi. split.
      * apply length_mapi_from.
      * intros n item Hn. rewrite nth_error_mapi_from, Hn. simpl.
        eexists. split; [reflexivity|]. simpl. repeat split.
    + intros ->. eexists. split; reflexivity.
  - intros env env' st response Hq Hl u.
    split; [reflexivity|]. split; [reflexivity|].
    unfold handleSendMessage.
    rewrite (handleSendMessage_begin_accepts env st Hq Hl). fold u.
    eexists. split; [reflexivity|]. simpl. now rewrite <- app_assoc.
  - intros env' u response s h readings t Hs Hu Hid Hturns Hnew replies.
    pose proof (aiMessagesOf_shape env' u response) as Hshape. fold replies in Hshape.
    assert (Hrs : Forall (fun r => role r = assistant /\
                     startsWith (id r) (id u ++ "-ai")%string = true) replies)
      by (eapply Forall_impl; [|exact Hshape]; intros m (H1 & _ & H3); auto).
    assert (Hroles : Forall (fun r => role r = assistant) replies)
      by (eapply Forall_impl; [|exact Hshape]; now intros m (H1 & _)).
    eexists. split; [reflexivity|].
    assert (Hhist : chatHistory
              (send_finally
                 (setChatHistory (fun prev => prev ++ aiMessagesOf env' u response) s))
            = h ++ u :: replies).
    { simpl. rewrite Hs. now rewrite <- app_assoc. }
    rewrite Hhist.
    assert (Hturns' : turnsHistory (t :: readings) (h ++ u :: replies))
      by (apply turns_snoc; auto).
    split; [reflexivity|]. split; [exact Hturns'|]. split.
    + now apply messageGroups_turn.
    + now apply (turnsHistory_groups (t :: readings)).
Qed.

Lemma assistant_ids_encode_their_turn_witness :
  exists st',
    handleSendMessage (sampleEnv 2000) (sampleEnv 2300)
      (Resolved (RespArray [sampleItem; sampleProduct])) unsavedChat = Normal st' /\
    map id (chatHistory st') = ["1000"; "2000"; "2000-ai-0"; "2000-ai-1"] /\
    messageGroups (chatHistory st') =
      map (fun v => mkGroup v (repliesById v (chatHistory st')))
          (filter isUser (chatHistory st')).
Proof.
  destruct assistant_ids_encode_their_turn as (_ & Hsend & Hgroups).
  destruct (Hsend (sampleEnv 2000) (sampleEnv 2300) unsavedChat
              (RespArray [sampleItem; sampleProduct]) eq_refl eq_refl)
    as (_ & _ & st' & Hrun & Hhist).
  destruct (Hgroups (sampleEnv 2300) (newUserMessage "And a Negroni?" 2000)
              (RespArray [sampleItem; sampleProduct])
              (fst (handleSendMessage_begin (sampleEnv 2000) unsavedChat))
              [sampleUser] [1000%N] 2000%N)
    as (s' & Hresume & Hh & _ & _ & Hby).
  - reflexivity.
  - reflexivity.
  - reflexivity.
  - apply (turns_snoc [] [] 1000%N sampleUser []);
      [constructor | simpl; tauto | reflexivity | reflexivity | constructor].
  - simpl. intros [H|[]]. discriminate.
  - exists st'. split; [exact Hrun|].
    assert (E : st' = s').
    { unfold handleSendMessage in Hrun. cbn in Hrun, Hresume.
      injection Hrun as <-. injection Hresume as <-. reflexivity. }
    subst s'. split; [rewrite Hhist; reflexivity | exact Hby].
Defined.

(** * Further properties of the code *)

(** ** Trimming *)

Lemma trimStart_empty_iff (s : string) :
  trimStart s = "" <-> allWhiteSpace s = true.
Proof.
  induction s as [|c s IH]; simpl; [tauto|].
  destruct (isWhiteSpace c); simpl; [exact IH|].
  split; discriminate.
Qed.

Lemma trimStart_first (s : string) (c : ascii) :
  firstChar (trimStart s) = Some c -> isWhiteSpace c = false.
Proof.
  induction s as [|a s IH]; simpl; [discriminate|].
  destruct (isWhiteSpace a) eqn:E; [exact IH|].
  simpl. intros H. injection H as <-. exact E.
Qed.

Lemma trimEnd_empty_iff (s : string) :
  trimEnd s = "" <-> allWhiteSpace s = true.
Proof.
  induction s as [|c s IH]; simpl; [tauto|].
  destruct (trimEnd s) eqn:E.
  - destruct (isWhiteSpace c); simpl.
    + split; [intros _; now apply IH | reflexivity].
    + split; discriminate.
  - split; [discriminate|].
    intros H. apply andb_true_iff in H as [_ H]. apply IH in H. discriminate.
Qed.

Lemma trimEnd_keeps_first (c : ascii) (s : string) :
  isWhiteSpace c = false -> exists t, trimEnd (String c s) = String c t.
Proof.
  intros H. simpl. destruct (trimEnd s).
  - rewrite H. now exists "".
  - now eexists.
Qed.

Lemma trimEnd_last (s : string) (c : ascii) :
  lastChar (trimEnd s) = Some c -> isWhiteSpace c = false.
Proof.
  induction s as [|a s IH]; simpl; [discriminate|].
  destruct (trimEnd s) as [|b t] eqn:E.
  - destruct (isWhiteSpace a) eqn:Ea; simpl; [discriminate|].
    intros H. injection H as <-. exact Ea.
  - exact IH.
Qed.

Lemma trimEnd_idempotent (s : string) : trimEnd (trimEnd s) = trimEnd s.
Proof.
  induction s as [|a s IH]; simpl; [reflexivity|].
  destruct (trimEnd s) as [|b t] eqn:E.
  - destruct (isWhiteSpace a) eqn:Ea; simpl; [reflexivity|]. now rewrite Ea.
  - simpl in *. now rewrite IH.
Qed.

Lemma trimStart_fixed (s : string) :
  (forall c, firstChar s = Some c -> isWhiteSpace c = false) -> trimStart s = s.
Proof.
  destruct s as [|c s]; simpl; [reflexivity|].
  intros H. now rewrite (H c eq_refl).
Qed.

Lemma trim_empty_iff (s : string) : trim s = "" <-> allWhiteSpace s = true.
Proof.
  unfold trim. rewrite <- trimStart_empty_iff. split.
  - intros H. destruct (trimStart s) as [|c t] eqn:E; [reflexivity|].
    exfalso. pose proof (trimStart_first s c) as Hc. rewrite E in Hc.
    destruct (trimEnd_keeps_first c t (Hc eq_refl)) as [t' Ht]. congruence.
  - intros ->. reflexivity.
Qed.

Lemma trim_first (s : string) (c : ascii) :
  firstChar (trim s) = Some c -> isWhiteSpace c = false.
Proof.
  unfold trim. destruct (trimStart s) as [|a t] eqn:E; [discriminate|].
  pose proof (trimStart_first s a) as Ha. rewrite E in Ha.
  destruct (trimEnd_keeps_first a t (Ha eq_refl)) as [t' ->].
  simpl. intros H. injection H as <-. now apply Ha.
Qed.

Lemma trim_idempotent (s : string) : trim (trim s) = trim s.
Proof.
  unfold trim at 1. rewrite (trimStart_fixed (trim s) (trim_first s)).
  unfold trim. apply trimEnd_idempotent.
Qed.

Lemma truthy_trim (s : string) : truthy (trim s) = negb (allWhiteSpace s).
Proof.
  destruct (allWhiteSpace s) eqn:E.
  - apply trim_empty_iff in E. now rewrite E.
  - destruct (trim s) eqn:T; [|reflexivity].
    apply trim_empty_iff in T. congruence.
Qed.

(** ** The guard of a send *)

(** X1. A send is refused, leaving the state as it is and nothing out,
    exactly when another send is in flight or the question has no
    character other than white space; otherwise it goes out.  The Enter
    key starts a send under the same test, and never with Shift held. *)
Theorem send_refused_iff_blank_or_in_flight :
  forall env st,
    (handleSendMessage_begin env st = (st, None) <->
     isLoading st = true \/ allWhiteSpace (questionInput st) = true) /\
    (snd (handleSendMessage_begin env st) = None <->
     isLoading st = true \/ allWhiteSpace (questionInput st) = true) /\
    (forall e, snd (handleKeyDown env e st) = None <->
       key e <> "Enter" \/ shiftKey e = true \/
       isLoading st = true \/ allWhiteSpace (questionInput st) = true) /\
    (forall e, key e <> "Enter" \/ shiftKey e = true ->
       handleKeyDown env e st = (st, None)).
Proof.
  intros env st.
  assert (Hguard : negb (truthy (trim (questionInput st))) || isLoading st = true <->
                   isLoading st = true \/ allWhiteSpace (questionInput st) = true).
  { rewrite truthy_trim, negb_involutive, orb_true_iff. tauto. }
  assert (Hsnd : snd (handleSendMessage_begin env st) = None <->
                 isLoading st = true \/ allWhiteSpace (questionInput st) = true).
  { unfold handleSendMessage_begin. rewrite <- Hguard.
    destruct (negb (truthy (trim (questionInput st))) || isLoading st); simpl.
    - tauto.
    - split; discriminate. }
  split; [|split; [|split]].
  - unfold handleSendMessage_begin. rewrite <- Hguard.
    destruct (negb (truthy (trim (questionInput st))) || isLoading st).
    + tauto.
    + split; [intros H; discriminate H | discriminate].
  - exact Hsnd.
  - intros e. unfold handleKeyDown.
    destruct (String.eqb_spec (key e) "Enter") as [E|E], (shiftKey e); simpl;
      try (split; [auto | reflexivity]).
    rewrite Hsnd. split; [auto|]. intros [H|[H|H]]; [contradiction|discriminate|exact H].
  - intros e H. unfold handleKeyDown.
    destruct (String.eqb_spec (key e) "Enter") as [E|E], (shiftKey e); simpl;
      try reflexivity.
    destruct H; [contradiction|discriminate].
Qed.

Lemma send_refused_iff_blank_or_in_flight_witness :
  handleKeyDown (sampleEnv 2000) (mkKey "Enter" true) unsavedChat = (unsavedChat, None).
Proof.
  apply (proj2 (proj2 (proj2 (send_refused_iff_blank_or_in_flight
                                (sampleEnv 2000) unsavedChat)))).
  right. reflexivity.
Defined.

(** X2. The user message of an accepted send carries the question
    trimmed: it is not empty and neither starts nor ends with white space.
    The message is appended at the end of the list, the input is emptied
    and the in-flight guard is set. *)
Theorem sent_question_is_trimmed :
  forall env st u,
    snd (handleSendMessage_begin env st) = Some u ->
    question u = trim (questionInput st) /\
    question u <> "" /\
    (forall c, firstChar (question u) = Some c -> isWhiteSpace c = false) /\
    (forall c, lastChar (question u) = Some c -> isWhiteSpace c = false) /\
    trim (question u) = question u /\
    role u = user /\ answer u = "" /\ id u = toString (now env) /\
    chatHistory (fst (handleSendMessage_begin env st)) = chatHistory st ++ [u] /\
    questionInput (fst (handleSendMessage_begin env st)) = "" /\
    isLoading (fst (handleSendMessage_begin env st)) = true.
Proof.
  intros env st u. unfold handleSendMessage_begin.
  destruct (negb (truthy (trim (questionInput st))) || isLoading st) eqn:G;
    simpl; [discriminate|].
  intros H. injection H as <-. simpl.
  apply orb_false_iff in G as [G _]. apply negb_false_iff in G.
  repeat split.
  - intros E. rewrite E in G. discriminate.
  - apply trim_first.
  - intros c. unfold trim. apply trimEnd_last.
  - apply trim_idempotent.
Qed.

Lemma sent_question_is_trimmed_witness :
  question (newUserMessage "And a Negroni?" 2000) = trim "  And a Negroni?  " /\
  question (newUserMessage "And a Negroni?" 2000) <> "".
Proof.
  destruct (sent_question_is_trimmed (sampleEnv 2000)
              (setQuestion "  And a Negroni?  " unsavedChat)
              (newUserMessage "And a Negroni?" 2000) eq_refl) as (H1 & H2 & _).
  split; [exact H1 | exact H2].
Defined.

(** X3. Once a send is out, every further send is refused, whatever is
    typed, until the answer call settles; when it settles, resolved or
    rejected and whatever state it finds, the guard is cleared. *)
Theorem one_send_in_flight :
  forall env st u,
    snd (handleSendMessage_begin env st) = Some u ->
    (forall env' text,
       handleSendMessage_begin env'
         (setQuestion text (fst (handleSendMessage_begin env st)))
       = (setQuestion text (fst (handleSendMessage_begin env st)), None)) /\
    (forall env' e text,
       snd (handleKeyDown env' e
              (setQuestion text (fst (handleSendMessage_begin env st)))) = None) /\
    (forall env' outcome s,
       isLoading (completed (handleSendMessage_resume env' u outcome s)) = false).
Proof.
  intros env st u. unfold handleSendMessage_begin at 1.
  destruct (negb (truthy (trim (questionInput st))) || isLoading st) eqn:G;
    simpl; [discriminate|]. intros _.
  assert (Hbusy : forall env' text,
            handleSendMessage_begin env'
              (setQuestion text (fst (handleSendMessage_begin env st)))
            = (setQuestion text (fst (handleSendMessage_begin env st)), None)).
  { intros env' text. unfold handleSendMessage_begin at 1.
    assert (Hl : isLoading (setQuestion text (fst (handleSendMessage_begin env st))) = true).
    { unfold handleSendMessage_begin. rewrite G. reflexivity. }
    rewrite Hl. now rewrite orb_true_r. }
  split; [exact Hbusy|]. split.
  - intros env' e text. unfold handleKeyDown.
    destruct (String.eqb (key e) "Enter" && negb (shiftKey e)); [|reflexivity].
    now rewrite Hbusy.
  - intros env' outcome s. destruct outcome; reflexivity.
Qed.

Lemma one_send_in_flight_witness :
  handleSendMessage_begin (sampleEnv 2100)
    (setQuestion "again" (fst (handleSendMessage_begin (sampleEnv 2000) unsavedChat)))
  = (setQuestion "again" (fst (handleSendMessage_begin (sampleEnv 2000) unsavedChat)), None).
Proof.
  exact (proj1 (one_send_in_flight (sampleEnv 2000) unsavedChat
                  (newUserMessage "And a Negroni?" 2000) eq_refl)
               (sampleEnv 2100) "again").
Defined.

(** X4. The send button is disabled exactly when [handleSendMessage]
    would refuse the send, and the clear button is shown exactly when the
    send button is enabled; clearing the input disables the send button. *)
Theorem send_button_agrees_with_guard :
  forall env st,
    (sendDisabled (questionInput st) (isLoading st) = true <->
     snd (handleSendMessage_begin env st) = None) /\
    clearVisible (questionInput st) (isLoading st)
      = negb (sendDisabled (questionInput st) (isLoading st)) /\
    sendDisabled (questionInput (clearInput st)) (isLoading (clearInput st)) = true.
Proof.
  intros env st. split; [|split].
  - unfold sendDisabled, handleSendMessage_begin.
    rewrite (orb_comm (isLoading st)).
    destruct (negb (truthy (trim (questionInput st))) || isLoading st); simpl.
    + tauto.
    + split; discriminate.
  - unfold clearVisible, sendDisabled.
    destruct (trim (questionInput st)); destruct (isLoading st); reflexivity.
  - unfold sendDisabled, clearInput. simpl. now rewrite orb_true_r.
Qed.

(** ** Deleting a conversation *)

Lemma filter_idempotent {A} (f : A -> bool) (l : list A) :
  filter f (filter f l) = filter f l.
Proof.
  induction l as [|x l IH]; simpl; [reflexivity|].
  destruct (f x) eqn:E; simpl; [rewrite E, IH|]; auto.
Qed.

Lemma filter_absent_id (i : string) (l : list SavedConversation) :
  ~ In i (ids l) ->
  filter (fun convo => negb (String.eqb (conv_id convo) i)) l = l.
Proof.
  intros H. apply filter_all. apply Forall_forall. intros c Hc.
  destruct (String.eqb_spec (conv_id c) i) as [E|E]; [|reflexivity].
  exfalso. apply H. unfold ids. rewrite in_map_iff. now exists c.
Qed.

(** X5. Deleting removes from the store every conversation with the
    given id and keeps the others in their order.  When the id is that of
    the active conversation the session is emptied; otherwise the message
    list and the active id are left alone.  An id that is not in the store
    leaves the store as it is, and deleting twice is deleting once. *)
Theorem delete_removes_the_id_only :
  forall i st,
    (forall c, In c (savedConversations (handleDeleteConversation i st)) <->
               In c (savedConversations st) /\ conv_id c <> i) /\
    ~ In i (ids (savedConversations (handleDeleteConversation i st))) /\
    savedConversations (handleDeleteConversation i st)
      = filter (fun c => negb (String.eqb (conv_id c) i)) (savedConversations st) /\
    (currentConversationId st = Some i ->
       chatHistory (handleDeleteConversation i st) = [] /\
       currentConversationId (handleDeleteConversation i st) = None) /\
    (currentConversationId st <> Some i ->
       chatHistory (handleDeleteConversation i st) = chatHistory st /\
       currentConversationId (handleDeleteConversation i st) = currentConversationId st) /\
    (~ In i (ids (savedConversations st)) ->
       savedConversations (handleDeleteConversation i st) = savedConversations st) /\
    handleDeleteConversation i (handleDeleteConversation i st)
      = handleDeleteConversation i st.
Proof.
  intros i st.
  assert (Hstore : savedConversations (handleDeleteConversation i st) =
                   filter (fun convo => negb (String.eqb (conv_id convo) i))
                          (savedConversations st)).
  { apply handleDeleteConversation_store. }
  split; [|split; [|split; [|split; [|split; [|split]]]]].
  - intros c. rewrite Hstore, filter_In.
    destruct (String.eqb_spec (conv_id c) i); simpl; intuition congruence.
  - rewrite Hstore. unfold ids. rewrite in_map_iff. intros [c [Hc Hin]].
    apply filter_In in Hin as [_ Hne]. rewrite Hc, String.eqb_refl in Hne.
    discriminate.
  - exact Hstore.
  - intros E. unfold handleDeleteConversation. rewrite E. simpl.
    now rewrite String.eqb_refl.
  - intros E. unfold handleDeleteConversation.
    destruct (currentConversationId st) as [a|] eqn:Ecur; simpl.
    + destruct (String.eqb_spec i a) as [->|_]; [congruence|]. simpl. auto.
    + auto.
  - intros H. rewrite Hstore. now apply filter_absent_id.
  - set (d := handleDeleteConversation i st) in *.
    assert (Hcur : option_string_eqb (Some i) (currentConversationId d) = false
                   \/ d = setSavedConversations
                           (filter (fun convo => negb (String.eqb (conv_id convo) i))) st).
    { unfold d, handleDeleteConversation.
      destruct (option_string_eqb (Some i) (currentConversationId st)); auto. }
    assert (Hagain : handleDeleteConversation i d
                     = setSavedConversations
                         (filter (fun convo => negb (String.eqb (conv_id convo) i))) d).
    { destruct Hcur as [E|E].
      - unfold handleDeleteConversation at 1. now rewrite E.
      - unfold handleDeleteConversation at 1.
        destruct (option_string_eqb (Some i) (currentConversationId d)) eqn:E';
          [|reflexivity].
        exfalso. revert E'. unfold d, handleDeleteConversation.
        destruct (option_string_eqb (Some i) (currentConversationId st)) eqn:E0;
          [discriminate|].
        cbn [currentConversationId setSavedConversations]. now rewrite E0. }
    rewrite Hagain. apply setSavedConversations_fixed.
    rewrite Hstore, filter_idempotent.
    unfold d, handleDeleteConversation.
    destruct (option_string_eqb (Some i) (currentConversationId st)); reflexivity.
Qed.

Lemma delete_removes_the_id_only_witness :
  chatHistory (handleDeleteConversation "1300" grownA) = [] /\
  currentConversationId (handleDeleteConversation "1300" grownA) = None /\
  savedConversations (handleDeleteConversation "77" grownA) = savedConversations grownA.
Proof.
  destruct (delete_removes_the_id_only "1300" grownA) as (_ & _ & _ & H & _).
  destruct (delete_removes_the_id_only "77" grownA) as (_ & _ & _ & _ & _ & H' & _).
  destruct (H eq_refl) as [H1 H2]. split; [exact H1|]. split; [exact H2|].
  apply H'. simpl. intros [E|[E|[]]]; discriminate.
Defined.

(** ** Sorting the store *)

Lemma insertByTimestamp_In (c x : SavedConversation) (l : list SavedConversation) :
  In x (insertByTimestamp c l) -> x = c \/ In x l.
Proof.
  intros H. apply (Permutation_in _ (insertByTimestamp_perm c l)) in H.
  destruct H; auto.
Qed.

Lemma insertByTimestamp_sorted (c : SavedConversation) (l : list SavedConversation) :
  newestFirst l -> newestFirst (insertByTimestamp c l).
Proof.
  unfold newestFirst. induction 1 as [|d l Hl IH Hd]; simpl.
  - constructor; constructor.
  - destruct (N.ltb_spec (getTime (conv_timestamp c)) (getTime (conv_timestamp d))) as [Hlt|Hge].
    + constructor; [exact IH|].
      apply Forall_forall. intros x Hx.
      apply insertByTimestamp_In in Hx as [->|Hx]; [lia|].
      rewrite Forall_forall in Hd. now apply Hd.
    + constructor; [constructor; assumption|].
      constructor; [exact Hge|].
      eapply Forall_impl; [|exact Hd]. simpl. intros x Hx. lia.
Qed.

Lemma sortConversationsByTimestamp_sorted (l : list SavedConversation) :
  newestFirst (sortConversationsByTimestamp l).
Proof.
  induction l as [|c l IH]; simpl; [constructor|].
  now apply insertByTimestamp_sorted.
Qed.

Lemma insertByTimestamp_first (c : SavedConversation) (l : list SavedConversation) :
  Forall (fun d => (getTime (conv_timestamp d) <= getTime (conv_timestamp c))%N) l ->
  insertByTimestamp c l = c :: l.
Proof.
  destruct l as [|d l]; simpl; [reflexivity|].
  intros H. inversion H as [|? ? Hd _]; subst.
  destruct (N.ltb_spec (getTime (conv_timestamp c)) (getTime (conv_timestamp d)));
    [lia | reflexivity].
Qed.

Lemma sortConversationsByTimestamp_fixed (l : list SavedConversation) :
  newestFirst l -> sortConversationsByTimestamp l = l.
Proof.
  unfold newestFirst. induction 1 as [|c l Hl IH Hc]; simpl; [reflexivity|].
  rewrite IH. now apply insertByTimestamp_first.
Qed.

Lemma madeAt_insertByTimestamp (t : N) (c : SavedConversation)
    (l : list SavedConversation) :
  madeAt t (insertByTimestamp c l) = madeAt t (c :: l).
Proof.
  unfold madeAt. induction l as [|d l IH]; simpl; [reflexivity|].
  destruct (N.ltb_spec (getTime (conv_timestamp c)) (getTime (conv_timestamp d))) as [Hlt|Hge];
    [|reflexivity].
  simpl. rewrite IH. simpl.
  destruct (N.eqb_spec (getTime (conv_timestamp c)) t) as [Ec|Ec];
    destruct (N.eqb_spec (getTime (conv_timestamp d)) t) as [Ed|Ed];
    try reflexivity. lia.
Qed.

(** X6. Sorting the store gives the same conversations, newest first,
    and is stable: conversations made at the same instant keep their
    order.  A store that is newest first already is left as it is, so
    sorting twice is sorting once. *)
Theorem sort_is_a_stable_newest_first_permutation :
  forall saved,
    Permutation (sortConversationsByTimestamp saved) saved /\
    newestFirst (sortConversationsByTimestamp saved) /\
    (forall t, madeAt t (sortConversationsByTimestamp saved) = madeAt t saved) /\
    length (sortConversationsByTimestamp saved) = length saved /\
    sortConversationsByTimestamp (sortConversationsByTimestamp saved)
      = sortConversationsByTimestamp saved.
Proof.
  intros saved. split; [|split; [|split; [|split]]].
  - apply sortConversationsByTimestamp_perm.
  - apply sortConversationsByTimestamp_sorted.
  - intros t. induction saved as [|c l IH]; simpl; [reflexivity|].
    rewrite madeAt_insertByTimestamp. unfold madeAt in *. simpl. now rewrite IH.
  - apply Permutation_length, sortConversationsByTimestamp_perm.
  - apply sortConversationsByTimestamp_fixed, sortConversationsByTimestamp_sorted.
Qed.

(** ** Starting a new chat *)





(** X8. A new chat started while a saved conversation with messages is
    active commits it at once, with no comparison of message counts: the
    entries with the active id get the active message list, as the store
    holds any list, every [Date] as its ISO text, and the time of the
    commit, and keep their title; every other entry keeps its record; no
    entry is added, none moves, and none is flagged as current. *)
Theorem new_chat_commits_the_active_conversation :
  forall env remote st a,
    currentConversationId st = Some a -> truthy a = true -> chatHistory st <> [] ->
    let saved' := savedConversations (handleNewChat env remote st) in
    snd (handleNewChat_begin env st) = None /\
    ids saved' = ids (savedConversations st) /\
    forall n c, nth_error (savedConversations st) n = Some c ->
      exists c', nth_error saved' n = Some c' /\
        conv_id c' = conv_id c /\ title c' = title c /\ isCurrent c' = Some false /\
        (conv_id c = a ->
           messages c' = map isoMessage (chatHistory st) /\
           lastSaved c' = DateIso (now env) /\ conv_timestamp c' = DateIso (now env)) /\
        (conv_id c <> a -> sameRecord c c').
Proof.
  intros env remote st a Hcur Ha Hne saved'.
  assert (Hpos : (0 <? length (chatHistory st))%nat = true).
  { apply Nat.ltb_lt. destruct (chatHistory st); [contradiction|simpl; lia]. }
  assert (Hnone : snd (handleNewChat_begin env st) = None).
  { unfold handleNewChat_begin. now rewrite Hpos, Hcur, Ha. }
  assert (Hsaved : saved' =
            map (fun convo =>
                   if String.eqb (conv_id convo) a
                   then mkConversation (DateIso (now env)) (conv_id convo) (title convo)
                          (map isoMessage (chatHistory st)) (DateIso (now env))
                          (Some false)
                   else with_isCurrent false convo) (savedConversations st)).
  { pose proof (handleNewChat_begin_store env st) as Hst.
    rewrite Hcur, Hpos, Ha in Hst. cbn [andb] in Hst.
    unfold saved', handleNewChat.
    destruct (handleNewChat_begin env st) as [s [p|]]; [discriminate|]. exact Hst. }
  split; [exact Hnone|]. split.
  - rewrite Hsaved. apply ids_map_same.
    intros x. now destruct (String.eqb (conv_id x) a).
  - intros n c Hn. rewrite Hsaved, nth_error_map, Hn. cbn [option_map].
    destruct (String.eqb_spec (conv_id c) a) as [E|E];
      eexists; (split; [reflexivity|]); simpl; repeat split; auto;
      try contradiction; intros; congruence.
Qed.

Lemma new_chat_commits_the_active_conversation_witness :
  ids (savedConversations (handleNewChat (sampleEnv 5000) Rejected grownA))
    = ["1300"; "900"].
Proof.
  destruct (new_chat_commits_the_active_conversation (sampleEnv 5000) Rejected grownA "1300")
    as (_ & H & _).
  - reflexivity.
  - reflexivity.
  - discriminate.
  - exact H.
Defined.

(** X9. A new chat started on an unsaved chat with messages stores it,
    once the title is there, under the clock reading taken at the start:
    the new entry holds the active messages, as the store holds any list,
    every [Date] as its ISO text, and the generated title, and is not
    flagged as current; an older entry with the same id is dropped, all
    others are kept; the store is newest first afterwards. *)
Theorem new_chat_stores_the_unsaved_chat :
  forall env remote st,
    truthy_opt (currentConversationId st) = false -> chatHistory st <> [] ->
    let created :=
      mkConversation (DateIso (now env)) (toString (now env))
        (generateAutoTitle env (chatHistory st) (now env) remote)
        (map isoMessage (chatHistory st)) (DateIso (now env)) (Some false) in
    let saved' := savedConversations (handleNewChat env remote st) in
    snd (handleNewChat_begin env st)
      = Some (mkPending (chatHistory st) (toString (now env)) (now env)) /\
    Permutation saved'
      (created :: filter (fun c => negb (String.eqb (conv_id c) (toString (now env))))
                         (clearCurrent (savedConversations st))) /\
    newestFirst saved' /\
    In created saved' /\
    (forall c, In c saved' -> conv_id c = toString (now env) -> c = created) /\
    (forall c, In c (savedConversations st) -> conv_id c <> toString (now env) ->
       In (with_isCurrent false c) saved').
Proof.
  intros env remote st Hcur Hne created saved'.
  assert (Hpos : (0 <? length (chatHistory st))%nat = true).
  { apply Nat.ltb_lt. destruct (chatHistory st); [contradiction|simpl; lia]. }
  assert (Hbegin : handleNewChat_begin env st =
            (setSavedConversations clearCurrent (setCurrentConversationId None st),
             Some (mkPending (chatHistory st) (toString (now env)) (now env)))).
  { unfold handleNewChat_begin. rewrite Hpos.
    destruct (currentConversationId st) as [cid|]; [|reflexivity].
    simpl in Hcur. now rewrite Hcur. }
  assert (Hsaved : saved' = sortConversationsByTimestamp
            (created :: filter (fun c => negb (String.eqb (conv_id c) (toString (now env))))
                               (clearCurrent (savedConversations st)))).
  { unfold saved', handleNewChat. rewrite Hbegin.
    rewrite handleNewChat_resume_store.
    now rewrite (savedConversations_clearCurrent (setCurrentConversationId None st)). }
  assert (Hperm : Permutation saved'
            (created :: filter (fun c => negb (String.eqb (conv_id c) (toString (now env))))
                               (clearCurrent (savedConversations st))))
    by (rewrite Hsaved; apply sortConversationsByTimestamp_perm).
  split; [now rewrite Hbegin|]. split; [exact Hperm|]. split; [|split; [|split]].
  - rewrite Hsaved. apply sortConversationsByTimestamp_sorted.
  - apply (Permutation_in _ (Permutation_sym Hperm)). now left.
  - intros c Hin Hid. apply (Permutation_in _ Hperm) in Hin.
    destruct Hin as [<-|Hin]; [reflexivity|].
    apply filter_In in Hin as [_ Hn]. rewrite Hid, String.eqb_refl in Hn. discriminate.
  - intros c Hin Hid. apply (Permutation_in _ (Permutation_sym Hperm)). right.
    apply filter_In. split.
    + unfold clearCurrent. apply in_map_iff. now exists c.
    + simpl. apply negb_true_iff. now apply String.eqb_neq.
Qed.

Lemma new_chat_stores_the_unsaved_chat_witness :
  In (mkConversation (DateIso 5000) "5000" "Chat on 10:00:00"
        (map isoMessage (chatHistory unsavedChat)) (DateIso 5000) (Some false))
     (savedConversations (handleNewChat (sampleEnv 5000) Rejected unsavedChat)) /\
  newestFirst (savedConversations (handleNewChat (sampleEnv 5000) Rejected unsavedChat)).
Proof.
  destruct (new_chat_stores_the_unsaved_chat (sampleEnv 5000) Rejected unsavedChat)
    as (_ & _ & Hsorted & Hin & _).
  - reflexivity.
  - discriminate.
  - split; [exact Hin | exact Hsorted].
Defined.

(** ** The effect that restores the last conversation *)

Lemma find_conversation_id (cid : option string) (l : list SavedConversation) c :
  find_conversation cid l = Some c -> cid = Some (conv_id c) /\ In c l.
Proof.
  destruct cid as [i|]; simpl; [|discriminate].
  intros H. apply find_some in H as [Hin Heq].
  apply String.eqb_eq in Heq. now subst i.
Qed.

Lemma restoreLastEffect_cases (st : AppState) :
  restoreLastEffect st = st \/ initializedRef (restoreLastEffect st) = true.
Proof.
  unfold restoreLastEffect.
  destruct (initializedRef st) eqn:E; [now left|].
  destruct (truthy_opt (currentConversationId st)
            && (0 <? length (savedConversations st))%nat); [|now left].
  destruct (find_conversation (currentConversationId st) (savedConversations st));
    [now right | now left].
Qed.

(** X10. The effect that restores the last conversation does nothing
    once it has succeeded, when no conversation is active, or when the
    active id is not in the store.  Otherwise it puts the stored messages
    of the active conversation on screen, whatever was there, flags that
    conversation as the current one and marks itself done.  Running it
    twice is running it once. *)
Theorem restore_last_shows_the_stored_messages :
  forall st,
    (initializedRef st = true -> restoreLastEffect st = st) /\
    (truthy_opt (currentConversationId st) = false -> restoreLastEffect st = st) /\
    (find_conversation (currentConversationId st) (savedConversations st) = None ->
       restoreLastEffect st = st) /\
    (forall c,
       initializedRef st = false ->
       truthy_opt (currentConversationId st) = true ->
       find_conversation (currentConversationId st) (savedConversations st) = Some c ->
       chatHistory (restoreLastEffect st) = messages c /\
       currentConversationId (restoreLastEffect st) = Some (conv_id c) /\
       savedConversations (restoreLastEffect st)
         = markCurrent (conv_id c) (savedConversations st) /\
       initializedRef (restoreLastEffect st) = true) /\
    restoreLastEffect (restoreLastEffect st) = restoreLastEffect st.
Proof.
  intros st. split; [|split; [|split; [|split]]].
  - intros H. unfold restoreLastEffect. now rewrite H.
  - intros H. unfold restoreLastEffect. rewrite H. now destruct (initializedRef st).
  - intros H. unfold restoreLastEffect. rewrite H.
    destruct (initializedRef st); [reflexivity|].
    now destruct (truthy_opt (currentConversationId st)
                  && (0 <? length (savedConversations st))%nat).
  - intros c Hi Ht Hf. unfold restoreLastEffect. rewrite Hi, Ht, Hf.
    destruct (find_conversation_id _ _ _ Hf) as [Hcur Hin].
    assert (Hpos : (0 <? length (savedConversations st))%nat = true).
    { apply Nat.ltb_lt. destruct (savedConversations st); [contradiction|simpl; lia]. }
    rewrite Hpos. cbn [andb]. split; [reflexivity|]. split; [exact Hcur|].
    split; [|reflexivity]. exact (savedConversations_markCurrent (conv_id c) st).
  - destruct (restoreLastEffect_cases st) as [H|H].
    + now rewrite H.
    + unfold restoreLastEffect at 1. now rewrite H.
Qed.

Lemma restore_last_shows_the_stored_messages_witness :
  chatHistory (restoreLastEffect remountedA) = messages (with_isCurrent true
    (conversation_of_json (json_of_conversation conversationA))) /\
  restoreLastEffect (initialState [conversationA] "") = initialState [conversationA] "".
Proof.
  destruct (restore_last_shows_the_stored_messages remountedA) as (_ & _ & _ & H & _).
  destruct (restore_last_shows_the_stored_messages (initialState [conversationA] ""))
    as (_ & H' & _).
  split.
  - destruct (H (conversation_of_json (json_of_conversation conversationA))
                eq_refl eq_refl eq_refl) as (H1 & _). exact H1.
  - apply H'. reflexivity.
Defined.

(** ** Clicking a conversation *)

Lemma setCurrentConversationId_same (s : AppState) :
  setCurrentConversationId (currentConversationId s) s = s.
Proof. now destruct s. Qed.

Lemma option_string_eqb_refl (a : option string) : option_string_eqb a a = true.
Proof. destruct a; simpl; [apply String.eqb_refl | reflexivity]. Qed.

Lemma option_string_eqb_eq (a b : option string) :
  option_string_eqb a b = true <-> a = b.
Proof.
  destruct a, b; simpl; try (split; [discriminate | congruence]); try tauto.
  rewrite String.eqb_eq. split; congruence.
Qed.

Lemma handleClickConversation_active (env : Env) (st : AppState)
    (target : SavedConversation) :
  currentConversationId st = Some (conv_id target) ->
  handleClickConversation env st target = setInitializedRef false st.
Proof.
  intros H. unfold handleClickConversation, handleLoadConversation.
  rewrite H, option_string_eqb_refl. cbn [negb]. rewrite andb_false_r.
  cbn [currentConversationId setInitializedRef] .
  rewrite <- H at 1.
  change (currentConversationId st)
    with (currentConversationId (setInitializedRef false st)).
  apply setCurrentConversationId_same.
Qed.

Lemma handleClickConversation_after (env : Env) (st : AppState)
    (target : SavedConversation) :
  currentConversationId (handleClickConversation env st target) = Some (conv_id target) /\
  initializedRef (handleClickConversation env st target) = false.
Proof.
  unfold handleClickConversation, handleLoadConversation.
  destruct (negb (option_string_eqb (Some (conv_id target)) (currentConversationId st))).
  - destruct (innerWidth env <? 900)%nat; split; reflexivity.
  - split; reflexivity.
Qed.

Lemma restoreLastEffect_id (s : AppState) :
  currentConversationId (restoreLastEffect s) = currentConversationId s.
Proof.
  unfold restoreLastEffect.
  destruct (initializedRef s); [reflexivity|].
  destruct (truthy_opt (currentConversationId s)
            && (0 <? length (savedConversations s))%nat); [|reflexivity].
  now destruct (find_conversation (currentConversationId s) (savedConversations s)).
Qed.

Lemma find_filter_other (i j : string) (l : list SavedConversation) :
  i <> j ->
  find (fun c => String.eqb (conv_id c) i)
       (filter (fun c => negb (String.eqb (conv_id c) j)) l)
  = find (fun c => String.eqb (conv_id c) i) l.
Proof.
  intros Hne. induction l as [|c l IH]; simpl; [reflexivity|].
  destruct (String.eqb_spec (conv_id c) j) as [Ej|Ej]; simpl.
  - destruct (String.eqb_spec (conv_id c) i) as [Ei|Ei]; [congruence | exact IH].
  - now rewrite IH.
Qed.

(** X11. Clicking the conversation that is already active commits
    nothing and loads nothing: the state is the same but for the mark that
    lets the restore effect run again.  So a second click on a
    conversation, after the effect that the first click set off, changes
    that mark alone.  The mark stays until the effect next runs: when
    another conversation is then deleted, the effect puts the stored
    messages of the active conversation on screen, in place of the list
    that was there. *)
Theorem click_on_the_active_conversation :
  forall env st target,
    (currentConversationId st = Some (conv_id target) ->
       handleClickConversation env st target = setInitializedRef false st) /\
    (forall env',
       let once := restoreLastEffect (handleClickConversation env st target) in
       handleClickConversation env' once target = setInitializedRef false once) /\
    (forall j c,
       currentConversationId st = Some (conv_id target) ->
       truthy (conv_id target) = true -> j <> conv_id target ->
       find_conversation (Some (conv_id target)) (savedConversations st) = Some c ->
       let clicked := handleClickConversation env st target in
       chatHistory clicked = chatHistory st /\
       chatHistory (handleDeleteConversation j clicked) = chatHistory st /\
       chatHistory (restoreLastEffect (handleDeleteConversation j clicked))
         = messages c).
Proof.
  intros env st target. split; [|split].
  - apply handleClickConversation_active.
  - intros env' once. apply handleClickConversation_active.
    unfold once. rewrite restoreLastEffect_id.
    apply handleClickConversation_after.
  - intros j c Hcur Ht Hj Hfind clicked.
    assert (Hclicked : clicked = setInitializedRef false st)
      by (apply handleClickConversation_active; exact Hcur).
    assert (Hother : option_string_eqb (Some j) (currentConversationId clicked) = false).
    { rewrite Hclicked. cbn [currentConversationId setInitializedRef]. rewrite Hcur.
      simpl. now apply String.eqb_neq. }
    assert (Hdel : handleDeleteConversation j clicked
                   = setSavedConversations
                       (filter (fun convo => negb (String.eqb (conv_id convo) j)))
                       clicked).
    { unfold handleDeleteConversation. now rewrite Hother. }
    split; [now rewrite Hclicked|]. split; [now rewrite Hdel, Hclicked|].
    assert (Hstore : savedConversations (handleDeleteConversation j clicked)
                     = filter (fun convo => negb (String.eqb (conv_id convo) j))
                              (savedConversations st)).
    { rewrite handleDeleteConversation_store. now rewrite Hclicked. }
    assert (Hfind' : find_conversation (Some (conv_id target))
                       (savedConversations (handleDeleteConversation j clicked))
                     = Some c).
    { rewrite Hstore. cbn [find_conversation] in *.
      rewrite find_filter_other; [exact Hfind | congruence]. }
    assert (Hpos : (0 <? length (savedConversations (handleDeleteConversation j clicked)))%nat
                   = true).
    { cbn [find_conversation] in Hfind'. apply Nat.ltb_lt.
      destruct (savedConversations (handleDeleteConversation j clicked));
        [discriminate | simpl; lia]. }
    assert (Hid : currentConversationId (handleDeleteConversation j clicked)
                  = Some (conv_id target)).
    { rewrite Hdel, Hclicked. exact Hcur. }
    assert (Href : initializedRef (handleDeleteConversation j clicked) = false)
      by (rewrite Hdel, Hclicked; reflexivity).
    unfold restoreLastEffect. rewrite Href, Hid, Hfind', Hpos.
    cbn [truthy_opt]. rewrite Ht. reflexivity.
Qed.

Lemma click_on_the_active_conversation_witness :
  length (chatHistory grownA) = 3 /\
  length (chatHistory
            (restoreLastEffect
               (handleDeleteConversation "900"
                  (handleClickConversation (sampleEnv 1500) grownA conversationA)))) = 1.
Proof.
  split; [reflexivity|].
  destruct (click_on_the_active_conversation (sampleEnv 1500) grownA conversationA)
    as (_ & _ & H).
  destruct (H "900" conversationA eq_refl eq_refl) as (_ & _ & H3).
  - discriminate.
  - reflexivity.
  - rewrite H3. reflexivity.
Defined.

(** ** Storage *)

Lemma newestFirst_map_iso (l : list SavedConversation) :
  newestFirst l -> newestFirst (map isoConversation l).
Proof.
  unfold newestFirst. induction 1 as [|c l _ IH Hc]; simpl; constructor; [exact IH|].
  rewrite Forall_map. eapply Forall_impl; [|exact Hc]. simpl. auto.
Qed.

(** X12. The store read back by a new mount has the same conversations
    in the same order, each with its id, title, [isCurrent] and the
    instants of its times, and with its messages in order and equal in
    every field but for dates turned into ISO texts.  Reading back twice
    gives what reading back once gives, a store that is newest first stays
    so, and a lookup by id finds the conversation it found before. *)
Theorem store_round_trip :
  forall saved,
    reloadedStore saved = map isoConversation saved /\
    ids (reloadedStore saved) = ids saved /\
    map title (reloadedStore saved) = map title saved /\
    map isCurrent (reloadedStore saved) = map isCurrent saved /\
    map (fun c => getTime (conv_timestamp c)) (reloadedStore saved)
      = map (fun c => getTime (conv_timestamp c)) saved /\
    map (fun c => getTime (lastSaved c)) (reloadedStore saved)
      = map (fun c => getTime (lastSaved c)) saved /\
    map messages (reloadedStore saved)
      = map (fun c => map isoMessage (messages c)) saved /\
    reloadedStore (reloadedStore saved) = reloadedStore saved /\
    (newestFirst saved -> newestFirst (reloadedStore saved)) /\
    (forall cid,
       find_conversation cid (reloadedStore saved)
       = option_map isoConversation (find_conversation cid saved)).
Proof.
  intros saved. rewrite !reloadedStore_iso. unfold ids. rewrite !map_map.
  repeat split; try reflexivity.
  - apply map_ext. intros c. apply isoConversation_idempotent.
  - apply newestFirst_map_iso.
  - intros [i|]; simpl; [apply find_map_iso | reflexivity].
Qed.

Lemma store_round_trip_witness :
  newestFirst (reloadedStore [conversationA; conversationB]).
Proof.
  destruct (store_round_trip [conversationA; conversationB])
    as (_ & _ & _ & _ & _ & _ & _ & _ & H & _).
  apply H. unfold newestFirst.
  repeat constructor; vm_compute; discriminate.
Defined.

(** X13. Restoring the snapshot touches nothing but the message list and
    the active id.  A key that was never written leaves its part of the
    state as the mount made it, and so does an id item holding the empty
    text or the word [null]: a conversation whose id were one of these
    would come back as no conversation. *)
Theorem restore_snapshot_edges :
  forall ls st,
    savedConversations (restoreSnapshotEffect ls st) = savedConversations st /\
    currentTitle (restoreSnapshotEffect ls st) = currentTitle st /\
    searchText (restoreSnapshotEffect ls st) = searchText st /\
    isLoading (restoreSnapshotEffect ls st) = isLoading st /\
    (item_currentChatHistory ls = None ->
       chatHistory (restoreSnapshotEffect ls st) = chatHistory st) /\
    (item_currentConversationId ls = None \/
     item_currentConversationId ls = Some "" \/
     item_currentConversationId ls = Some "null" ->
       currentConversationId (restoreSnapshotEffect ls st) = currentConversationId st) /\
    (forall i, item_currentConversationId ls = Some i -> i <> "" -> i <> "null" ->
       currentConversationId (restoreSnapshotEffect ls st) = Some i) /\
    (forall s,
       truthy_opt (currentConversationId s) = false \/
       currentConversationId s = Some "null" ->
       currentConversationId (restoreSnapshotEffect (writeSnapshot s) st)
         = currentConversationId st).
Proof.
  intros ls st.
  assert (Hid : forall i, item_currentConversationId ls = Some i ->
            currentConversationId (restoreSnapshotEffect ls st)
            = if truthy i && negb (String.eqb i "null") then Some i
              else currentConversationId st).
  { intros i Hi. unfold restoreSnapshotEffect. rewrite Hi.
    destruct (truthy i && negb (i =? "null")%string); [reflexivity|].
    destruct (item_currentChatHistory ls); reflexivity. }
  assert (Hnone : item_currentConversationId ls = None ->
            currentConversationId (restoreSnapshotEffect ls st) = currentConversationId st).
  { intros Hi. unfold restoreSnapshotEffect. rewrite Hi.
    destruct (item_currentChatHistory ls); reflexivity. }
  split; [apply restoreSnapshotEffect_store|].
  split; [|split; [|split; [|split; [|split; [|split]]]]].
  - unfold restoreSnapshotEffect.
    destruct (item_currentChatHistory ls), (item_currentConversationId ls) as [i|];
      try reflexivity; destruct (truthy i && negb (i =? "null")%string); reflexivity.
  - unfold restoreSnapshotEffect.
    destruct (item_currentChatHistory ls), (item_currentConversationId ls) as [i|];
      try reflexivity; destruct (truthy i && negb (i =? "null")%string); reflexivity.
  - unfold restoreSnapshotEffect.
    destruct (item_currentChatHistory ls), (item_currentConversationId ls) as [i|];
      try reflexivity; destruct (truthy i && negb (i =? "null")%string); reflexivity.
  - intros H. rewrite restoreSnapshotEffect_chatHistory. now rewrite H.
  - intros [H|[H|H]]; [now apply Hnone | now rewrite (Hid _ H) ..].
  - intros i Hi Hne Hnull. rewrite (Hid _ Hi).
    destruct i as [|c i]; [contradiction|]. cbn [truthy andb].
    destruct (String.eqb_spec (String c i) "null"); [contradiction|reflexivity].
  - intros s Hs.
    assert (Hw : item_currentConversationId (writeSnapshot s) = Some "null").
    { unfold writeSnapshot. simpl. destruct Hs as [Hs|Hs].
      - destruct (currentConversationId s) as [i|]; [|reflexivity].
        simpl in Hs. unfold or_else. now rewrite Hs.
      - now rewrite Hs. }
    unfold restoreSnapshotEffect. rewrite Hw. simpl. reflexivity.
Qed.

Lemma restore_snapshot_edges_witness :
  chatHistory (restoreSnapshotEffect (mkStorage None None) viewingA) = chatHistory viewingA /\
  currentConversationId (restoreSnapshotEffect (mkStorage None (Some "null")) viewingA)
    = currentConversationId viewingA.
Proof.
  destruct (restore_snapshot_edges (mkStorage None None) viewingA)
    as (_ & _ & _ & _ & H & _).
  destruct (restore_snapshot_edges (mkStorage None (Some "null")) viewingA)
    as (_ & _ & _ & _ & _ & H' & _).
  split; [apply H; reflexivity | apply H'; auto].
Defined.

(** X14. Over a page reload a saved conversation comes back as it is
    stored, not as it was on screen: the unload commits nothing for it, the
    snapshot gives back the list that was on screen, and the effect that
    restores the last conversation then replaces it with the stored
    messages.  Messages added since the last commit are lost. *)
Theorem reload_shows_the_stored_conversation :
  forall env st a c,
    currentConversationId st = Some a -> a <> "" -> a <> "null" ->
    find_conversation (Some a) (savedConversations st) = Some c ->
    snd (saveStateBeforeUnload env st) = (st, None) /\
    chatHistory (remount env st) = map isoMessage (chatHistory st) /\
    currentConversationId (remount env st) = Some a /\
    chatHistory (restoreLastEffect (remount env st)) = map isoMessage (messages c) /\
    length (chatHistory (restoreLastEffect (remount env st))) = length (messages c).
Proof.
  intros env st a c Hcur Hne Hnull Hfind.
  assert (Ht : truthy_opt (currentConversationId st) = true).
  { rewrite Hcur. destruct a; [contradiction|reflexivity]. }
  assert (Hunload : snd (saveStateBeforeUnload env st) = (st, None)).
  { unfold saveStateBeforeUnload. cbn [snd]. rewrite Ht.
    now rewrite andb_false_r. }
  assert (Hremount : remount env st =
            restoreSnapshotEffect (writeSnapshot st)
              (initialState (reloadedStore (savedConversations st)) (searchText st))).
  { unfold remount. destruct (saveStateBeforeUnload env st) as [ls rest] eqn:E.
    assert (Hls : ls = writeSnapshot st)
      by (unfold saveStateBeforeUnload in E; now injection E as <- _).
    simpl in Hunload. subst rest ls. reflexivity. }
  assert (Hchat : chatHistory (remount env st) = map isoMessage (chatHistory st)).
  { rewrite Hremount, restoreSnapshotEffect_chatHistory.
    unfold writeSnapshot. cbn [item_currentChatHistory].
    apply parse_stringify_messages. }
  assert (Hid : currentConversationId (remount env st) = Some a).
  { rewrite Hremount. unfold restoreSnapshotEffect, writeSnapshot.
    cbn [item_currentChatHistory item_currentConversationId]. rewrite Hcur.
    unfold or_else. destruct a as [|x a]; [contradiction|]. cbn [truthy andb].
    destruct (String.eqb_spec (String x a) "null") as [E|_]; [contradiction|].
    reflexivity. }
  assert (Hstore : savedConversations (remount env st) = savedConversations st).
  { rewrite Hremount, restoreSnapshotEffect_store.
    change (savedConversations
              (initialState (reloadedStore (savedConversations st)) (searchText st)))
      with (reloadedStore (reloadedStore (savedConversations st))).
    now rewrite reloadedStore_idempotent, savedConversations_stored. }
  assert (Hinit : initializedRef (remount env st) = false).
  { rewrite Hremount. unfold restoreSnapshotEffect.
    destruct (item_currentChatHistory (writeSnapshot st)),
             (item_currentConversationId (writeSnapshot st)) as [i|];
      try reflexivity; destruct (truthy i && negb (i =? "null")%string); reflexivity. }
  split; [exact Hunload|]. split; [exact Hchat|]. split; [exact Hid|].
  assert (Hin : In c (savedConversations st))
    by (destruct (find_conversation_id _ _ _ Hfind) as [_ H]; exact H).
  assert (Hpos : (0 <? length (savedConversations st))%nat = true).
  { apply Nat.ltb_lt. destruct (savedConversations st); [contradiction|simpl; lia]. }
  assert (Hshown : chatHistory (restoreLastEffect (remount env st)) = messages c).
  { unfold restoreLastEffect. rewrite Hinit, Hid, Hstore, Hfind, Hpos.
    destruct a as [|x a]; [contradiction|]. reflexivity. }
  rewrite Hshown.
  pose proof (f_equal messages (savedConversations_In st c Hin)) as Hfix.
  cbn [isoConversation messages] in Hfix.
  split; [now symmetry|]. reflexivity.
Qed.

Lemma reload_shows_the_stored_conversation_witness :
  length (chatHistory (remount (sampleEnv 4000) grownA)) = 3 /\
  length (chatHistory (restoreLastEffect (remount (sampleEnv 4000) grownA))) = 1.
Proof.
  destruct (reload_shows_the_stored_conversation (sampleEnv 4000) grownA "1300" conversationA)
    as (_ & H1 & _ & _ & H2); try discriminate; try reflexivity.
  split; [|exact H2]. rewrite H1. reflexivity.
Defined.

(** ** Groups of messages *)

Lemma groupStep_wellFormed (acc : groupState) (m : Message) :
  wellFormedLoop acc -> wellFormedLoop (groupStep acc m).
Proof.
  destruct acc as [[groups cur] replies]. unfold wellFormedLoop, groupStep.
  intros (Hg & Hr & Hc). destruct (role m) eqn:Em.
  - split; [|split; [constructor | exact Em]].
    destruct cur as [u|]; [|exact Hg].
    apply Forall_app. split; [exact Hg|]. constructor; [|constructor].
    split; assumption.
  - destruct cur as [u|].
    + split; [exact Hg|]. split; [|exact Hc].
      apply Forall_app. split; [exact Hr|]. constructor; [exact Em | constructor].
    + auto.
Qed.

Lemma groupStep_laidOut (acc : groupState) (m : Message) :
  wellFormedLoop acc ->
  laidOut (groupStep acc m) =
  laidOut acc ++
  match snd (fst acc), role m with
  | None, assistant => []
  | _, _ => [m]
  end.
Proof.
  destruct acc as [[groups cur] replies]. unfold wellFormedLoop, groupStep, laidOut.
  intros (_ & _ & Hc). cbn [fst snd]. destruct (role m), cur as [u|].
  - rewrite map_app, concat_app. simpl. unfold block at 2. simpl.
    rewrite app_nil_r, <- !app_assoc. reflexivity.
  - now rewrite app_nil_r.
  - rewrite <- !app_assoc. reflexivity.
  - now rewrite !app_nil_r.
Qed.

Lemma fold_groupStep_wellFormed (h : list Message) (acc : groupState) :
  wellFormedLoop acc -> wellFormedLoop (fold_left groupStep h acc).
Proof.
  revert acc. induction h as [|m h IH]; intros acc H; simpl; [exact H|].
  apply IH. now apply groupStep_wellFormed.
Qed.

Lemma fold_groupStep_laidOut (h : list Message) (acc : groupState) :
  wellFormedLoop acc ->
  laidOut (fold_left groupStep h acc) =
  laidOut acc ++
  match snd (fst acc) with
  | None => dropLeadingReplies h
  | Some _ => h
  end.
Proof.
  revert acc. induction h as [|m h IH]; intros acc H; simpl.
  - destruct (snd (fst acc)); now rewrite app_nil_r.
  - rewrite (IH _ (groupStep_wellFormed acc m H)), (groupStep_laidOut acc m H).
    destruct acc as [[groups cur] replies]. cbn [fst snd].
    unfold groupStep. destruct (role m), cur as [u|]; cbn [fst snd];
      rewrite <- ?app_assoc; reflexivity.
Qed.

Lemma fold_groupStep_users (h : list Message) (acc : groupState) :
  usersOf (fold_left groupStep h acc) = usersOf acc ++ filter isUser h.
Proof.
  revert acc. induction h as [|m h IH]; intros acc; simpl.
  - now rewrite app_nil_r.
  - rewrite IH. destruct acc as [[groups cur] replies].
    unfold groupStep, usersOf, isUser. destruct (role m), cur as [u|]; simpl;
      rewrite ?map_app, <- ?app_assoc; reflexivity.
Qed.

Lemma closeGroups_laidOut (acc : groupState) :
  wellFormedLoop acc -> concat (map block (closeGroups acc)) = laidOut acc.
Proof.
  destruct acc as [[groups cur] replies]. unfold closeGroups, laidOut, wellFormedLoop.
  intros (_ & _ & Hc). destruct cur as [u|].
  - rewrite map_app, concat_app. simpl. unfold block at 2. simpl.
    now rewrite app_nil_r.
  - now rewrite app_nil_r.
Qed.

Lemma closeGroups_users (acc : groupState) :
  map userMsg (closeGroups acc) = usersOf acc.
Proof.
  destruct acc as [[groups cur] replies]. unfold closeGroups, usersOf.
  destruct cur as [u|]; [now rewrite map_app | now rewrite app_nil_r].
Qed.

Lemma closeGroups_wellFormed (acc : groupState) :
  wellFormedLoop acc -> Forall wellFormedGroup (closeGroups acc).
Proof.
  destruct acc as [[groups cur] replies]. unfold closeGroups, wellFormedLoop.
  intros (Hg & Hr & Hc). destruct cur as [u|]; [|exact Hg].
  apply Forall_app. split; [exact Hg|]. constructor; [|constructor]. now split.
Qed.

(** X15. [MessageList] makes one group per user message, in order; the
    replies of a group are assistant messages; laid out one after the
    other the groups give back the history without the assistant messages
    that come before the first user message, which are not shown.  A
    history that starts with a user message is shown whole. *)
Theorem groups_lay_out_the_history :
  forall history,
    map userMsg (messageGroups history) = filter isUser history /\
    length (messageGroups history) = length (filter isUser history) /\
    Forall wellFormedGroup (messageGroups history) /\
    concat (map block (messageGroups history)) = dropLeadingReplies history /\
    (forall m rest, history = m :: rest -> role m = user ->
       concat (map block (messageGroups history)) = history).
Proof.
  intros history.
  assert (Hinit : wellFormedLoop (([] : list Group), (None : option Message), ([] : list Message)))
    by (unfold wellFormedLoop; auto).
  pose proof (fold_groupStep_wellFormed history _ Hinit) as Hwf.
  assert (Husers : map userMsg (messageGroups history) = filter isUser history).
  { unfold messageGroups. rewrite closeGroups_users, fold_groupStep_users. reflexivity. }
  assert (Hout : concat (map block (messageGroups history)) = dropLeadingReplies history).
  { unfold messageGroups. rewrite (closeGroups_laidOut _ Hwf).
    rewrite (fold_groupStep_laidOut history _ Hinit). reflexivity. }
  split; [exact Husers|]. split; [|split; [|split]].
  - rewrite <- Husers. now rewrite length_map.
  - unfold messageGroups. now apply closeGroups_wellFormed.
  - exact Hout.
  - intros m rest -> Hm. rewrite Hout. simpl. now rewrite Hm.
Qed.

Lemma groups_lay_out_the_history_witness :
  concat (map block (messageGroups (chatHistory grownA))) = chatHistory grownA.
Proof.
  destruct (groups_lay_out_the_history (chatHistory grownA)) as (_ & _ & _ & _ & H).
  exact (H (isoMessage sampleUser) sampleReplies eq_refl eq_refl).
Defined.

(** ** A like or dislike in the message list *)

Lemma likeMessage_id (m : Message) : id (likeMessage m) = id m.
Proof. unfold likeMessage. flag_cases m; reflexivity. Qed.

Lemma dislikeMessage_id (m : Message) : id (dislikeMessage m) = id m.
Proof. unfold dislikeMessage. flag_cases m; reflexivity. Qed.

Lemma likeMessage_content (m : Message) :
  question (likeMessage m) = question m /\ answer (likeMessage m) = answer m /\
  role (likeMessage m) = role m /\ timestamp (likeMessage m) = timestamp m /\
  imageUrls (likeMessage m) = imageUrls m.
Proof. unfold likeMessage. flag_cases m; repeat split; reflexivity. Qed.

Lemma dislikeMessage_content (m : Message) :
  question (dislikeMessage m) = question m /\ answer (dislikeMessage m) = answer m /\
  role (dislikeMessage m) = role m /\ timestamp (dislikeMessage m) = timestamp m /\
  imageUrls (dislikeMessage m) = imageUrls m.
Proof. unfold dislikeMessage. flag_cases m; repeat split; reflexivity. Qed.

Lemma NoDup_map_In_eq {A B} (f : A -> B) (l : list A) (x y : A) :
  NoDup (map f l) -> In x l -> In y l -> f x = f y -> x = y.
Proof.
  induction l as [|a l IH]; simpl; [contradiction|].
  intros Hnd Hx Hy E. inversion Hnd as [|? ? Hnotin Hnd']; subst.
  destruct Hx as [->|Hx], Hy as [->|Hy]; auto.
  - exfalso. apply Hnotin. rewrite E. now apply in_map.
  - exfalso. apply Hnotin. rewrite <- E. now apply in_map.
Qed.

Lemma In_replaceAt {A} (l : list A) (index : nat) (v y : A) :
  In y (replaceAt index v l) ->
  y = v \/ exists j, j <> index /\ nth_error l j = Some y.
Proof.
  revert index. induction l as [|x l IH]; intros [|index]; simpl; try contradiction.
  - intros [<-|H]; [now left|]. right.
    apply In_nth_error in H as [j Hj]. exists (S j). split; [discriminate | exact Hj].
  - intros [<-|H].
    + right. exists 0. split; [discriminate | reflexivity].
    + destruct (IH _ H) as [->|[j [Hj Hn]]]; [now left|].
      right. exists (S j). split; [congruence | exact Hn].
Qed.

Lemma replaceAt_In {A} (l : list A) (index : nat) (v x : A) :
  nth_error l index = Some x -> In v (replaceAt index v l).
Proof.
  intros H. apply (nth_error_In _ index). eapply nth_error_replaceAt. exact H.
Qed.

Lemma NoDup_nth_error_map {A B} (f : A -> B) (l : list A) (i j : nat) (x y : A) :
  NoDup (map f l) -> nth_error l i = Some x -> nth_error l j = Some y ->
  f x = f y -> i = j.
Proof.
  intros Hnd Hi Hj E.
  apply (proj1 (NoDup_nth_error (map f l)) Hnd).
  - rewrite length_map. apply nth_error_Some. congruence.
  - rewrite !nth_error_map, Hi, Hj. simpl. now rewrite E.
Qed.

Lemma find_unique {A} (p : A -> bool) (l : list A) (x : A) :
  In x l -> p x = true -> (forall y, In y l -> p y = true -> y = x) ->
  find p l = Some x.
Proof.
  intros Hin Hp Huniq. destruct (find p l) as [y|] eqn:E.
  - apply find_some in E as [Hy Hpy]. f_equal. now apply Huniq.
  - exfalso. pose proof (find_none _ _ E x Hin). congruence.
Qed.

Lemma update_after_toggle (toggle : Message -> Message) (replies : list Message)
    (index : nat) (m : Message) (history : list Message) :
  (forall x, id (toggle x) = id x) ->
  nth_error replies index = Some m ->
  NoDup (map id history) -> incl replies history -> NoDup (map id replies) ->
  map (fun oldMsg =>
         match find (fun msg => String.eqb (id msg) (id oldMsg))
                    (replaceAt index (toggle m) replies) with
         | Some updatedMsg => updatedMsg
         | None => oldMsg
         end) history
  = map (fun x => if String.eqb (id x) (id m) then toggle x else x) history.
Proof.
  intros Hid Hn Hnd Hincl Hndr. apply map_ext_in. intros old Hold.
  assert (Hm : In m history) by (apply Hincl; eapply nth_error_In; eauto).
  destruct (String.eqb_spec (id old) (id m)) as [E|E].
  - assert (old = m) by (apply (NoDup_map_In_eq id history); assumption). subst old.
    rewrite (find_unique _ _ (toggle m)); [reflexivity| | |].
    + eapply replaceAt_In; eauto.
    + rewrite Hid. apply String.eqb_refl.
    + intros y Hy Hpy. apply String.eqb_eq in Hpy.
      apply In_replaceAt in Hy as [->|[j [Hj Hnj]]]; [reflexivity|].
      exfalso. apply Hj. symmetry.
      apply (NoDup_nth_error_map id replies index j m y); try assumption.
      now rewrite Hpy.
  - destruct (find _ _) as [r|] eqn:F; [|reflexivity].
    apply find_some in F as [Hr Hpr]. apply String.eqb_eq in Hpr.
    apply In_replaceAt in Hr as [->|[j [_ Hnj]]].
    + rewrite Hid in Hpr. congruence.
    + apply (NoDup_map_In_eq id history); try assumption.
      apply Hincl. eapply nth_error_In; eauto.
Qed.

(** X16. Whatever list a block of replies hands back, taking it into the
    history changes neither the number of messages nor their order nor any
    id, and touches nothing but the message list.  When
    the ids of the list are distinct, the list after a like of the reply at
    the index is the list before with that one message toggled and every
    other message as it was; a toggle keeps the text, the role and the time
    of the message.  An index outside the replies throws. *)
Theorem toggle_changes_one_message :
  forall replies index st,
    (forall updated,
       map id (chatHistory (handleUpdateMessages updated st)) = map id (chatHistory st) /\
       length (chatHistory (handleUpdateMessages updated st)) = length (chatHistory st) /\
       savedConversations (handleUpdateMessages updated st) = savedConversations st /\
       currentConversationId (handleUpdateMessages updated st)
         = currentConversationId st) /\
    (forall m,
       nth_error replies index = Some m ->
       NoDup (map id (chatHistory st)) -> incl replies (chatHistory st) ->
       NoDup (map id replies) ->
       exists updated updated',
         handleLike replies index = Some updated /\
         handleDislike replies index = Some updated' /\
         chatHistory (handleUpdateMessages updated st) =
           map (fun x => if String.eqb (id x) (id m) then likeMessage x else x)
               (chatHistory st) /\
         chatHistory (handleUpdateMessages updated' st) =
           map (fun x => if String.eqb (id x) (id m) then dislikeMessage x else x)
               (chatHistory st) /\
         (forall x, In x (chatHistory st) -> id x <> id m ->
            In x (chatHistory (handleUpdateMessages updated st)) /\
            In x (chatHistory (handleUpdateMessages updated' st)))) /\
    (forall x, question (likeMessage x) = question x /\ answer (likeMessage x) = answer x /\
               role (likeMessage x) = role x /\ timestamp (likeMessage x) = timestamp x /\
               question (dislikeMessage x) = question x /\
               answer (dislikeMessage x) = answer x /\
               role (dislikeMessage x) = role x /\
               timestamp (dislikeMessage x) = timestamp x) /\
    (length replies <= index ->
       handleLike replies index = None /\ handleDislike replies index = None).
Proof.
  intros replies index st. split; [|split; [|split]].
  - intros updated. unfold handleUpdateMessages. simpl.
    split; [|split; [now rewrite length_map | split; reflexivity]].
    rewrite map_map. apply map_ext. intros old.
    destruct (find _ updated) as [r|] eqn:F; [|reflexivity].
    apply find_some in F as [_ F]. now apply String.eqb_eq in F.
  - intros m Hn Hnd Hincl Hndr. unfold handleLike, handleDislike. rewrite Hn.
    do 2 eexists. split; [reflexivity|]. split; [reflexivity|].
    unfold handleUpdateMessages. simpl.
    rewrite (update_after_toggle likeMessage replies index m _ likeMessage_id Hn Hnd Hincl Hndr).
    rewrite (update_after_toggle dislikeMessage replies index m _ dislikeMessage_id Hn Hnd Hincl Hndr).
    split; [reflexivity|]. split; [reflexivity|].
    intros x Hx Hne. split; apply in_map_iff; exists x;
      (split; [|exact Hx]); apply String.eqb_neq in Hne; now rewrite Hne.
  - intros x. destruct (likeMessage_content x) as (A1 & A2 & A3 & A4 & _).
    destruct (dislikeMessage_content x) as (B1 & B2 & B3 & B4 & _).
    repeat split; assumption.
  - intros H. unfold handleLike, handleDislike.
    apply nth_error_None in H. now rewrite H.
Qed.

Lemma toggle_changes_one_message_witness :
  exists updated,
    handleLike sampleReplies 1 = Some updated /\
    chatHistory (handleUpdateMessages updated grownA) =
      map (fun x => if String.eqb (id x) "1000-ai-1" then likeMessage x else x)
          (chatHistory grownA).
Proof.
  destruct (proj1 (proj2 (toggle_changes_one_message sampleReplies 1 grownA))
              (aiMessageOfItem sampleUser 1200 sampleProduct 1))
    as (updated & _ & H1 & _ & H2 & _).
  - reflexivity.
  - vm_compute. repeat constructor; simpl; intuition discriminate.
  - intros x Hx. simpl. right. exact Hx.
  - vm_compute. repeat constructor; simpl; intuition discriminate.
  - exists updated. split; [exact H1 | exact H2].
Defined.



(** ** The search and the growth of the query *)

Lemma string_app_assoc (a b c : string) : ((a ++ b) ++ c = a ++ (b ++ c))%string.
Proof. induction a as [|x a IH]; simpl; [reflexivity | now rewrite IH]. Qed.

Lemma substring_trans (a b c : string) : substring a b -> substring b c -> substring a c.
Proof.
  intros (p & q & ->) (p' & q' & ->). exists (p' ++ p)%string, (q ++ q')%string.
  now rewrite !string_app_assoc.
Qed.

Lemma filter_map_commute {A} (p : A -> bool) (f : A -> A) (l : list A) :
  (forall x, p (f x) = p x) -> filter p (map f l) = map f (filter p l).
Proof.
  intros H. induction l as [|x l IH]; simpl; [reflexivity|].
  rewrite H. destruct (p x); simpl; now rewrite IH.
Qed.

Lemma filter_filter_commute {A} (p q : A -> bool) (l : list A) :
  filter p (filter q l) = filter q (filter p l).
Proof.
  induction l as [|x l IH]; simpl; [reflexivity|].
  destruct (p x) eqn:Ep, (q x) eqn:Eq; simpl; rewrite ?Ep, ?Eq, IH; reflexivity.
Qed.

Lemma filterConversations_map (q : string) (f : SavedConversation -> SavedConversation)
    (saved : list SavedConversation) :
  (forall c, title (f c) = title c) ->
  filterConversations q (map f saved) = map f (filterConversations q saved).
Proof.
  intros H. unfold filterConversations.
  destruct (String.eqb (trim q) ""); [reflexivity|].
  apply filter_map_commute. intros c. unfold titleMatches. now rewrite H.
Qed.

Lemma filterConversations_In :
  (forall q saved, trim q = "" -> filterConversations q saved = saved) /\
  (forall q saved, trim q <> "" ->
     forall c, In c (filterConversations q saved) <->
               In c saved /\ substring (toLowerCase q) (toLowerCase (title c))).
Proof.
  split.
  - intros q saved H. unfold filterConversations. now rewrite H.
  - intros q saved H c. unfold filterConversations.
    destruct (String.eqb_spec (trim q) "") as [E|_]; [contradiction|].
    rewrite filter_In. unfold titleMatches. now rewrite includes_spec.
Qed.

(** X18. A query whose lower-case form contains the lower-case form of
    [q], and which is not blank, never finds more than [q]: every
    conversation found for it is found for [q].  Searching within the
    result of a search for the same query changes nothing.  The search
    commutes with marking the current conversation and with the removal of
    one: searching the changed store gives the changed result. *)
Theorem search_narrows_as_the_query_grows :
  forall (q : string) (saved : list SavedConversation),
    (forall q' : string,
       trim q' <> "" -> substring (toLowerCase q) (toLowerCase q') ->
       incl (filterConversations q' saved) (filterConversations q saved)) /\
    filterConversations q (filterConversations q saved) = filterConversations q saved /\
    (forall target,
       filterConversations q (markCurrent target saved)
       = markCurrent target (filterConversations q saved)) /\
    filterConversations q (clearCurrent saved) = clearCurrent (filterConversations q saved) /\
    (forall cid,
       filterConversations q (filter (fun c => negb (String.eqb (conv_id c) cid)) saved)
       = filter (fun c => negb (String.eqb (conv_id c) cid)) (filterConversations q saved)).
Proof.
  intros q saved. split; [|split; [|split; [|split]]].
  - intros q' Hq' Hsub c Hc.
    destruct filterConversations_In as [Hblank Hcore].
    apply (Hcore q' saved Hq') in Hc as [Hin Hfound].
    destruct (String.eqb_spec (trim q) "") as [Eq|Eq].
    + now rewrite (Hblank q saved Eq).
    + apply (Hcore q saved Eq). split; [exact Hin|].
      eapply substring_trans; eassumption.
  - unfold filterConversations. destruct (String.eqb (trim q) ""); [reflexivity|].
    apply filter_idempotent.
  - intros target. unfold markCurrent. now apply filterConversations_map.
  - unfold clearCurrent. now apply filterConversations_map.
  - intros cid. unfold filterConversations.
    destruct (String.eqb (trim q) ""); [reflexivity|]. apply filter_filter_commute.
Qed.

(** ** The list of the sidebar between two changes of its ids *)




(** ** What the message list shows around a send *)

Lemma messageListView_turn (loading : bool) (h : list Message) (u : Message)
    (rs : list Message) :
  role u = user -> Forall (fun r => role r = assistant) rs ->
  messageListView loading (h ++ u :: rs)
  = Blocks (map (fun g => (userMsg g, repliesView loading g)) (messageGroups h)
            ++ [(u, repliesView loading (mkGroup u rs))]).
Proof.
  intros Hu Hrs. unfold messageListView.
  rewrite (messageGroups_turn h u rs Hu Hrs), map_app.
  destruct (h ++ u :: rs) eqn:E; [now destruct h|]. reflexivity.
Qed.

(** X20. Around a send that is accepted, the message list shows the
    earlier groups and then the new question: with nothing under it while
    the call is out; with the note that there are no responses yet when
    the call fails, and also when it answers with an empty array; with the
    replies made from the answer otherwise.  The replies made from an
    answer are none only for the empty array. *)
Theorem message_list_around_a_send :
  forall env env' st s u,
    handleSendMessage_begin env st = (s, Some u) ->
    let earlier loading :=
      map (fun g => (userMsg g, repliesView loading g)) (messageGroups (chatHistory st)) in
    messageListView (isLoading s) (chatHistory s)
      = Blocks (earlier true ++ [(u, ShowNothing)]) /\
    (exists s',
       handleSendMessage_resume env' u Rejected s = Normal s' /\
       messageListView (isLoading s') (chatHistory s')
         = Blocks (earlier false ++ [(u, NoResponsesYet)])) /\
    (forall response, exists s',
       handleSendMessage_resume env' u (Resolved response) s = Normal s' /\
       messageListView (isLoading s') (chatHistory s')
         = Blocks (earlier false ++
                   [(u, match aiMessagesOf env' u response with
                        | [] => NoResponsesYet
                        | replies => ShowReplies replies
                        end)])) /\
    (forall response, aiMessagesOf env' u response = [] <-> response = RespArray []).
Proof.
  intros env env' st s u Hbegin earlier. unfold handleSendMessage_begin in Hbegin.
  destruct (negb (truthy (trim (questionInput st))) || isLoading st); [discriminate|].
  injection Hbegin as <- <-.
  set (u := newUserMessage (trim (questionInput st)) (now env)).
  assert (Hu : role u = user) by reflexivity.
  split; [|split; [|split]].
  - cbn [isLoading chatHistory setQuestion setChatHistory setIsLoading].
    now rewrite (messageListView_turn true (chatHistory st) u [] Hu (Forall_nil _)).
  - eexists. split; [reflexivity|].
    cbn [send_finally send_catch isLoading chatHistory setQuestion setChatHistory
         setIsLoading setSnackbarOpen setSnackbarMessage].
    now rewrite (messageListView_turn false (chatHistory st) u [] Hu (Forall_nil _)).
  - intros response. eexists. split; [reflexivity|].
    cbn [send_finally isLoading chatHistory setQuestion setChatHistory setIsLoading].
    rewrite <- app_assoc. cbn [app].
    rewrite (messageListView_turn false (chatHistory st) u (aiMessagesOf env' u response) Hu).
    + unfold repliesView. cbn [aiReplies].
      now destruct (aiMessagesOf env' u response).
    + eapply Forall_impl; [|apply aiMessagesOf_shape]. now intros m [Hm _].
  - intros response. destruct response as [[|x items]|]; cbn; split;
      intros H; try reflexivity; discriminate.
Qed.

Lemma message_list_around_a_send_witness :
  messageListView true (chatHistory unsavedChat ++ [newUserMessage "And a Negroni?" 2000])
  = Blocks (map (fun g => (userMsg g, repliesView true g))
                (messageGroups (chatHistory unsavedChat))
            ++ [(newUserMessage "And a Negroni?" 2000, ShowNothing)]).
Proof.
  exact (proj1 (message_list_around_a_send (sampleEnv 2000) (sampleEnv 2300) unsavedChat
                  _ _ eq_refl)).
Defined.

(** ** The panel of conversations *)

(** X21. Under the search bar stands the result of the search whenever it
    is not empty, and never the whole store in its place; the note that
    there is no history appears only for an empty query on an empty store.
    A query of blanks on an empty store gives the note that nothing was
    found. *)
Theorem panel_shows_the_search_result :
  forall (q : string) (saved : list SavedConversation),
    sidebarPanel q (filterConversations q saved) saved
    = match filterConversations q saved with
      | [] => if truthy q then NoConversationsFound else NoConversationHistory
      | c :: found => ShowList (c :: found)
      end /\
    (forall shown, sidebarPanel q (filterConversations q saved) saved = ShowList shown ->
       shown = filterConversations q saved /\ shown <> [] /\ incl shown saved) /\
    (sidebarPanel q (filterConversations q saved) saved = NoConversationHistory
     <-> q = "" /\ saved = []) /\
    (trim q = "" -> q <> "" -> saved = [] ->
       sidebarPanel q (filterConversations q saved) saved = NoConversationsFound).
Proof.
  intros q saved.
  assert (Hshape : forall filtered,
            sidebarPanel q filtered saved
            = match filtered with
              | [] => if truthy q then NoConversationsFound else NoConversationHistory
              | c :: found => ShowList (c :: found)
              end).
  { intros [|c filtered]; reflexivity. }
  split; [apply Hshape|]. split; [|split].
  - intros shown H. rewrite Hshape in H.
    destruct (filterConversations q saved) as [|c found] eqn:E.
    + destruct (truthy q); discriminate.
    + injection H as <-. split; [reflexivity|]. split; [discriminate|].
      rewrite <- E. unfold filterConversations.
      destruct (String.eqb (trim q) ""); [apply incl_refl|].
      intros x Hx. now apply filter_In in Hx as [Hx _].
  - rewrite Hshape. split.
    + intros H. destruct (filterConversations q saved) as [|c found] eqn:E;
        [|discriminate].
      destruct q as [|a q]; [|discriminate]. split; [reflexivity|]. exact E.
    + intros [-> ->]. reflexivity.
  - intros Hblank Hq ->. unfold filterConversations. rewrite Hblank. cbn.
    destruct q as [|a q]; [contradiction|reflexivity].
Qed.

Lemma panel_shows_the_search_result_witness :
  sidebarPanel " " (filterConversations " " []) [] = NoConversationsFound.
Proof.
  apply (proj2 (proj2 (proj2 (panel_shows_the_search_result " " [])))).
  - reflexivity.
  - discriminate.
  - reflexivity.
Defined.

(** ** The indicator under the messages *)

(** X22. The indicator is on screen exactly while a send is out, and then
    it always says that the assistant is thinking: the box with the word
    of success, kept for an empty history, is never shown, since the status
    is asked only while loading. *)
Theorem indicator_is_thinking_or_absent :
  forall (loading : bool) (history : list Message),
    chatContainerIndicator loading history = (if loading then Some Thinking else None) /\
    chatContainerIndicator loading history <> Some SuccessBox /\
    chatContainerIndicator loading history <> Some NoIndicator /\
    (LoadingIndicator (getStatus loading history) = SuccessBox
     <-> loading = false /\ history = []) /\
    (forall env st s u, handleSendMessage_begin env st = (s, Some u) ->
       chatContainerIndicator (isLoading s) (chatHistory s) = Some Thinking).
Proof.
  intros loading history. unfold chatContainerIndicator, getStatus.
  split; [now destruct loading|]. split; [now destruct loading|].
  split; [now destruct loading|]. split.
  - destruct loading, history; simpl; split;
      first [discriminate | now intros [? ?] | now auto].
  - intros env st s u H. unfold handleSendMessage_begin in H.
    destruct (negb (truthy (trim (questionInput st))) || isLoading st); [discriminate|].
    now injection H as <- _.
Qed.

(** ** Reading a reply aloud *)

Lemma togglePlay_without_speech (text : string) (a : AudioState) :
  togglePlay None text a = mkAudio true (speechCalls a).
Proof.
  unfold togglePlay. destruct a as [[|] calls]; reflexivity.
Qed.

(** X23. In a window with speech synthesis a press on the button flips it
    between playing and at rest, and makes exactly one call: it speaks the
    text in a voice of the wanted name taken from the list of voices, or in
    the default voice when the list has none, or it cancels.  In a window without speech synthesis no
    call is ever made, and after the first press the button shows playing
    for good, however often it is pressed. *)
Theorem audio_button_presses :
  forall (text : string) (a : AudioState),
    (forall voices,
       isPlaying (togglePlay (Some voices) text a) = negb (isPlaying a) /\
       (isPlaying a = true ->
          speechCalls (togglePlay (Some voices) text a) = speechCalls a ++ [Cancel]) /\
       (isPlaying a = false ->
          exists voice,
            speechCalls (togglePlay (Some voices) text a)
              = speechCalls a ++ [Speak (mkUtterance text "en-US" 95 110 voice)] /\
            (forall v, voice = Some v ->
               In v voices /\ voice_name v = desiredVoiceName) /\
            (voice = None ->
               forall v, In v voices -> voice_name v <> desiredVoiceName)) /\
       isPlaying (onend (togglePlay (Some voices) text a)) = false /\
       isPlaying (onerror (togglePlay (Some voices) text a)) = false) /\
    (forall presses,
       Nat.iter (S presses) (togglePlay None text) a = mkAudio true (speechCalls a)).
Proof.
  intros text a. split.
  - intros voices. destruct a as [[|] calls]; cbn.
    + repeat split; try reflexivity. discriminate.
    + repeat split; try reflexivity; [discriminate|]. intros _.
      eexists. split; [reflexivity|]. split.
      * intros v Hv. apply find_some in Hv as [Hin Hname].
        split; [exact Hin | now apply String.eqb_eq].
      * intros Hnone v Hin Hname.
        pose proof (find_none _ _ Hnone v Hin) as H. cbn beta in H.
        rewrite Hname, String.eqb_refl in H. discriminate.
  - induction presses as [|n IH].
    + apply togglePlay_without_speech.
    + change (Nat.iter (S (S n)) (togglePlay None text) a)
        with (togglePlay None text (Nat.iter (S n) (togglePlay None text) a)).
      rewrite IH, togglePlay_without_speech. reflexivity.
Qed.

(** ** The store while the clock causes no clash *)

Lemma clockGoesOnRun_fresh : runFresh initialWorld clockGoesOnRun.
Proof.
  unfold clockGoesOnRun, firstChatRun, secondChatRun. cbn [app runFresh fst snd freshOnInsert].
  repeat (split; [exact I|]). split; [|split; exact I].
  intros _. vm_compute. intros [H|[]]. discriminate.
Qed.

(** X24. In every run in which no click that stores a chat for the first
    time reads a clock value that is already the id of a stored
    conversation, no id is stored twice and at most one conversation is
    flagged as current, whatever the order of the user's actions, of the
    answers and titles that arrive, of the effects, of unload and reload. *)
Theorem store_is_good_while_inserts_are_fresh :
  forall w, freshRun w ->
    NoDup (ids (savedConversations (appState w))) /\
    currentCount (savedConversations (appState w)) <= 1.
Proof.
  intros w Hw. exact (freshRun_goodStore w Hw).
Qed.

Lemma store_is_good_while_inserts_are_fresh_witness :
  freshRun (runFrom initialWorld clockGoesOnRun) /\
  ids (savedConversations (appState (runFrom initialWorld clockGoesOnRun)))
    = ["2500"; "1300"] /\
  NoDup (ids (savedConversations (appState (runFrom initialWorld clockGoesOnRun)))) /\
  currentCount (savedConversations (appState (runFrom initialWorld clockGoesOnRun))) <= 1.
Proof.
  assert (H : freshRun (runFrom initialWorld clockGoesOnRun))
    by (apply freshRun_runFrom; [constructor | exact clockGoesOnRun_fresh]).
  split; [exact H|]. split; [reflexivity|].
  exact (store_is_good_while_inserts_are_fresh _ H).
Defined.

(** X25. A commit by [useSaveConversation] does nothing for an empty
    chat.  Under an active id it keeps every entry at its position and
    replaces those with that id by the committed record; without one it
    puts one new entry, whose id is the clock reading, in front of the
    unchanged list.  The record is held as the storage holds it: the
    message list with every [Date] as its ISO text, the two times of the
    commit as ISO texts, no [isCurrent].  The insert keeps the ids of a
    store distinct exactly when the clock reading is not among them. *)
Theorem commit_replaces_in_place_or_inserts_at_head :
  forall env st theTitle,
    let record :=
      mkConversation (DateIso (now env)) (commitId env (currentConversationId st))
                     theTitle (map isoMessage (chatHistory st)) (DateIso (now env)) None in
    let saved' := savedConversations (useSaveConversation env st theTitle st) in
    (chatHistory st = [] -> useSaveConversation env st theTitle st = st) /\
    (chatHistory st <> [] ->
       currentConversationId (useSaveConversation env st theTitle st)
         = Some (conv_id record)) /\
    (chatHistory st <> [] -> truthy_opt (currentConversationId st) = true ->
       currentConversationId st = Some (conv_id record) /\
       ids saved' = ids (savedConversations st) /\
       forall n c, nth_error (savedConversations st) n = Some c ->
         nth_error saved' n =
           Some (if String.eqb (conv_id c) (conv_id record) then record else c)) /\
    (chatHistory st <> [] -> truthy_opt (currentConversationId st) = false ->
       conv_id record = toString (now env) /\
       saved' = record :: savedConversations st /\
       (NoDup (ids (savedConversations st)) ->
        (NoDup (ids saved') <->
         ~ In (toString (now env)) (ids (savedConversations st))))).
Proof.
  intros env st theTitle record saved'.
  assert (Hstore : chatHistory st <> [] ->
            saved' = if negb (truthy_opt (currentConversationId st))
                     then record :: savedConversations st
                     else map (fun c => if String.eqb (conv_id c) (conv_id record)
                                        then record else c) (savedConversations st)).
  { intros Hne. unfold saved'.
    now rewrite (useSaveConversation_store env st theTitle Hne). }
  assert (Hz : chatHistory st <> [] -> (length (chatHistory st) =? 0)%nat = false).
  { intros Hne. apply Nat.eqb_neq. destruct (chatHistory st); [contradiction|discriminate]. }
  split; [|split; [|split]].
  - intros E. unfold useSaveConversation. now rewrite E.
  - intros Hne. unfold useSaveConversation. rewrite (Hz Hne).
    now destruct (negb (truthy_opt (currentConversationId st))).
  - intros Hne Ht. rewrite (Hstore Hne), Ht. cbn [negb]. split; [|split].
    + cbn [record conv_id]. destruct (currentConversationId st) as [a|]; [|discriminate].
      simpl in *. unfold or_else. now rewrite Ht.
    + apply ids_map_same. intros x.
      destruct (String.eqb_spec (conv_id x) (conv_id record)); [now symmetry|reflexivity].
    + intros n c Hn. now rewrite nth_error_map, Hn.
  - intros Hne Ht. rewrite (Hstore Hne), Ht. cbn [negb].
    assert (Hid : conv_id record = toString (now env)).
    { cbn [record conv_id]. unfold commitId.
      destruct (currentConversationId st) as [a|]; [|reflexivity].
      simpl in Ht. unfold or_else. now rewrite Ht. }
    split; [exact Hid|]. split; [reflexivity|].
    intros Hnd. cbn [ids map]. fold (ids (savedConversations st)). rewrite Hid. split.
    + intros H. now inversion H.
    + intros H. now constructor.
Qed.

Lemma commit_replaces_in_place_or_inserts_at_head_witness :
  ids (savedConversations (useSaveConversation (sampleEnv 1500) grownA "Spritz" grownA))
    = ["1300"; "900"] /\
  ids (savedConversations (useSaveConversation (sampleEnv 2500) unsavedChat "Untitled Chat"
                                               unsavedChat))
    = ["2500"; "900"].
Proof.
  destruct (commit_replaces_in_place_or_inserts_at_head (sampleEnv 1500) grownA "Spritz")
    as (_ & _ & Hreplace & _).
  destruct (commit_replaces_in_place_or_inserts_at_head (sampleEnv 2500) unsavedChat
              "Untitled Chat") as (_ & _ & _ & Hinsert).
  split.
  - destruct Hreplace as (_ & H & _); [discriminate | reflexivity | exact H].
  - destruct Hinsert as (_ & H & _); [discriminate | reflexivity |].
    rewrite H. reflexivity.
Defined.



